(** * Authentication backend: sessions, credentials and the HTTP boundary

    A shallow embedding of the TypeScript authentication service
    (backend/src): the user table and its queries (models/User.ts with the
    schema of database/init.ts), the session cache (utils/redis.ts), the
    token helpers (utils/jwt.ts), the orchestration (services/AuthService.ts),
    the bearer middleware (middleware/auth.ts), the controller
    (controllers/AuthController.ts) and the routes (routes/auth.ts).

    Conventions.
    - A JavaScript string is a [string]; each character stands for one
      UTF-16 code unit below 256.
    - [undefined] and [null] of an optional string are both [None]; where the
      code distinguishes a missing value from an empty string the model keeps
      [Some ""] apart from [None].
    - A rejected promise / thrown exception is the [Throw] constructor of
      [result]; every asynchronous function is run to completion.
    - The two stores are taken to be reachable: connection failures and column
      width limits of the relational store are outside the model; its key
      constraints (PRIMARY KEY, UNIQUE) are inside. *)

From Stdlib Require Import ZArith Ascii String List Bool Lia.
From stdpp Require Import base option list strings pretty gmap fin_maps.

Local Open Scope string_scope.
Local Open Scope Z_scope.

(** ** JavaScript primitives used by the service *)

Module Js.

(** Values that cross the HTTP boundary or are compared with [===]. *)
Inductive value :=
| VUndefined
| VNull
| VBool (b : bool)
| VNumber (n : Z)
| VString (s : string).

(** An object literal: its own enumerable keys, in insertion order. *)
Definition object := list (string * value).

Definition get (o : object) (k : string) : value :=
  match List.find (fun kv => String.eqb (fst kv) k) o with
  | Some kv => snd kv
  | None => VUndefined
  end.

Definition has_key (o : object) (k : string) : bool :=
  existsb (fun kv => String.eqb (fst kv) k) o.

(** [const { k, ...rest } = o]: the rest object. *)
Definition omit (k : string) (o : object) : object :=
  List.filter (fun kv => negb (String.eqb (fst kv) k)) o.

(** [a === b] on the values above. *)
Definition strict_eq (a b : value) : bool :=
  match a, b with
  | VUndefined, VUndefined => true
  | VNull, VNull => true
  | VBool x, VBool y => Bool.eqb x y
  | VNumber x, VNumber y => Z.eqb x y
  | VString x, VString y => String.eqb x y
  | _, _ => false
  end.

(** Truthiness of a string: only the empty string is falsy. *)
Definition truthy (s : string) : bool := negb (String.eqb s "").

(** Truthiness of [string | null | undefined]. *)
Definition truthy_opt (o : option string) : bool :=
  match o with
  | Some s => truthy s
  | None => false
  end.

(** [x || null] for an optional string. *)
Definition or_null (o : option string) : option string :=
  if truthy_opt o then o else None.

(** [a || b] for optional strings. *)
Definition or_else (a b : option string) : option string :=
  if truthy_opt a then a else b.

Definition of_option (o : option string) : value :=
  match o with
  | Some s => VString s
  | None => VNull
  end.

Definition lower_unit (c : ascii) : ascii :=
  let n := N_of_ascii c in
  if ((65 <=? n) && (n <=? 90) ||
      (192 <=? n) && (n <=? 222) && negb (n =? 215))%N
  then ascii_of_N (n + 32)
  else c.

(** [s.toLowerCase()]. *)
Fixpoint toLowerCase (s : string) : string :=
  match s with
  | EmptyString => EmptyString
  | String c r => String (lower_unit c) (toLowerCase r)
  end.

(** [s.startsWith(p)]. *)
Fixpoint startsWith (s p : string) {struct p} : bool :=
  match p with
  | EmptyString => true
  | String a p' =>
      match s with
      | EmptyString => false
      | String b s' => Ascii.eqb a b && startsWith s' p'
      end
  end.

(** [s.slice(n)] for a non-negative [n]. *)
Fixpoint slice (n : nat) (s : string) : string :=
  match n, s with
  | O, _ => s
  | S k, EmptyString => EmptyString
  | S k, String _ r => slice k r
  end.

(** [s.split(sep)] for a one-character separator. *)
Fixpoint split (sep : ascii) (s : string) : list string :=
  match s with
  | EmptyString => [EmptyString]
  | String c r =>
      if Ascii.eqb c sep then EmptyString :: split sep r
      else match split sep r with
           | h :: t => String c h :: t
           | [] => [String c EmptyString]
           end
  end.

(** [\s] on code units below 256. *)
Definition is_space (c : ascii) : bool :=
  let n := N_of_ascii c in
  ((9 <=? n) && (n <=? 13) || (n =? 32) || (n =? 160))%N.

End Js.

(** ** Regular expressions, as far as the e-mail pattern needs them *)

Module Regex.

Inductive t :=
| Void
| Eps
| Class (p : ascii -> bool)
| Seq (r1 r2 : t)
| Star (r : t).

(** [r+] *)
Definition Plus (r : t) : t := Seq r (Star r).

Fixpoint nullable (r : t) : bool :=
  match r with
  | Void => false
  | Eps => true
  | Class _ => false
  | Seq r1 r2 => nullable r1 && nullable r2
  | Star _ => true
  end.

(** Union is only needed by the derivative of a sequence; it is kept as a
    list of alternatives. *)
Fixpoint deriv (c : ascii) (r : t) : list t :=
  match r with
  | Void => []
  | Eps => []
  | Class p => if p c then [Eps] else []
  | Seq r1 r2 =>
      List.map (fun d => Seq d r2) (deriv c r1)
      ++ (if nullable r1 then deriv c r2 else [])
  | Star r1 => List.map (fun d => Seq d (Star r1)) (deriv c r1)
  end.

Fixpoint run (rs : list t) (s : string) : bool :=
  match s with
  | EmptyString => existsb nullable rs
  | String c r => run (List.concat (List.map (deriv c) rs)) r
  end.

(** [/^r$/.test(s)] *)
Definition test (r : t) (s : string) : bool := run [r] s.

End Regex.

(** [[^\s@]] *)
Definition email_atom (c : ascii) : bool :=
  negb (Js.is_space c) && negb (Ascii.eqb c "@").

(** [/^[^\s@]+@[^\s@]+\.[^\s@]+$/] *)
Definition email_pattern : Regex.t :=
  Regex.Seq (Regex.Plus (Regex.Class email_atom))
    (Regex.Seq (Regex.Class (Ascii.eqb "@"))
       (Regex.Seq (Regex.Plus (Regex.Class email_atom))
          (Regex.Seq (Regex.Class (Ascii.eqb "."))
             (Regex.Plus (Regex.Class email_atom))))).

(** ** Data model *)

(** A row of table [users] (interface [User] of models/User.ts; nullable
    columns are [option]). *)
Record User := {
  id : string;
  email : string;
  password_hash : option string;
  first_name : option string;
  last_name : option string;
  google_id : option string;
  auth_method : string;
  profile_picture_url : option string;
  created_at : Z;
  updated_at : Z;
  is_active : bool
}.

(** The argument of [UserModel.create]. *)
Record NewUser := {
  nu_email : string;
  nu_password_hash : option string;
  nu_first_name : option string;
  nu_last_name : option string;
  nu_google_id : option string;
  nu_auth_method : string;
  nu_profile_picture_url : option string
}.

(** The [updates] argument of [UserModel.update]: a field is [None] when its
    key is absent from the object. *)
Record UserUpdates := {
  upd_email : option string;
  upd_password_hash : option (option string);
  upd_first_name : option (option string);
  upd_last_name : option (option string);
  upd_google_id : option (option string);
  upd_auth_method : option string;
  upd_profile_picture_url : option (option string);
  upd_is_active : option bool
}.

(** [TokenPayload] of utils/jwt.ts. *)
Record TokenPayload := {
  userId : string;
  tp_email : string;
  tokenId : string
}.

(** The profile handed over by the identity provider ([googleAuth]). *)
Record GoogleProfile := {
  profile_id : string;
  displayName : option string;
  emails : option (list string);
  photos : option (list string)
}.

(** [AuthResponse] of services/AuthService.ts; [user] is the object literal
    the service builds. *)
Record AuthResponse := {
  accessToken : string;
  user : Js.object
}.

(** config/index.ts, the entries the service reads. *)
Record Config := {
  jwt_secret : string;
  jwt_expiry : string;
  session_expiry : Z
}.

(** What is thrown: [new Error(message)] by the service, or the store's
    unique-violation error (SQLSTATE 23505) naming the violated constraint. *)
Inductive exn :=
| Error (message : string)
| UniqueViolation (constraint : string).

(** [error.message] *)
Definition message (e : exn) : string :=
  match e with
  | Error m => m
  | UniqueViolation c =>
      "duplicate key value violates unique constraint "
      +:+ String "034" (c +:+ String "034" EmptyString)
  end.

Inductive result (A : Type) :=
| Ok (a : A)
| Throw (e : exn).
Arguments Ok {A} a.
Arguments Throw {A} e.

(** The state the service runs against. *)
Record World := {
  users : list User;                    (* table users, in row order *)
  users_seq : nat;                      (* rows inserted so far: index of the next id draw *)
  sessions : gmap string (string * Z);  (* cache: key -> (value, instant of expiry) *)
  uuid_seq : nat;                       (* uuidv4() calls so far *)
  clock : Z                             (* current time, in seconds *)
}.

Definition with_users (us : list User) (n : nat) (w : World) : World :=
  {| users := us; users_seq := n; sessions := sessions w;
     uuid_seq := uuid_seq w; clock := clock w |}.

Definition with_sessions (s : gmap string (string * Z)) (w : World) : World :=
  {| users := users w; users_seq := users_seq w; sessions := s;
     uuid_seq := uuid_seq w; clock := clock w |}.

Definition with_uuid_seq (n : nat) (w : World) : World :=
  {| users := users w; users_seq := users_seq w; sessions := sessions w;
     uuid_seq := n; clock := clock w |}.

(** Time passing between two requests. *)
Definition advance (d : Z) (w : World) : World :=
  {| users := users w; users_seq := users_seq w; sessions := sessions w;
     uuid_seq := uuid_seq w; clock := clock w + d |}.

(** Asynchronous code that may throw: state is kept across a throw. *)
Definition M (A : Type) : Type := World -> result A * World.

Definition ret {A} (a : A) : M A := fun w => (Ok a, w).
Definition throw {A} (e : exn) : M A := fun w => (Throw e, w).
Definition bind {A B} (m : M A) (k : A -> M B) : M B :=
  fun w =>
    match m w with
    | (Ok a, w') => k a w'
    | (Throw e, w') => (Throw e, w')
    end.

Notation "'let*' x ':=' m 'in' k" := (bind m (fun x => k))
  (at level 10, x name, m at level 100, k at level 200).
Notation "'do*' m 'in' k" := (bind m (fun _ => k))
  (at level 10, m at level 100, k at level 200).

(** ** The session cache (the commands of the key-value store that
    utils/redis.ts issues)

    The server is taken to accept every command; an entry written with a
    time-to-live that is not positive is never live. *)

Module Redis.

(** SETEX key ttl value *)
Definition setEx (key : string) (ttl : Z) (value : string) : M unit :=
  fun w => (Ok tt, with_sessions (<[key := (value, clock w + ttl)]> (sessions w)) w).

(** GET key: the value of a key that has not expired, else null. *)
Definition get (key : string) : M (option string) :=
  fun w =>
    match sessions w !! key with
    | Some (v, expiry) => if clock w <? expiry then (Ok (Some v), w) else (Ok None, w)
    | None => (Ok None, w)
    end.

(** DEL key *)
Definition del (key : string) : M unit :=
  fun w => (Ok tt, with_sessions (delete key (sessions w)) w).

(** TTL key: the seconds a live key has left. *)
Definition ttl (key : string) (w : World) : option Z :=
  match sessions w !! key with
  | Some (_, expiry) => if clock w <? expiry then Some (expiry - clock w) else None
  | None => None
  end.

End Redis.

(** A session entry is live when its key is present and not yet expired. *)
Definition live_session (w : World) (tid : string) : Prop :=
  exists v expiry, sessions w !! ("session:" +:+ tid) = Some (v, expiry) /\ clock w < expiry.

(** ** Libraries and missing modules

    [jwt_sign] and [jwt_verify] stand for jsonwebtoken's [sign] and [verify]
    ([jwt_verify] is [None] where [verify] throws); [uuidv4] and
    [gen_random_uuid] give the n-th identifier drawn by the uuid package and
    by the store's column default. utils/password.ts is not among the
    sources: its [hashPassword] and [comparePassword] are parameters too. *)
Record Externals := {
  config : Config;
  jwt_sign : TokenPayload -> string -> string -> Z -> string;
  jwt_verify : string -> string -> Z -> option TokenPayload;
  hashPassword : string -> string;
  comparePassword : string -> string -> bool;
  uuidv4 : nat -> string;
  gen_random_uuid : nat -> string
}.

Definition is_some_eq (o : option string) (s : string) : bool :=
  match o with
  | Some x => String.eqb x s
  | None => false
  end.

Section Service.

Variable E : Externals.

(** ** models/User.ts *)

(** The unique constraints of the schema, checked for a row that is about to
    hold [i], [e] and [g] and that replaces the rows whose id is [self]
    (none, for an insert). *)
Definition unique_violation (us : list User) (self : option string)
    (i e : string) (g : option string) : option exn :=
  let others := List.filter (fun u => negb (is_some_eq self (id u))) us in
  if existsb (fun u => String.eqb (id u) i) others
  then Some (UniqueViolation "users_pkey")
  else if existsb (fun u => String.eqb (email u) e) others
  then Some (UniqueViolation "users_email_key")
  else match g with
       | Some gid =>
           if existsb (fun u => is_some_eq (google_id u) gid) others
           then Some (UniqueViolation "users_google_id_key")
           else None
       | None => None
       end.

(** INSERT INTO users (...) VALUES (...) RETURNING * *)
Definition UserModel_create (d : NewUser) : M User :=
  fun w =>
    let row :=
      {| id := gen_random_uuid E (users_seq w);
         email := nu_email d;
         password_hash := Js.or_null (nu_password_hash d);
         first_name := Js.or_null (nu_first_name d);
         last_name := Js.or_null (nu_last_name d);
         google_id := Js.or_null (nu_google_id d);
         auth_method := nu_auth_method d;
         profile_picture_url := Js.or_null (nu_profile_picture_url d);
         created_at := clock w;
         updated_at := clock w;
         is_active := true |} in
    match unique_violation (users w) None (id row) (email row) (google_id row) with
    | Some e => (Throw e, w)
    | None => (Ok row, with_users (users w ++ [row]) (S (users_seq w)) w)
    end.

(** SELECT * FROM users WHERE email = $1 AND is_active = true *)
Definition UserModel_findByEmail (e : string) : M (option User) :=
  fun w =>
    (Ok (List.find (fun u => String.eqb (email u) (Js.toLowerCase e) && is_active u)
           (users w)), w).

(** SELECT * FROM users WHERE id = $1 AND is_active = true *)
Definition UserModel_findById (i : string) : M (option User) :=
  fun w =>
    (Ok (List.find (fun u => String.eqb (id u) i && is_active u) (users w)), w).

(** SELECT * FROM users WHERE google_id = $1 AND is_active = true *)
Definition UserModel_findByGoogleId (g : string) : M (option User) :=
  fun w =>
    (Ok (List.find (fun u => is_some_eq (google_id u) g && is_active u) (users w)), w).

(** [Object.keys(updates)] is empty. *)
Definition no_keys (upd : UserUpdates) : bool :=
  match upd_email upd, upd_password_hash upd, upd_first_name upd, upd_last_name upd,
        upd_google_id upd, upd_auth_method upd, upd_profile_picture_url upd,
        upd_is_active upd with
  | None, None, None, None, None, None, None, None => true
  | _, _, _, _, _, _, _, _ => false
  end.

(** SET k1 = $1, ..., updated_at = CURRENT_TIMESTAMP on one row. *)
Definition apply_updates (now : Z) (upd : UserUpdates) (u : User) : User :=
  {| id := id u;
     email := default (email u) (upd_email upd);
     password_hash := default (password_hash u) (upd_password_hash upd);
     first_name := default (first_name u) (upd_first_name upd);
     last_name := default (last_name u) (upd_last_name upd);
     google_id := default (google_id u) (upd_google_id upd);
     auth_method := default (auth_method u) (upd_auth_method upd);
     profile_picture_url := default (profile_picture_url u) (upd_profile_picture_url upd);
     created_at := created_at u;
     updated_at := now;
     is_active := default (is_active u) (upd_is_active upd) |}.

(** UPDATE users SET ... WHERE id = $n RETURNING *; with no key at all, the
    plain lookup by id. *)
Definition UserModel_update (i : string) (upd : UserUpdates) : M (option User) :=
  if no_keys upd then UserModel_findById i
  else fun w =>
    match List.find (fun u => String.eqb (id u) i) (users w) with
    | None => (Ok None, w)
    | Some old =>
        let new := apply_updates (clock w) upd old in
        match unique_violation (users w) (Some i) (id new) (email new) (google_id new) with
        | Some e => (Throw e, w)
        | None =>
            (Ok (Some new),
             with_users
               (List.map (fun u => if String.eqb (id u) i
                                   then apply_updates (clock w) upd u else u) (users w))
               (users_seq w) w)
        end
    end.

(** The row as the driver returns it. *)
Definition user_object (u : User) : Js.object :=
  [ ("id", Js.VString (id u));
    ("email", Js.VString (email u));
    ("password_hash", Js.of_option (password_hash u));
    ("first_name", Js.of_option (first_name u));
    ("last_name", Js.of_option (last_name u));
    ("google_id", Js.of_option (google_id u));
    ("auth_method", Js.VString (auth_method u));
    ("profile_picture_url", Js.of_option (profile_picture_url u));
    ("created_at", Js.VNumber (created_at u));
    ("updated_at", Js.VNumber (updated_at u));
    ("is_active", Js.VBool (is_active u)) ].

Definition UserModel_getUserProfile (i : string) : M (option Js.object) :=
  let* u := UserModel_findById i in
  match u with
  | None => ret None
  | Some u => ret (Some (Js.omit "password_hash" (user_object u)))
  end.

(** ** utils/jwt.ts *)

Definition generateToken (uid em tid : string) : M string :=
  fun w =>
    (Ok (jwt_sign E {| userId := uid; tp_email := em; tokenId := tid |}
           (jwt_secret (config E)) (jwt_expiry (config E)) (clock w)), w).

Definition verifyToken (token : string) : M (option TokenPayload) :=
  fun w => (Ok (jwt_verify E token (jwt_secret (config E)) (clock w)), w).

(** ** utils/redis.ts *)

(** [storeSession(userId, tokenId, ttl = config.session.expiry)]; the promise
    resolves with no value. *)
Definition storeSession (uid tid : string) (ttl : option Z) : M Js.value :=
  let ttl := default (session_expiry (config E)) ttl in
  let key := "session:" +:+ tid in
  do* Redis.setEx key ttl uid in
  ret Js.VUndefined.

Definition validateSession (tid : string) : M (option string) :=
  let key := "session:" +:+ tid in
  Redis.get key.

Definition invalidateSession (tid : string) : M unit :=
  let key := "session:" +:+ tid in
  Redis.del key.

(** ** services/AuthService.ts *)

(** [uuidv4()] *)
Definition fresh_uuid : M string :=
  fun w => (Ok (uuidv4 E (uuid_seq w)), with_uuid_seq (S (uuid_seq w)) w).

(** The [user] object literal of an [AuthResponse]. *)
Definition user_view (u : User) : Js.object :=
  [ ("id", Js.VString (id u));
    ("email", Js.VString (email u));
    ("first_name", Js.of_option (first_name u));
    ("last_name", Js.of_option (last_name u));
    ("profile_picture_url", Js.of_option (profile_picture_url u));
    ("auth_method", Js.VString (auth_method u)) ].

(** The common tail of the three authentication paths: "Generate token and
    session", "Store session in Redis", build the response. *)
Definition issue (u : User) : M AuthResponse :=
  let* tid := fresh_uuid in
  let* token := generateToken (id u) (email u) tid in
  do* storeSession (id u) tid (Some (session_expiry (config E))) in
  ret {| accessToken := token; user := user_view u |}.

Definition AuthService_register (em pw fn ln : option string) : M AuthResponse :=
  match em, pw with
  | Some em, Some pw =>
      if negb (Js.truthy em) || negb (Js.truthy pw)
      then throw (Error "Email and password are required")
      else if negb (Regex.test email_pattern em)
      then throw (Error "Invalid email format")
      else if (Z.of_nat (String.length pw) <? 6)
      then throw (Error "Password must be at least 6 characters")
      else
        let* existingUser := UserModel_findByEmail em in
        match existingUser with
        | Some _ => throw (Error "Email already registered")
        | None =>
            let passwordHash := hashPassword E pw in
            let* u := UserModel_create
                        {| nu_email := Js.toLowerCase em;
                           nu_password_hash := Some passwordHash;
                           nu_first_name := fn;
                           nu_last_name := ln;
                           nu_google_id := None;
                           nu_auth_method := "email";
                           nu_profile_picture_url := None |} in
            issue u
        end
  | _, _ => throw (Error "Email and password are required")
  end.

Definition AuthService_login (em pw : option string) : M AuthResponse :=
  match em, pw with
  | Some em, Some pw =>
      if negb (Js.truthy em) || negb (Js.truthy pw)
      then throw (Error "Email and password are required")
      else
        let* found := UserModel_findByEmail em in
        match found with
        | None => throw (Error "Invalid email or password")
        | Some u =>
            match password_hash u with
            | Some h =>
                if negb (Js.truthy h)
                then throw (Error "This account uses a different authentication method")
                else if negb (comparePassword E pw h)
                then throw (Error "Invalid email or password")
                else issue u
            | None => throw (Error "This account uses a different authentication method")
            end
        end
  | _, _ => throw (Error "Email and password are required")
  end.

Definition AuthService_googleAuth (profile : GoogleProfile) : M AuthResponse :=
  let googleId := profile_id profile in
  let em := es ← emails profile; head es in
  let dn := default "" (Js.or_null (displayName profile)) in
  let profilePictureUrl := ps ← photos profile; head ps in
  match Js.or_null em with
  | None => throw (Error "Email not provided by Google")
  | Some em =>
      let* byGoogle := UserModel_findByGoogleId googleId in
      let* u :=
        match byGoogle with
        | Some u => ret (Some u)
        | None =>
            let* byEmail := UserModel_findByEmail em in
            match byEmail with
            | None =>
                let names := Js.split " " dn in
                let* u := UserModel_create
                            {| nu_email := Js.toLowerCase em;
                               nu_password_hash := None;
                               nu_first_name := names !! 0%nat;
                               nu_last_name := names !! 1%nat;
                               nu_google_id := Some googleId;
                               nu_auth_method := "google";
                               nu_profile_picture_url := profilePictureUrl |} in
                ret (Some u)
            | Some u =>
                UserModel_update (id u)
                  {| upd_email := None;
                     upd_password_hash := None;
                     upd_first_name := None;
                     upd_last_name := None;
                     upd_google_id := Some (Some googleId);
                     upd_auth_method := Some "google";
                     upd_profile_picture_url :=
                       Some (Js.or_else profilePictureUrl (profile_picture_url u));
                     upd_is_active := None |}
            end
        end in
      match u with
      | None => throw (Error "Failed to authenticate with Google")
      | Some u => issue u
      end
  end.

Definition AuthService_logout (tid : string) : M unit :=
  invalidateSession tid.

Definition AuthService_validateSession (tid uid : string) : M bool :=
  let* storedUserId := storeSession uid tid None in
  ret (Js.strict_eq storedUserId (Js.VString uid)).

(** ** The HTTP boundary *)

(** The JSON bodies the handlers send. *)
Inductive body :=
| AuthData (message : string) (data : AuthResponse)  (* { success: true, message, data } *)
| Done (message : string)                            (* { success: true, message } *)
| ProfileData (data : Js.object)                     (* { success: true, data } *)
| Failure (error : string)                           (* { success: false, error } *)
| Refusal (error : string).                          (* { error } *)

Record Response := {
  status : Z;
  json : body
}.

(** What a handler reads of the request. *)
Record Request := {
  authorization : option string;      (* req.headers.authorization *)
  body_email : option string;         (* req.body.email *)
  body_password : option string;      (* req.body.password *)
  body_firstName : option string;
  body_lastName : option string;
  req_user : option TokenPayload      (* req.user *)
}.

Definition set_user (p : TokenPayload) (req : Request) : Request :=
  {| authorization := authorization req;
     body_email := body_email req;
     body_password := body_password req;
     body_firstName := body_firstName req;
     body_lastName := body_lastName req;
     req_user := Some p |}.

(** [error.message || fallback] *)
Definition message_or (e : exn) (fallback : string) : string :=
  if Js.truthy (message e) then message e else fallback.

(** middleware/auth.ts: either a response is sent, or [next()] runs with
    [req.user] set. *)
Definition authMiddleware (req : Request) (w : World) : Response + Request :=
  match authorization req with
  | None => inl {| status := 401; json := Refusal "Missing authorization token" |}
  | Some authHeader =>
      if negb (Js.truthy authHeader) || negb (Js.startsWith authHeader "Bearer ")
      then inl {| status := 401; json := Refusal "Missing authorization token" |}
      else
        let token := Js.slice 7 authHeader in
        match verifyToken token w with
        | (Ok None, _) => inl {| status := 401; json := Refusal "Invalid token" |}
        | (Ok (Some payload), w1) =>
            match validateSession (tokenId payload) w1 with
            | (Ok isValidSession, _) =>
                if negb (Js.truthy_opt isValidSession)
                then inl {| status := 401; json := Refusal "Session expired or invalid" |}
                else inr (set_user payload req)
            | (Throw _, _) => inl {| status := 401; json := Refusal "Authentication failed" |}
            end
        | (Throw _, _) => inl {| status := 401; json := Refusal "Authentication failed" |}
        end
  end.

(** controllers/AuthController.ts *)

Definition AuthController_register (req : Request) (w : World) : Response * World :=
  match AuthService_register (body_email req) (body_password req)
          (body_firstName req) (body_lastName req) w with
  | (Ok r, w') => ({| status := 201; json := AuthData "Registration successful" r |}, w')
  | (Throw e, w') => ({| status := 400; json := Failure (message_or e "Registration failed") |}, w')
  end.

Definition AuthController_login (req : Request) (w : World) : Response * World :=
  match AuthService_login (body_email req) (body_password req) w with
  | (Ok r, w') => ({| status := 200; json := AuthData "Login successful" r |}, w')
  | (Throw e, w') => ({| status := 401; json := Failure (message_or e "Login failed") |}, w')
  end.

Definition AuthController_logout (req : Request) (w : World) : Response * World :=
  match req_user req with
  | None => ({| status := 401; json := Refusal "Not authenticated" |}, w)
  | Some p =>
      match AuthService_logout (tokenId p) w with
      | (Ok _, w') => ({| status := 200; json := Done "Logout successful" |}, w')
      | (Throw e, w') => ({| status := 400; json := Failure (message_or e "Logout failed") |}, w')
      end
  end.

Definition AuthController_me (req : Request) (w : World) : Response * World :=
  match req_user req with
  | None => ({| status := 401; json := Refusal "Not authenticated" |}, w)
  | Some p =>
      match UserModel_getUserProfile (userId p) w with
      | (Ok None, w') => ({| status := 404; json := Refusal "User not found" |}, w')
      | (Ok (Some u), w') => ({| status := 200; json := ProfileData u |}, w')
      | (Throw e, w') =>
          ({| status := 400; json := Failure (message_or e "Failed to fetch profile") |}, w')
      end
  end.

(** routes/auth.ts: the protected routes run the middleware first. *)
Definition protected (handler : Request -> World -> Response * World)
    (req : Request) (w : World) : Response * World :=
  match authMiddleware req w with
  | inl r => (r, w)
  | inr req' => handler req' w
  end.

Definition route_logout : Request -> World -> Response * World :=
  protected AuthController_logout.

Definition route_me : Request -> World -> Response * World :=
  protected AuthController_me.

End Service.

(** ** Vocabulary of the statements *)

(** The strings a regular expression denotes. *)
Inductive matches : Regex.t -> string -> Prop :=
| matches_eps : matches Regex.Eps ""
| matches_class p c : p c = true -> matches (Regex.Class p) (String c "")
| matches_seq r1 r2 s1 s2 :
    matches r1 s1 -> matches r2 s2 -> matches (Regex.Seq r1 r2) (s1 +:+ s2)
| matches_star_nil r : matches (Regex.Star r) ""
| matches_star_app r s1 s2 :
    matches r s1 -> matches (Regex.Star r) s2 -> matches (Regex.Star r) (s1 +:+ s2).

(** Every code unit of the string satisfies [p]. *)
Fixpoint all_units (p : ascii -> bool) (s : string) : bool :=
  match s with
  | EmptyString => true
  | String c r => p c && all_units p r
  end.

(** A part of an e-mail address: not empty, no white space, no [@]. *)
Definition email_part (s : string) : Prop :=
  s <> "" /\ all_units email_atom s = true.

(** The error taxonomy of the HTTP interface. The code throws plain errors
    and store errors; the kind of each is read off its message or its
    violated constraint. *)
Inductive error_kind :=
| ValidationError
| ConflictError
| AuthError
| InternalError.

Definition one_of (m : string) (ms : list string) : bool :=
  existsb (String.eqb m) ms.

Definition kind_of (e : exn) : error_kind :=
  match e with
  | Error m =>
      if one_of m [ "Email and password are required";
                    "Invalid email format";
                    "Password must be at least 6 characters" ]
      then ValidationError
      else if one_of m [ "Email already registered" ]
      then ConflictError
      else if one_of m [ "Invalid email or password";
                         "This account uses a different authentication method";
                         "Email not provided by Google";
                         "Failed to authenticate with Google" ]
      then AuthError
      else InternalError
  | UniqueViolation c =>
      if String.eqb c "users_email_key" then ConflictError else InternalError
  end.

(** The key under which a session identifier is cached. *)
Definition session_key (tid : string) : string := "session:" +:+ tid.

(** A live session entry whose stored user identifier is not empty. *)
Definition usable_session (w : World) (tid : string) : Prop :=
  exists v expiry,
    sessions w !! session_key tid = Some (v, expiry) /\ clock w < expiry /\ v <> "".

(** The identifier the store would draw for the next row is not in use. *)
Definition id_available (E : Externals) (w : World) : bool :=
  forallb (fun u => negb (String.eqb (id u) (gen_random_uuid E (users_seq w)))) (users w).

(** Some row, active or not, carries this e-mail address. *)
Definition email_taken (w : World) (e : string) : bool :=
  existsb (fun u => String.eqb (email u) (Js.toLowerCase e)) (users w).

(** Some row, active or not, carries this provider id. *)
Definition google_id_taken (w : World) (g : string) : bool :=
  existsb (fun u => is_some_eq (google_id u) g) (users w).

(** [email] fails the pattern of [register] (a missing field fails it too). *)
Definition malformed_email (em : option string) : bool :=
  match em with
  | Some s => negb (Regex.test email_pattern s)
  | None => true
  end.

(** [password] is shorter than the minimum of [register]. *)
Definition too_short (pw : option string) : bool :=
  match pw with
  | Some s => Z.of_nat (String.length s) <? 6
  | None => true
  end.

(** What a successful authentication of [u] leaves behind, from [w] to [w']. *)
Definition issued (E : Externals) (w w' : World) (u : User) (r : AuthResponse) : Prop :=
  let tid := uuidv4 E (uuid_seq w) in
  uuid_seq w' = S (uuid_seq w)
  /\ accessToken r =
       jwt_sign E {| userId := id u; tp_email := email u; tokenId := tid |}
         (jwt_secret (config E)) (jwt_expiry (config E)) (clock w)
  /\ sessions w' = <[session_key tid := (id u, clock w + session_expiry (config E))]> (sessions w)
  /\ clock w' = clock w
  /\ user r = user_view u
  /\ Js.has_key (user r) "password_hash" = false.

(** The e-mail address [googleAuth] reads from a provider profile, if it is
    there and not empty. *)
Definition profile_email (p : GoogleProfile) : option string :=
  Js.or_null (es ← emails p; head es).

(** The picture [googleAuth] reads from a provider profile. *)
Definition profile_picture (p : GoogleProfile) : option string :=
  ps ← photos p; head ps.

(** The updates by which [googleAuth] links a provider id to the row [u]. *)
Definition link_updates (g : string) (p : GoogleProfile) (u : User) : UserUpdates :=
  {| upd_email := None;
     upd_password_hash := None;
     upd_first_name := None;
     upd_last_name := None;
     upd_google_id := Some (Some g);
     upd_auth_method := Some "google";
     upd_profile_picture_url :=
       Some (Js.or_else (profile_picture p) (profile_picture_url u));
     upd_is_active := None |}.

(** The row [googleAuth] asks the store to insert for a new account. *)
Definition google_account (p : GoogleProfile) (em : string) : NewUser :=
  let names := Js.split " " (default "" (Js.or_null (displayName p))) in
  {| nu_email := Js.toLowerCase em;
     nu_password_hash := None;
     nu_first_name := names !! 0%nat;
     nu_last_name := names !! 1%nat;
     nu_google_id := Some (profile_id p);
     nu_auth_method := "google";
     nu_profile_picture_url := profile_picture p |}.

(** No two strings of the list are equal. *)
Fixpoint distinct (l : list string) : bool :=
  match l with
  | [] => true
  | x :: r => negb (existsb (String.eqb x) r) && distinct r
  end.

(** The key constraints of the schema: PRIMARY KEY (id), UNIQUE (email),
    UNIQUE (google_id) on the rows where it is not null. *)
Definition unique_keys (us : list User) : bool :=
  distinct (List.map id us)
  && distinct (List.map email us)
  && distinct (omap google_id us).

(** Two positions of the table never share a value of the column [f]. *)
Definition column_unique {K} (f : User -> option K) (us : list User) : Prop :=
  forall i j u v k,
    us !! i = Some u -> us !! j = Some v -> f u = Some k -> f v = Some k -> i = j.

(** A request that carries only credentials in its body. *)
Definition credentials (em pw : option string) : Request :=
  {| authorization := None;
     body_email := em;
     body_password := pw;
     body_firstName := None;
     body_lastName := None;
     req_user := None |}.

(** ** Sample data *)

(** The defaults of config/index.ts. *)
Definition default_config : Config :=
  {| jwt_secret := "your-secret-key"; jwt_expiry := "24h"; session_expiry := 86400 |}.

(** Stand-ins for the libraries: a token is its session identifier behind a
    tag, a hash is the secret behind a tag, identifiers are numbered. *)
Definition sample_externals : Externals :=
  {| config := default_config;
     jwt_sign := fun p _ _ _ => "jwt." +:+ tokenId p;
     jwt_verify := fun t _ _ =>
       if Js.startsWith t "jwt."
       then Some {| userId := "user-0"; tp_email := "a@b.com"; tokenId := Js.slice 4 t |}
       else None;
     hashPassword := fun p => "hash:" +:+ p;
     comparePassword := fun p h => String.eqb ("hash:" +:+ p) h;
     uuidv4 := fun n => pretty n;
     gen_random_uuid := fun n => "user-" +:+ pretty n |}.

Definition empty_world : World :=
  {| users := []; users_seq := 0; sessions := ∅; uuid_seq := 0; clock := 1000 |}.

Definition sample_request : Request :=
  {| authorization := Some "Bearer jwt.t1";
     body_email := Some "a@b.com";
     body_password := Some "secret123";
     body_firstName := Some "A";
     body_lastName := None;
     req_user := None |}.

(** An account registered with a password. *)
Definition alice : User :=
  {| id := "user-0"; email := "a@b.com"; password_hash := Some "hash:secret123";
     first_name := Some "A"; last_name := None; google_id := None;
     auth_method := "email"; profile_picture_url := None;
     created_at := 0; updated_at := 0; is_active := true |}.

(** An account that only ever signed in through the identity provider. *)
Definition gina : User :=
  {| id := "user-1"; email := "g@x.com"; password_hash := None;
     first_name := Some "Gina"; last_name := None; google_id := Some "g-1";
     auth_method := "google"; profile_picture_url := None;
     created_at := 0; updated_at := 0; is_active := true |}.

(** A deactivated account. *)
Definition dora : User :=
  {| id := "user-2"; email := "d@x.com"; password_hash := Some "hash:secret123";
     first_name := Some "Dora"; last_name := None; google_id := None;
     auth_method := "email"; profile_picture_url := None;
     created_at := 0; updated_at := 0; is_active := false |}.

Definition sample_world : World :=
  {| users := [alice; gina; dora]; users_seq := 3;
     sessions := {[ session_key "t1" := ("user-0", 1010) ]};
     uuid_seq := 2; clock := 1000 |}.

(** ** The rest of the backend *)

Section Backend.

Variable E : Externals.

(** middleware/auth.ts, [optionalAuth]: no response is ever sent, [next()]
    always runs, with [req.user] set when the bearer token verifies. *)
Definition optionalAuth (req : Request) (w : World) : Request :=
  match authorization req with
  | Some authHeader =>
      if Js.startsWith authHeader "Bearer "
      then
        let token := Js.slice 7 authHeader in
        match verifyToken E token w with
        | (Ok (Some payload), _) => set_user payload req
        | _ => req
        end
      else req
  | None => req
  end.

End Backend.

(** SELECT id FROM users WHERE email = $1; [result.rows.length > 0] *)
Definition UserModel_existsByEmail (e : string) : M bool :=
  fun w =>
    let rows := List.filter (fun u => String.eqb (email u) (Js.toLowerCase e)) (users w) in
    (Ok (0 <? length rows)%nat, w).

(** SELECT id FROM users WHERE google_id = $1; [result.rows.length > 0] *)
Definition UserModel_existsByGoogleId (g : string) : M bool :=
  fun w =>
    let rows := List.filter (fun u => is_some_eq (google_id u) g) (users w) in
    (Ok (0 <? length rows)%nat, w).

(** utils/redis.ts, the connection singleton: [redisClient] is the client in
    use, numbered by creation; [created] counts the clients [createClient]
    has made. *)
Record Connection := {
  redisClient : option nat;
  created : nat
}.

Definition initRedis (c : Connection) : nat * Connection :=
  match redisClient c with
  | Some client => (client, c)
  | None => (created c, {| redisClient := Some (created c); created := S (created c) |})
  end.

Definition getRedis (c : Connection) : nat * Connection :=
  match redisClient c with
  | None => initRedis c
  | Some client => (client, c)
  end.

Definition closeRedis (c : Connection) : Connection :=
  match redisClient c with
  | Some _ => {| redisClient := None; created := created c |}
  | None => c
  end.

(** A call of one of the three functions. *)
Inductive connection_call :=
| CallInit
| CallGet
| CallClose.

Definition call (k : connection_call) (c : Connection) : Connection :=
  match k with
  | CallInit => snd (initRedis c)
  | CallGet => snd (getRedis c)
  | CallClose => closeRedis c
  end.

(** ** The browser side *)

(** [s.trim()] on code units below 256. *)
Fixpoint trim_start (s : string) : string :=
  match s with
  | EmptyString => EmptyString
  | String c r => if Js.is_space c then trim_start r else s
  end.

Fixpoint trim_end (s : string) : string :=
  match s with
  | EmptyString => EmptyString
  | String c r =>
      match trim_end r with
      | EmptyString => if Js.is_space c then EmptyString else String c EmptyString
      | t => String c t
      end
  end.

Definition trim (s : string) : string := trim_end (trim_start s).

(** [formData] of pages/Signup.tsx. *)
Record SignupForm := {
  sf_firstName : string;
  sf_lastName : string;
  sf_email : string;
  sf_password : string;
  sf_confirmPassword : string
}.

(** [validateForm] of pages/Signup.tsx: the errors it sets, key by key, and
    whether there is none. *)
Definition Signup_validateForm (formData : SignupForm) : list (string * string) * bool :=
  let e1 :=
    if negb (Js.truthy (trim (sf_firstName formData)))
    then [("firstName", "First name is required")] else [] in
  let e2 :=
    if negb (Js.truthy (trim (sf_email formData)))
    then [("email", "Email is required")]
    else if negb (Regex.test email_pattern (sf_email formData))
    then [("email", "Enter a valid email address")] else [] in
  let e3 :=
    if negb (Js.truthy (sf_password formData))
    then [("password", "Password is required")]
    else if (Z.of_nat (String.length (sf_password formData)) <? 6)
    then [("password", "Password must be at least 6 characters")] else [] in
  let e4 :=
    if negb (Js.truthy (sf_confirmPassword formData))
    then [("confirmPassword", "Please confirm your password")]
    else if negb (String.eqb (sf_password formData) (sf_confirmPassword formData))
    then [("confirmPassword", "Passwords do not match")] else [] in
  let newErrors := (e1 ++ e2 ++ e3 ++ e4)%list in
  (newErrors, (length newErrors =? 0)%nat).

(** The body [handleSubmit] of pages/Signup.tsx posts to /auth/register. *)
Definition Signup_submission (formData : SignupForm) : Request :=
  {| authorization := None;
     body_email := Some (Js.toLowerCase (sf_email formData));
     body_password := Some (sf_password formData);
     body_firstName := Some (sf_firstName formData);
     body_lastName := Some (sf_lastName formData);
     req_user := None |}.

(** [validateForm] of the login page, on its [email] and [password]. *)
Definition Login_validateForm (em pw : string) : list (string * string) * bool :=
  let e1 :=
    if negb (Js.truthy (trim em))
    then [("email", "Email is required")]
    else if negb (Regex.test email_pattern em)
    then [("email", "Enter a valid email address")] else [] in
  let e2 :=
    if negb (Js.truthy (trim pw))
    then [("password", "Password is required")]
    else if (Z.of_nat (String.length pw) <? 6)
    then [("password", "Password must be at least 6 characters")] else [] in
  let newErrors := (e1 ++ e2)%list in
  (newErrors, (length newErrors =? 0)%nat).

(** The body [handleSubmit] of the login page posts to /auth/login. *)
Definition Login_submission (em pw : string) : Request :=
  credentials (Some (Js.toLowerCase em)) (Some pw).

(** utils/AuthService.ts of the browser side, over [localStorage]. *)
Module Client.

Definition getToken (localStorage : gmap string string) : option string :=
  localStorage !! "accessToken".

Definition setToken (token : string) (localStorage : gmap string string)
    : gmap string string :=
  <["accessToken" := token]> localStorage.

Definition isAuthenticated (localStorage : gmap string string) : bool :=
  Js.truthy_opt (getToken localStorage).

Definition logout (localStorage : gmap string string) : gmap string string :=
  delete "user" (delete "accessToken" localStorage).

(** [getAuthHeaders]: the value of the [Authorization] key, if the object
    has one. *)
Definition getAuthHeaders (localStorage : gmap string string) : option string :=
  match getToken localStorage with
  | Some token => if Js.truthy token then Some ("Bearer " +:+ token) else None
  | None => None
  end.

End Client.

(** ** More vocabulary *)

(** A request with the given [Authorization] header. *)
Definition with_authorization (h : option string) (req : Request) : Request :=
  {| authorization := h;
     body_email := body_email req;
     body_password := body_password req;
     body_firstName := body_firstName req;
     body_lastName := body_lastName req;
     req_user := req_user req |}.

(** The columns no operation of the service is meant to rewrite. *)
Definition core (u : User) : string * string * option string * bool * Z :=
  (id u, email u, password_hash u, is_active u, created_at u).

(** [{ is_active: false }] as the [updates] of [UserModel.update]. *)
Definition deactivation : UserUpdates :=
  {| upd_email := None;
     upd_password_hash := None;
     upd_first_name := None;
     upd_last_name := None;
     upd_google_id := None;
     upd_auth_method := None;
     upd_profile_picture_url := None;
     upd_is_active := Some false |}.

(** A string of e-mail form: [local@domain.tld]. *)
Definition email_shaped (s : string) : Prop :=
  exists a b c,
    s = a +:+ "@" +:+ b +:+ "." +:+ c /\ email_part a /\ email_part b /\ email_part c.

(** A call of the service, or time passing. *)
Inductive service_call :=
| Register (em pw fn ln : option string)
| Login (em pw : option string)
| GoogleAuth (p : GoogleProfile)
| Logout (tid : string)
| ValidateSession (tid uid : string)
| Wait (d : Z).

(** The state a call leaves, whether it succeeds or throws. *)
Definition perform (E : Externals) (w : World) (k : service_call) : World :=
  match k with
  | Register em pw fn ln => snd (AuthService_register E em pw fn ln w)
  | Login em pw => snd (AuthService_login E em pw w)
  | GoogleAuth p => snd (AuthService_googleAuth E p w)
  | Logout tid => snd (AuthService_logout tid w)
  | ValidateSession tid uid => snd (AuthService_validateSession E tid uid w)
  | Wait d => advance d w
  end.

Definition is_validate (k : service_call) : bool :=
  match k with
  | ValidateSession _ _ => true
  | _ => false
  end.

(** Every entry of the cache stores the id of a row of the table. *)
Definition sessions_owned (w : World) : Prop :=
  forall key v expiry,
    sessions w !! key = Some (v, expiry) -> exists u, In u (users w) /\ id u = v.

(** Every row has an id: the column is a UUID, never the empty string. *)
Definition rows_have_ids (w : World) : Prop :=
  forall u, In u (users w) -> id u <> "".

(** An error the service throws itself, or a refusal by a key constraint of
    the store. *)
Definition refusal (e : exn) : bool :=
  match e with
  | Error m =>
      one_of m [ "Email and password are required";
                 "Invalid email format";
                 "Password must be at least 6 characters";
                 "Email already registered";
                 "Invalid email or password";
                 "This account uses a different authentication method";
                 "Email not provided by Google" ]
  | UniqueViolation _ => true
  end.

(** No code unit of the string is the separator. *)
Definition free_of (sep : ascii) (s : string) : bool :=
  all_units (fun c => negb (Ascii.eqb c sep)) s.

(** * Properties *)

Lemma truthy_true (s : string) : Js.truthy s = true <-> s <> "".
Proof.
  unfold Js.truthy. destruct (String.eqb_spec s ""); simpl; split; congruence.
Qed.

Lemma truthy_false (s : string) : Js.truthy s = false <-> s = "".
Proof.
  unfold Js.truthy. destruct (String.eqb_spec s ""); simpl; split; congruence.
Qed.

(** ** The session-validity check of the service *)

(** C4. [AuthService.validateSession] answers [false] for every session
    identifier and every user identifier: it compares what [storeSession]
    resolves with, which is [undefined], against the user identifier. *)
Theorem validateSession_always_false (E : Externals) (tid uid : string) (w : World) :
  fst (AuthService_validateSession E tid uid w) = Ok false.
Proof. reflexivity. Qed.

(** C3, as amended. The check writes the entry of the session identifier with
    the user identifier it was given, creating the entry when it is absent,
    and the omitted TTL defaults to the configured session expiry: the entry
    expires a full session lifetime after the check, whatever it had left;
    nothing else changes. *)
Theorem validateSession_rewrites_entry (E : Externals) (tid uid : string) (w : World) :
  let w' := snd (AuthService_validateSession E tid uid w) in
  sessions w' = <[session_key tid := (uid, clock w + session_expiry (config E))]> (sessions w)
  /\ users w' = users w
  /\ clock w' = clock w
  /\ (0 < session_expiry (config E) ->
      Redis.ttl (session_key tid) w' = Some (session_expiry (config E))).
Proof.
  cbn. repeat split.
  intros Hpos. unfold Redis.ttl, session_key. cbn.
  rewrite lookup_insert_eq.
  destruct (Z.ltb_spec (clock w) (clock w + session_expiry (config E))); [|lia].
  f_equal. lia.
Qed.

Lemma validateSession_rewrites_entry_witness :
  Redis.ttl (session_key "t1")
    (snd (AuthService_validateSession sample_externals "t1" "user-0" sample_world))
  = Some 86400.
Proof.
  apply (validateSession_rewrites_entry sample_externals "t1" "user-0" sample_world).
  reflexivity.
Defined.

(** C3, counterexample. An entry with ten seconds left has a full day left
    after the check: the remaining time-to-live is not unchanged. *)
Lemma validateSession_resets_ttl :
  sessions sample_world !! session_key "t1" = Some ("user-0", 1010)
  /\ Redis.ttl (session_key "t1") sample_world = Some 10
  /\ Redis.ttl (session_key "t1")
       (snd (AuthService_validateSession sample_externals "t1" "user-0" sample_world))
     = Some 86400
  /\ ~ (forall (E : Externals) (tid uid : string) (w : World),
          Redis.ttl (session_key tid) (snd (AuthService_validateSession E tid uid w))
          = Redis.ttl (session_key tid) w).
Proof.
  split; [reflexivity|]. split; [reflexivity|]. split; [reflexivity|].
  intros H. specialize (H sample_externals "t1" "user-0" sample_world).
  vm_compute in H. discriminate H.
Qed.

(** ** Logout *)

(** C9. Logout deletes the cache entry of the session identifier whether or
    not it is there and reports success; a second logout reports success
    again and leaves the state of the first. The handler answers 200 both
    times once [req.user] carries the session identifier. *)
Theorem logout_idempotent (tid uid em : string) (req : Request) (w : World) :
  let w1 := with_sessions (delete (session_key tid) (sessions w)) w in
  let authenticated :=
    set_user {| userId := uid; tp_email := em; tokenId := tid |} req in
  AuthService_logout tid w = (Ok tt, w1)
  /\ sessions w1 !! session_key tid = None
  /\ AuthService_logout tid w1 = (Ok tt, w1)
  /\ AuthController_logout authenticated w
     = ({| status := 200; json := Done "Logout successful" |}, w1)
  /\ AuthController_logout authenticated w1
     = ({| status := 200; json := Done "Logout successful" |}, w1).
Proof.
  intros w1 authenticated.
  assert (Hagain : AuthService_logout tid w1 = (Ok tt, w1)).
  { unfold AuthService_logout, invalidateSession, Redis.del, w1, with_sessions.
    cbn. unfold session_key. now rewrite delete_delete_eq. }
  split; [reflexivity|].
  split; [apply lookup_delete_eq|].
  split; [exact Hagain|].
  split; [reflexivity|].
  unfold AuthController_logout, authenticated. cbn [req_user set_user tokenId].
  now rewrite Hagain.
Qed.

(** ** Bearer credentials and session entries *)

Section Bearer.

Variable E : Externals.

Lemma bearer_header (token : string) :
  Js.truthy ("Bearer " +:+ token) = true
  /\ Js.startsWith ("Bearer " +:+ token) "Bearer " = true
  /\ Js.slice 7 ("Bearer " +:+ token) = token.
Proof. split; [|split]; reflexivity. Qed.

(** With a bearer header whose token verifies, the middleware's answer is
    decided by the truthiness of what the cache returns. *)
Lemma authMiddleware_verified (req : Request) (w : World) (token : string)
    (payload : TokenPayload) :
  authorization req = Some ("Bearer " +:+ token) ->
  jwt_verify E token (jwt_secret (config E)) (clock w) = Some payload ->
  authMiddleware E req w =
    if Js.truthy_opt (match fst (validateSession (tokenId payload) w) with
                      | Ok v => v
                      | Throw _ => None
                      end)
    then inr (set_user payload req)
    else inl {| status := 401; json := Refusal "Session expired or invalid" |}.
Proof.
  intros Hh Hv. unfold authMiddleware. rewrite Hh.
  destruct (bearer_header token) as (-> & -> & ->). cbn [negb orb].
  unfold verifyToken. rewrite Hv.
  unfold validateSession, Redis.get.
  destruct (sessions w !! ("session:" +:+ tokenId payload)) as [[v ex]|]; [|reflexivity].
  destruct (clock w <? ex); [|reflexivity].
  cbn. now destruct (Js.truthy v).
Qed.

Lemma validateSession_truthy (w : World) (tid : string) :
  Js.truthy_opt (match fst (validateSession tid w) with Ok v => v | Throw _ => None end) = true
  <-> usable_session w tid.
Proof.
  unfold validateSession, Redis.get, usable_session, session_key.
  destruct (sessions w !! ("session:" +:+ tid)) as [[v ex]|]; cbn.
  - destruct (Z.ltb_spec (clock w) ex); cbn.
    + rewrite truthy_true. split.
      * intros Hv. exists v, ex. auto.
      * intros (v' & ex' & Heq & _ & Hne). congruence.
    + split; [discriminate|]. intros (v' & ex' & Heq & Hlt & _).
      injection Heq as <- <-. lia.
  - split; [discriminate|]. intros (v' & ex' & Heq & _). discriminate.
Qed.

End Bearer.

(** What the middleware tests is the truthiness of the value the cache
    returns: for a request whose bearer token verifies, it lets the request
    through exactly when the cache holds a live entry for the token's session
    identifier whose stored user identifier is not empty, and answers 401
    otherwise; so it does once the entry is deleted by logout or has
    expired. *)
Lemma authMiddleware_usable (E : Externals) (req : Request) (w : World)
    (token : string) (payload : TokenPayload) :
  authorization req = Some ("Bearer " +:+ token) ->
  jwt_verify E token (jwt_secret (config E)) (clock w) = Some payload ->
  let refused := {| status := 401; json := Refusal "Session expired or invalid" |} in
  (authMiddleware E req w = inr (set_user payload req)
   <-> usable_session w (tokenId payload))
  /\ (~ usable_session w (tokenId payload) -> authMiddleware E req w = inl refused)
  /\ authMiddleware E req (snd (AuthService_logout (tokenId payload) w)) = inl refused
  /\ (forall d,
        jwt_verify E token (jwt_secret (config E)) (clock w + d) = Some payload ->
        (forall v expiry,
            sessions w !! session_key (tokenId payload) = Some (v, expiry) ->
            expiry <= clock w + d) ->
        authMiddleware E req (advance d w) = inl refused)
  /\ fst (route_me E req (snd (route_logout E req w))) = refused.
Proof.
  intros Hh Hv refused.
  assert (Hmw : forall w1,
             jwt_verify E token (jwt_secret (config E)) (clock w1) = Some payload ->
             (usable_session w1 (tokenId payload)
              /\ authMiddleware E req w1 = inr (set_user payload req))
             \/ (~ usable_session w1 (tokenId payload)
                 /\ authMiddleware E req w1 = inl refused)).
  { intros w1 Hv1. rewrite (authMiddleware_verified E req w1 token payload Hh Hv1).
    destruct (Js.truthy_opt _) eqn:Ht.
    - left. split; [now apply validateSession_truthy | reflexivity].
    - right. split; [|reflexivity].
      intros Hu. apply validateSession_truthy in Hu. congruence. }
  assert (Hgone : forall w1,
             clock w1 = clock w ->
             sessions w1 !! session_key (tokenId payload) = None ->
             authMiddleware E req w1 = inl refused).
  { intros w1 Hc Hs.
    destruct (Hmw w1) as [[(v & ex & Heq & _) _]|[_ Hr]];
      [now rewrite Hc | congruence | exact Hr]. }
  split; [|split; [|split; [|split]]].
  - destruct (Hmw w Hv) as [[Hu Ha]|[Hn Hr]].
    + split; auto.
    + split; [congruence | intros Hu; contradiction].
  - intros Hn. destruct (Hmw w Hv) as [[Hu _]|[_ Hr]]; [contradiction | exact Hr].
  - apply Hgone; [reflexivity|]. cbn. apply lookup_delete_eq.
  - intros d Hvd Hex.
    destruct (Hmw (advance d w) Hvd) as [[(v & ex & Heq & Hlt & _) _]|[_ Hr]];
      [|exact Hr].
    cbn in Heq, Hlt. specialize (Hex v ex Heq). lia.
  - unfold route_logout, route_me, protected at 2.
    destruct (Hmw w Hv) as [[_ Ha]|[_ Hr]].
    + rewrite Ha. unfold AuthController_logout. cbn [req_user set_user].
      cbn [AuthService_logout invalidateSession Redis.del snd].
      unfold protected. rewrite Hgone; [reflexivity|reflexivity|].
      cbn. apply lookup_delete_eq.
    + rewrite Hr. cbn [snd]. unfold protected. now rewrite Hr.
Qed.

(** ** Login *)

Section Login.

Variable E : Externals.

Lemma find_all_false {A} (f : A -> bool) (l : list A) :
  (forall x, In x l -> f x = false) -> List.find f l = None.
Proof.
  induction l as [|a l IH]; intros H; [reflexivity|].
  cbn. rewrite (H a) by (now left). apply IH. intros x Hx. apply H. now right.
Qed.

(** The three ways a login with both fields present can fail, and the one
    way it can succeed, after the lookup by e-mail. *)
Lemma login_cases (em pw : string) (w : World) :
  em <> "" -> pw <> "" ->
  AuthService_login E (Some em) (Some pw) w =
    match fst (UserModel_findByEmail em w) with
    | Ok None => (Throw (Error "Invalid email or password"), w)
    | Ok (Some u) =>
        if negb (Js.truthy_opt (password_hash u))
        then (Throw (Error "This account uses a different authentication method"), w)
        else if negb (comparePassword E pw (default "" (password_hash u)))
        then (Throw (Error "Invalid email or password"), w)
        else issue E u w
    | Throw e => (Throw e, w)
    end.
Proof.
  intros Hem Hpw. unfold AuthService_login.
  apply truthy_true in Hem, Hpw. rewrite Hem, Hpw. cbn [negb orb].
  unfold bind, UserModel_findByEmail. cbn [fst].
  destruct (List.find _ (users w)) as [u|]; [|reflexivity].
  destruct (password_hash u) as [h|]; [|reflexivity].
  unfold default, from_option, Datatypes.id. cbn [Js.truthy_opt].
  destruct (Js.truthy h); [|reflexivity].
  cbn [negb]. now destruct (comparePassword E pw h).
Qed.

End Login.

(** C2, as amended. A login with an unknown e-mail and a login with a secret
    that does not match the stored hash fail with the same message,
    "Invalid email or password"; a login against an account without a
    password hash fails with a message of its own, "This account uses a
    different authentication method". The handler answers 401 with the
    message in all three cases and nothing is changed. *)
Theorem login_failure_messages (E : Externals) (em pw : string) (w : World) :
  em <> "" -> pw <> "" ->
  let fails m :=
    AuthService_login E (Some em) (Some pw) w = (Throw (Error m), w)
    /\ AuthController_login E (credentials (Some em) (Some pw)) w
       = ({| status := 401; json := Failure m |}, w) in
  (UserModel_findByEmail em w = (Ok None, w) ->
   fails "Invalid email or password")
  /\ (forall u,
        UserModel_findByEmail em w = (Ok (Some u), w) ->
        Js.truthy_opt (password_hash u) = false ->
        fails "This account uses a different authentication method")
  /\ (forall u h,
        UserModel_findByEmail em w = (Ok (Some u), w) ->
        password_hash u = Some h -> h <> "" ->
        comparePassword E pw h = false ->
        fails "Invalid email or password").
Proof.
  intros Hem Hpw fails.
  assert (Hctl : forall m,
             AuthService_login E (Some em) (Some pw) w = (Throw (Error m), w) ->
             Js.truthy m = true -> fails m).
  { intros m Hs Hm. split; [exact Hs|].
    unfold AuthController_login. cbn [credentials body_email body_password].
    rewrite Hs. unfold message_or. cbn [message]. now rewrite Hm. }
  pose proof (login_cases E em pw w Hem Hpw) as Hc.
  split; [|split].
  - intros Hf. rewrite Hf in Hc. now apply Hctl.
  - intros u Hf Hh. rewrite Hf in Hc. cbn [fst] in Hc. rewrite Hh in Hc.
    now apply Hctl.
  - intros u h Hf Hh Hne Hcmp. rewrite Hf in Hc. cbn [fst] in Hc.
    rewrite Hh in Hc. unfold default, from_option, Datatypes.id in Hc.
    cbn [Js.truthy_opt] in Hc. apply truthy_true in Hne. rewrite Hne, Hcmp in Hc. now apply Hctl.
Qed.

Lemma login_failure_messages_witness :
  AuthService_login sample_externals (Some "a@b.com") (Some "wrong-secret") sample_world
  = (Throw (Error "Invalid email or password"), sample_world).
Proof.
  refine (proj1 (proj2 (proj2 (login_failure_messages sample_externals
                                 "a@b.com" "wrong-secret" sample_world _ _))
                   alice "hash:secret123" _ _ _ _));
    solve [reflexivity | discriminate].
Defined.

(** C2, counterexample. Against the account that has no password hash the
    login fails with a message that differs from the one for an unknown
    e-mail and for a wrong secret. *)
Lemma login_messages_differ :
  fst (AuthService_login sample_externals (Some "g@x.com") (Some "secret123") sample_world)
  = Throw (Error "This account uses a different authentication method")
  /\ fst (AuthService_login sample_externals (Some "nobody@x.com") (Some "secret123") sample_world)
     = Throw (Error "Invalid email or password")
  /\ fst (AuthService_login sample_externals (Some "a@b.com") (Some "wrong-secret") sample_world)
     = Throw (Error "Invalid email or password")
  /\ ~ (forall (E : Externals) (em pw : string) (w : World) (u : User),
          em <> "" -> pw <> "" ->
          fst (UserModel_findByEmail em w) = Ok (Some u) ->
          password_hash u = None ->
          fst (AuthService_login E (Some em) (Some pw) w)
          = Throw (Error "Invalid email or password")).
Proof.
  split; [reflexivity|]. split; [reflexivity|]. split; [reflexivity|].
  intros H.
  specialize (H sample_externals "g@x.com" "secret123" sample_world gina).
  assert (Hrun : fst (AuthService_login sample_externals (Some "g@x.com")
                        (Some "secret123") sample_world)
                 = Throw (Error "Invalid email or password")).
  { apply H; [discriminate | discriminate | reflexivity | reflexivity]. }
  vm_compute in Hrun. discriminate Hrun.
Qed.

(** C6, as amended. Every POST /auth/login request is answered 200 with
    [{accessToken, user}] when the service succeeds and 401 whenever it
    throws; bad credentials and a request that lacks the e-mail or the
    password field alike are answered 401, the latter with "Email and
    password are required". *)
Theorem login_status (E : Externals) (req : Request) (w : World) :
  (forall r w',
      AuthService_login E (body_email req) (body_password req) w = (Ok r, w') ->
      AuthController_login E req w
      = ({| status := 200; json := AuthData "Login successful" r |}, w'))
  /\ (forall e w',
        AuthService_login E (body_email req) (body_password req) w = (Throw e, w') ->
        AuthController_login E req w
        = ({| status := 401; json := Failure (message_or e "Login failed") |}, w'))
  /\ (body_email req = None \/ body_password req = None ->
      AuthController_login E req w
      = ({| status := 401; json := Failure "Email and password are required" |}, w)).
Proof.
  unfold AuthController_login. split; [|split].
  - intros r w' ->. reflexivity.
  - intros e w' ->. reflexivity.
  - intros [H|H]; rewrite H; cbn; [reflexivity|].
    now destruct (body_email req).
Qed.

Lemma login_status_witness :
  AuthController_login sample_externals (credentials None (Some "secret123")) sample_world
  = ({| status := 401; json := Failure "Email and password are required" |}, sample_world).
Proof.
  apply (login_status sample_externals (credentials None (Some "secret123")) sample_world).
  left. reflexivity.
Defined.

(** C6, counterexample. A login request without the e-mail field is malformed
    input, and it is answered 401, not 400. *)
Lemma login_missing_field_is_401 :
  fst (AuthService_login sample_externals None (Some "secret123") sample_world)
  = Throw (Error "Email and password are required")
  /\ kind_of (Error "Email and password are required") = ValidationError
  /\ status (fst (AuthController_login sample_externals
                    (credentials None (Some "secret123")) sample_world)) = 401
  /\ ~ (forall (E : Externals) (req : Request) (w : World),
          body_email req = None \/ body_password req = None ->
          status (fst (AuthController_login E req w)) = 400).
Proof.
  split; [reflexivity|]. split; [reflexivity|]. split; [reflexivity|].
  intros H.
  specialize (H sample_externals (credentials None (Some "secret123")) sample_world
                (or_introl eq_refl)).
  vm_compute in H. discriminate H.
Qed.

(** ** Deactivated accounts *)

Section Lookups.

Lemma find_some_active (f : User -> bool) (us : list User) (u : User) :
  List.find (fun x => f x && is_active x) us = Some u ->
  In u us /\ f u = true /\ is_active u = true.
Proof.
  intros H. apply List.find_some in H as [Hin Hf].
  apply andb_true_iff in Hf. tauto.
Qed.

Lemma find_none_inactive (f : User -> bool) (us : list User) :
  (forall x, In x us -> f x = true -> is_active x = false) ->
  List.find (fun x => f x && is_active x) us = None.
Proof.
  intros H. apply find_all_false. intros x Hx.
  destruct (f x) eqn:Hf; [|reflexivity]. cbn. now apply H.
Qed.

Lemma is_some_eq_spec (o : option string) (s : string) :
  is_some_eq o s = true <-> o = Some s.
Proof.
  destruct o as [x|]; cbn; [|split; discriminate].
  destruct (String.eqb_spec x s); split; congruence.
Qed.

End Lookups.

(** C10. The three lookups return only rows whose active flag is set, and
    return null when every row that carries the key is deactivated. Hence a
    login for a deactivated account fails as a login for an unknown e-mail
    does, with the same answer, and the profile of a deactivated account is
    answered 404. *)
Theorem lookups_skip_deactivated (E : Externals) (w : World) :
  (forall e u,
      fst (UserModel_findByEmail e w) = Ok (Some u) ->
      In u (users w) /\ email u = Js.toLowerCase e /\ is_active u = true)
  /\ (forall i u,
        fst (UserModel_findById i w) = Ok (Some u) ->
        In u (users w) /\ id u = i /\ is_active u = true)
  /\ (forall g u,
        fst (UserModel_findByGoogleId g w) = Ok (Some u) ->
        In u (users w) /\ google_id u = Some g /\ is_active u = true)
  /\ (forall e,
        (forall u, In u (users w) -> email u = Js.toLowerCase e -> is_active u = false) ->
        UserModel_findByEmail e w = (Ok None, w)
        /\ (forall pw w0,
              email_taken w0 e = false ->
              fst (AuthService_login E (Some e) pw w) = fst (AuthService_login E (Some e) pw w0)
              /\ fst (AuthController_login E (credentials (Some e) pw) w)
                 = fst (AuthController_login E (credentials (Some e) pw) w0))
        /\ (forall pw,
              e <> "" -> pw <> "" ->
              AuthService_login E (Some e) (Some pw) w
              = (Throw (Error "Invalid email or password"), w)))
  /\ (forall i,
        (forall u, In u (users w) -> id u = i -> is_active u = false) ->
        UserModel_findById i w = (Ok None, w)
        /\ forall p req,
             userId p = i ->
             AuthController_me (set_user p req) w
             = ({| status := 404; json := Refusal "User not found" |}, w))
  /\ (forall g,
        (forall u, In u (users w) -> google_id u = Some g -> is_active u = false) ->
        UserModel_findByGoogleId g w = (Ok None, w)).
Proof.
  repeat apply conj.
  - intros e u H. injection H as H. apply find_some_active in H as (Hin & Hf & Ha).
    apply String.eqb_eq in Hf. auto.
  - intros i u H. injection H as H. apply find_some_active in H as (Hin & Hf & Ha).
    apply String.eqb_eq in Hf. auto.
  - intros g u H. injection H as H. apply find_some_active in H as (Hin & Hf & Ha).
    apply is_some_eq_spec in Hf. auto.
  - intros e Hall.
    assert (Hnone : UserModel_findByEmail e w = (Ok None, w)).
    { unfold UserModel_findByEmail. f_equal. f_equal.
      apply find_none_inactive. intros x Hx Hf. apply String.eqb_eq in Hf. auto. }
    assert (Hlogin : forall pw w0,
               email_taken w0 e = false ->
               fst (AuthService_login E (Some e) pw w)
               = fst (AuthService_login E (Some e) pw w0)).
    { intros pw w0 Hfree.
      assert (Hnone0 : UserModel_findByEmail e w0 = (Ok None, w0)).
      { unfold UserModel_findByEmail. f_equal. f_equal. apply find_all_false.
        intros x Hx. unfold email_taken in Hfree.
        rewrite <- not_true_iff_false, existsb_exists in Hfree.
        destruct (String.eqb (email x) (Js.toLowerCase e)) eqn:Hf; [|reflexivity].
        exfalso. apply Hfree. eauto. }
      unfold AuthService_login. destruct pw as [pw|]; [|reflexivity].
      destruct (negb (Js.truthy e) || negb (Js.truthy pw)); [reflexivity|].
      unfold bind. now rewrite Hnone, Hnone0. }
    split; [exact Hnone|]. split.
    + intros pw w0 Hfree. split; [now apply Hlogin|].
      unfold AuthController_login. cbn [credentials body_email body_password].
      specialize (Hlogin pw w0 Hfree).
      destruct (AuthService_login E (Some e) pw w) as [[r|x] w1],
               (AuthService_login E (Some e) pw w0) as [[r0|x0] w2];
        cbn [fst] in *; congruence.
    + intros pw He Hpw. rewrite (login_cases E e pw w He Hpw). now rewrite Hnone.
  - intros i Hall.
    assert (Hnone : UserModel_findById i w = (Ok None, w)).
    { unfold UserModel_findById. f_equal. f_equal.
      apply find_none_inactive. intros x Hx Hf. apply String.eqb_eq in Hf. auto. }
    split; [exact Hnone|]. intros p req <-.
    unfold AuthController_me, UserModel_getUserProfile, bind.
    cbn [req_user set_user]. now rewrite Hnone.
  - intros g Hall. unfold UserModel_findByGoogleId. f_equal. f_equal.
    apply find_none_inactive. intros x Hx Hf. apply is_some_eq_spec in Hf. auto.
Qed.

Lemma lookups_skip_deactivated_witness :
  AuthService_login sample_externals (Some "d@x.com") (Some "secret123") sample_world
  = (Throw (Error "Invalid email or password"), sample_world)
  /\ AuthController_me
       (set_user {| userId := "user-2"; tp_email := "d@x.com"; tokenId := "t2" |}
          sample_request) sample_world
     = ({| status := 404; json := Refusal "User not found" |}, sample_world).
Proof.
  pose proof (lookups_skip_deactivated sample_externals sample_world)
    as (_ & _ & _ & Hemail & Hid & _).
  split.
  - apply (Hemail "d@x.com"); [|discriminate|discriminate].
    intros u [<-|[<-|[<-|[]]]]; [discriminate|discriminate|reflexivity].
  - apply (Hid "user-2"); [|reflexivity].
    intros u [<-|[<-|[<-|[]]]]; [discriminate|discriminate|reflexivity].
Defined.

(** ** Issuing a session *)

Section Issue.

Variable E : Externals.

Lemma issue_eq (u : User) (w : World) :
  issue E u w =
    (Ok {| accessToken :=
             jwt_sign E {| userId := id u; tp_email := email u;
                           tokenId := uuidv4 E (uuid_seq w) |}
               (jwt_secret (config E)) (jwt_expiry (config E)) (clock w);
           user := user_view u |},
     with_sessions
       (<[session_key (uuidv4 E (uuid_seq w))
          := (id u, clock w + session_expiry (config E))]> (sessions w))
       (with_uuid_seq (S (uuid_seq w)) w)).
Proof. reflexivity. Qed.

(** [issue] cannot fail, and what it leaves behind depends only on the
    cache, the uuid source and the clock of the world it starts from. *)
Lemma issue_issued (u : User) (w0 w : World) :
  sessions w = sessions w0 -> uuid_seq w = uuid_seq w0 -> clock w = clock w0 ->
  exists r w',
    issue E u w = (Ok r, w')
    /\ issued E w0 w' u r
    /\ users w' = users w
    /\ users_seq w' = users_seq w.
Proof.
  intros Hs Hu Hc. rewrite issue_eq. eexists _, _. split; [reflexivity|].
  unfold issued. cbn. rewrite Hs, Hu, Hc. repeat split.
Qed.

Lemma filter_no_self (us : list User) :
  List.filter (fun u => negb (is_some_eq None (id u))) us = us.
Proof.
  induction us as [|u us IH]; [reflexivity|].
  cbn [List.filter is_some_eq negb]. now f_equal.
Qed.

(** The constraint check of an insert. *)
Lemma unique_violation_insert (us : list User) (i e : string) (g : option string) :
  unique_violation us None i e g =
    if existsb (fun u => String.eqb (id u) i) us
    then Some (UniqueViolation "users_pkey")
    else if existsb (fun u => String.eqb (email u) e) us
    then Some (UniqueViolation "users_email_key")
    else match g with
         | Some gid =>
             if existsb (fun u => is_some_eq (google_id u) gid) us
             then Some (UniqueViolation "users_google_id_key")
             else None
         | None => None
         end.
Proof. unfold unique_violation. now rewrite filter_no_self. Qed.

Lemma id_available_no_pkey (w : World) :
  id_available E w = true ->
  existsb (fun u => String.eqb (id u) (gen_random_uuid E (users_seq w))) (users w) = false.
Proof.
  unfold id_available. intros H. apply not_true_iff_false. intros Hex.
  apply existsb_exists in Hex as (u & Hin & Hu).
  rewrite forallb_forall in H. specialize (H u Hin). now rewrite Hu in H.
Qed.

(** A registration that passes validation. *)
Lemma register_cases (em pw : string) (fn ln : option string) (w : World) :
  malformed_email (Some em) || too_short (Some pw) = false ->
  AuthService_register E (Some em) (Some pw) fn ln w =
    match List.find (fun u => String.eqb (email u) (Js.toLowerCase em) && is_active u)
            (users w) with
    | Some _ => (Throw (Error "Email already registered"), w)
    | None =>
        match UserModel_create E
                {| nu_email := Js.toLowerCase em;
                   nu_password_hash := Some (hashPassword E pw);
                   nu_first_name := fn;
                   nu_last_name := ln;
                   nu_google_id := None;
                   nu_auth_method := "email";
                   nu_profile_picture_url := None |} w with
        | (Ok u, w1) => issue E u w1
        | (Throw e, w1) => (Throw e, w1)
        end
    end.
Proof.
  intros Hv. apply orb_false_iff in Hv as [Hm Hs]. cbn in Hm, Hs.
  apply negb_false_iff in Hm.
  assert (Hem : Js.truthy em = true) by (now destruct em).
  assert (Hpw : Js.truthy pw = true) by (now destruct pw).
  unfold AuthService_register. rewrite Hem, Hpw, Hm, Hs. cbn [negb orb].
  unfold bind at 1. unfold UserModel_findByEmail.
  destruct (List.find _ (users w)); reflexivity.
Qed.

(** A registration that fails validation. *)
Lemma register_invalid (em pw fn ln : option string) (w : World) :
  malformed_email em || too_short pw = true ->
  exists m,
    AuthService_register E em pw fn ln w = (Throw (Error m), w)
    /\ In m [ "Email and password are required";
              "Invalid email format";
              "Password must be at least 6 characters" ].
Proof.
  intros Hv. unfold AuthService_register.
  destruct em as [em|]; [|eexists; split; [reflexivity|cbn; tauto]].
  destruct pw as [pw|]; [|eexists; split; [reflexivity|cbn; tauto]].
  destruct (negb (Js.truthy em) || negb (Js.truthy pw));
    [eexists; split; [reflexivity|cbn; tauto]|].
  cbn in Hv. destruct (Regex.test email_pattern em);
    [|eexists; split; [reflexivity|cbn; tauto]].
  cbn in Hv. rewrite Hv. eexists; split; [reflexivity|cbn; tauto].
Qed.

End Issue.

(** ** Registration *)

Section Registration.

Variable E : Externals.

(** An insert goes through when no key it carries is in use. *)
Lemma create_ok (d : NewUser) (w : World) :
  id_available E w = true ->
  existsb (fun u => String.eqb (email u) (nu_email d)) (users w) = false ->
  (forall g, Js.or_null (nu_google_id d) = Some g -> google_id_taken w g = false) ->
  exists u,
    UserModel_create E d w = (Ok u, with_users (users w ++ [u]) (S (users_seq w)) w)
    /\ id u = gen_random_uuid E (users_seq w)
    /\ email u = nu_email d
    /\ password_hash u = Js.or_null (nu_password_hash d)
    /\ google_id u = Js.or_null (nu_google_id d)
    /\ auth_method u = nu_auth_method d
    /\ is_active u = true.
Proof.
  intros Hid He Hg. unfold UserModel_create.
  rewrite unique_violation_insert. cbn [id email google_id].
  rewrite (id_available_no_pkey E w Hid), He.
  destruct (Js.or_null (nu_google_id d)) as [g|] eqn:Hgid.
  - specialize (Hg g eq_refl). unfold google_id_taken in Hg. rewrite Hg.
    eexists. split; [reflexivity|].
    cbn [id email password_hash google_id auth_method is_active].
    repeat split.
  - eexists. split; [reflexivity|].
    cbn [id email password_hash google_id auth_method is_active].
    repeat split.
Qed.

(** An insert whose e-mail is in use is refused by the store. *)
Lemma create_email_conflict (d : NewUser) (w : World) :
  id_available E w = true ->
  existsb (fun u => String.eqb (email u) (nu_email d)) (users w) = true ->
  UserModel_create E d w = (Throw (UniqueViolation "users_email_key"), w).
Proof.
  intros Hid He. unfold UserModel_create.
  rewrite unique_violation_insert. cbn [id email google_id].
  now rewrite (id_available_no_pkey E w Hid), He.
Qed.

Lemma find_email_not_taken (w : World) (e : string) :
  email_taken w e = false ->
  List.find (fun u => String.eqb (email u) (Js.toLowerCase e) && is_active u) (users w) = None.
Proof.
  intros H. apply find_all_false. intros x Hx.
  destruct (String.eqb (email x) (Js.toLowerCase e)) eqn:Hf; [|reflexivity].
  exfalso. unfold email_taken in H. rewrite <- not_true_iff_false, existsb_exists in H.
  apply H. eauto.
Qed.

Lemma message_or_validation (m fallback : string) :
  In m [ "Email and password are required";
         "Invalid email format";
         "Password must be at least 6 characters" ] ->
  kind_of (Error m) = ValidationError /\ message_or (Error m) fallback = m.
Proof.
  intros [<-|[<-|[<-|[]]]]; split; reflexivity.
Qed.

End Registration.

(** C5. A registration whose e-mail is malformed or whose secret has fewer
    than six characters fails with a validation error; otherwise, when a row
    already carries the e-mail, it fails with a conflict error; otherwise a
    row with the newly hashed secret is stored and a credential is issued.
    The handler answers 201 with [{accessToken, user}] on success and 400 on
    either failure. The store's draw of the next row identifier is assumed
    not to collide. *)
Theorem register_outcomes (E : Externals) (req : Request) (w : World) :
  id_available E w = true ->
  let em := body_email req in
  let pw := body_password req in
  let run := AuthService_register E em pw (body_firstName req) (body_lastName req) w in
  let answer := AuthController_register E req w in
  (malformed_email em || too_short pw = true ->
   exists e,
     run = (Throw e, w) /\ kind_of e = ValidationError
     /\ answer = ({| status := 400; json := Failure (message e) |}, w))
  /\ (forall e0,
        malformed_email em || too_short pw = false ->
        em = Some e0 -> email_taken w e0 = true ->
        exists e,
          run = (Throw e, w) /\ kind_of e = ConflictError
          /\ answer = ({| status := 400; json := Failure (message e) |}, w))
  /\ (forall e0 p0,
        malformed_email em || too_short pw = false ->
        em = Some e0 -> pw = Some p0 -> email_taken w e0 = false ->
        exists u r w',
          run = (Ok r, w')
          /\ users w' = (users w ++ [u])%list
          /\ email u = Js.toLowerCase e0
          /\ password_hash u = Js.or_null (Some (hashPassword E p0))
          /\ is_active u = true
          /\ issued E w w' u r
          /\ answer = ({| status := 201; json := AuthData "Registration successful" r |}, w')).
Proof.
  intros Hid em pw run answer.
  assert (Hans : forall e,
             run = (Throw e, w) -> Js.truthy (message e) = true ->
             answer = ({| status := 400; json := Failure (message e) |}, w)).
  { intros e Hr Hm. unfold answer, AuthController_register. fold em pw run.
    rewrite Hr. unfold message_or. now rewrite Hm. }
  split; [|split].
  - intros Hbad. destruct (register_invalid E em pw (body_firstName req)
                             (body_lastName req) w Hbad) as (m & Hr & Hm).
    destruct (message_or_validation m "" Hm) as [Hk _].
    exists (Error m). split; [exact Hr|]. split; [exact Hk|].
    apply Hans; [exact Hr|]. cbn [message].
    destruct Hm as [<-|[<-|[<-|[]]]]; reflexivity.
  - intros e0 Hgood He0 Htaken.
    assert (Hpw : exists p0, pw = Some p0).
    { rewrite He0 in Hgood. destruct pw as [p0|]; [eauto|].
      cbn in Hgood. now rewrite orb_true_r in Hgood. }
    destruct Hpw as [p0 Hp0].
    assert (Hrun : run = AuthService_register E (Some e0) (Some p0)
                           (body_firstName req) (body_lastName req) w).
    { unfold run. now rewrite He0, Hp0. }
    rewrite He0, Hp0 in Hgood. rewrite (register_cases E _ _ _ _ w Hgood) in Hrun.
    destruct (List.find _ (users w)) as [u|].
    + exists (Error "Email already registered"). split; [exact Hrun|].
      split; [reflexivity|]. now apply Hans.
    + rewrite create_email_conflict in Hrun by assumption.
      exists (UniqueViolation "users_email_key"). split; [exact Hrun|].
      split; [reflexivity|]. now apply Hans.
  - intros e0 p0 Hgood He0 Hp0 Hfree.
    assert (Hrun : run = AuthService_register E (Some e0) (Some p0)
                           (body_firstName req) (body_lastName req) w).
    { unfold run. now rewrite He0, Hp0. }
    rewrite He0, Hp0 in Hgood. rewrite (register_cases E _ _ _ _ w Hgood) in Hrun.
    rewrite (find_email_not_taken w e0 Hfree) in Hrun.
    match type of Hrun with
    | context [UserModel_create E ?d w] =>
        destruct (create_ok E d w Hid) as (u & Hc & Hi & Hemail & Hhash & Hg & Hm & Hact);
          [exact Hfree | cbn; discriminate | rewrite Hc in Hrun]
    end.
    destruct (issue_issued E u w (with_users (users w ++ [u]) (S (users_seq w)) w))
      as (r & w' & Hiss & Hissued & Hus & _); [reflexivity..|].
    rewrite Hiss in Hrun.
    exists u, r, w'. split; [exact Hrun|]. split; [exact Hus|].
    split; [exact Hemail|]. split; [exact Hhash|]. split; [exact Hact|].
    split; [exact Hissued|].
    unfold answer, AuthController_register. fold em pw run. now rewrite Hrun.
Qed.

Lemma register_outcomes_witness :
  exists u r w',
    AuthService_register sample_externals (Some "new@x.com") (Some "secret123")
      (Some "A") None sample_world = (Ok r, w')
    /\ users w' = (users sample_world ++ [u])%list
    /\ email u = "new@x.com"
    /\ password_hash u = Some "hash:secret123"
    /\ is_active u = true
    /\ issued sample_externals sample_world w' u r
    /\ AuthController_register sample_externals
         {| authorization := None; body_email := Some "new@x.com";
            body_password := Some "secret123"; body_firstName := Some "A";
            body_lastName := None; req_user := None |} sample_world
       = ({| status := 201; json := AuthData "Registration successful" r |}, w').
Proof.
  refine (proj2 (proj2 (register_outcomes sample_externals
                          {| authorization := None; body_email := Some "new@x.com";
                             body_password := Some "secret123"; body_firstName := Some "A";
                             body_lastName := None; req_user := None |}
                          sample_world _)) "new@x.com" "secret123" _ _ _ _);
    reflexivity.
Defined.

(** ** External-identity login *)

Section Google.

Variable E : Externals.

(** The paths of [googleAuth] once the profile carries an e-mail address. *)
Lemma googleAuth_cases (p : GoogleProfile) (em : string) (w : World) :
  profile_email p = Some em ->
  AuthService_googleAuth E p w =
    match List.find (fun u => is_some_eq (google_id u) (profile_id p) && is_active u)
            (users w) with
    | Some u => issue E u w
    | None =>
        match List.find (fun u => String.eqb (email u) (Js.toLowerCase em) && is_active u)
                (users w) with
        | None =>
            match UserModel_create E (google_account p em) w with
            | (Ok u, w1) => issue E u w1
            | (Throw e, w1) => (Throw e, w1)
            end
        | Some u =>
            match UserModel_update (id u) (link_updates (profile_id p) p u) w with
            | (Ok (Some u'), w1) => issue E u' w1
            | (Ok None, w1) => (Throw (Error "Failed to authenticate with Google"), w1)
            | (Throw e, w1) => (Throw e, w1)
            end
        end
    end.
Proof.
  unfold profile_email. intros Hem. unfold AuthService_googleAuth. rewrite Hem.
  unfold bind at 1. unfold UserModel_findByGoogleId at 1.
  destruct (List.find _ (users w)) as [u|]; [reflexivity|].
  unfold bind at 1. unfold bind at 1. unfold UserModel_findByEmail at 1.
  destruct (List.find _ (users w)) as [u|].
  - fold (profile_picture p). fold (link_updates (profile_id p) p u).
    destruct (UserModel_update _ _ w) as [[[u'|]|e] w1]; reflexivity.
  - fold (profile_picture p). unfold bind at 1.
    change (UserModel_create E _ w) with (UserModel_create E (google_account p em) w).
    destruct (UserModel_create E _ w) as [[u|e] w1]; reflexivity.
Qed.

Lemma googleAuth_no_email (p : GoogleProfile) (w : World) :
  profile_email p = None ->
  AuthService_googleAuth E p w = (Throw (Error "Email not provided by Google"), w).
Proof.
  unfold profile_email. intros Hem. unfold AuthService_googleAuth. now rewrite Hem.
Qed.

End Google.

(** ** The store's writes *)

Section Writes.

Variable E : Externals.

Lemma distinct_inj {A} (f : A -> string) (l : list A) :
  distinct (List.map f l) = true ->
  forall a b, In a l -> In b l -> f a = f b -> a = b.
Proof.
  induction l as [|x l IH]; intros Hd a b Ha Hb Hab; [contradiction|].
  cbn in Hd. apply andb_true_iff in Hd as [Hx Hl].
  assert (Hfresh : forall y, In y l -> f x <> f y).
  { intros y Hy Heq. apply negb_true_iff in Hx.
    rewrite <- not_true_iff_false, existsb_exists in Hx. apply Hx.
    exists (f y). split; [now apply in_map | now apply String.eqb_eq]. }
  destruct Ha as [<-|Ha], Hb as [<-|Hb]; auto.
  - exfalso. now apply (Hfresh b).
  - exfalso. now apply (Hfresh a).
Qed.

Lemma find_first_by_id (us : list User) (u : User) :
  distinct (List.map id us) = true -> In u us ->
  List.find (fun x => String.eqb (id x) (id u)) us = Some u.
Proof.
  intros Hd Hin.
  destruct (List.find _ us) as [x|] eqn:Hf.
  - apply List.find_some in Hf as [Hx Hid]. apply String.eqb_eq in Hid.
    f_equal. now apply (distinct_inj id us Hd).
  - apply (List.find_none _ _ Hf) in Hin. now rewrite String.eqb_refl in Hin.
Qed.

Lemma find_app_none {A} (f : A -> bool) (l l' : list A) :
  List.find f l = None -> List.find f (l ++ l') = List.find f l'.
Proof.
  induction l as [|a l IH]; [reflexivity|]. cbn.
  destruct (f a); [discriminate|exact IH].
Qed.

Lemma find_exists {A} (f : A -> bool) (l : list A) (a : A) :
  In a l -> f a = true -> exists x, List.find f l = Some x.
Proof.
  intros Hin Hf. destruct (List.find f l) as [x|] eqn:Hx; [eauto|].
  apply (List.find_none _ _ Hx) in Hin. congruence.
Qed.

(** What a successful insert returns and leaves. *)
Lemma create_inv (d : NewUser) (w w1 : World) (u : User) :
  UserModel_create E d w = (Ok u, w1) ->
  w1 = with_users (users w ++ [u]) (S (users_seq w)) w
  /\ google_id u = Js.or_null (nu_google_id d)
  /\ email u = nu_email d
  /\ is_active u = true.
Proof.
  unfold UserModel_create.
  destruct (unique_violation _ _ _ _ _); [discriminate|].
  intros H. injection H as <- <-. repeat split.
Qed.

(** What a successful update with at least one key returns and leaves. *)
Lemma update_inv (i : string) (upd : UserUpdates) (w w1 : World) (u' : User) :
  no_keys upd = false ->
  UserModel_update i upd w = (Ok (Some u'), w1) ->
  exists old,
    List.find (fun u => String.eqb (id u) i) (users w) = Some old
    /\ u' = apply_updates (clock w) upd old
    /\ unique_violation (users w) (Some i) (id u') (email u') (google_id u') = None
    /\ w1 = with_users
              (List.map (fun u => if String.eqb (id u) i
                                  then apply_updates (clock w) upd u else u) (users w))
              (users_seq w) w.
Proof.
  intros Hk. unfold UserModel_update. rewrite Hk.
  destruct (List.find _ (users w)) as [old|]; [|discriminate].
  destruct (unique_violation _ _ _ _ _) eqn:Hu; [discriminate|].
  intros H. injection H as <- <-. exists old. repeat split. exact Hu.
Qed.

(** Linking a provider id that no row carries to a row of a well-keyed
    table goes through and touches that row only. *)
Lemma update_link_ok (g : string) (p : GoogleProfile) (u : User) (w : World) :
  unique_keys (users w) = true -> In u (users w) -> google_id_taken w g = false ->
  UserModel_update (id u) (link_updates g p u) w =
    (Ok (Some (apply_updates (clock w) (link_updates g p u) u)),
     with_users
       (List.map (fun x => if String.eqb (id x) (id u)
                           then apply_updates (clock w) (link_updates g p u) x else x)
          (users w))
       (users_seq w) w).
Proof.
  intros Hk Hin Hg. unfold unique_keys in Hk.
  apply andb_true_iff in Hk as [Hk _]. apply andb_true_iff in Hk as [Hids Hemails].
  unfold UserModel_update. cbn [no_keys link_updates upd_email upd_password_hash
    upd_first_name upd_last_name upd_google_id].
  rewrite (find_first_by_id (users w) u Hids Hin).
  assert (Hnone : unique_violation (users w) (Some (id u))
                    (id (apply_updates (clock w) (link_updates g p u) u))
                    (email (apply_updates (clock w) (link_updates g p u) u))
                    (google_id (apply_updates (clock w) (link_updates g p u) u)) = None).
  { unfold unique_violation.
    cbn [apply_updates id email google_id link_updates upd_email upd_google_id default
         from_option Datatypes.id is_some_eq].
    set (others := List.filter _ (users w)).
    assert (Hothers : forall x, In x others -> In x (users w) /\ id x <> id u).
    { intros x Hx. apply filter_In in Hx as [Hx Hne]. split; [exact Hx|].
      apply negb_true_iff in Hne. intros Heq. now rewrite Heq, String.eqb_refl in Hne. }
    assert (H1 : existsb (fun x => String.eqb (id x) (id u)) others = false).
    { apply not_true_iff_false. intros Hex. apply existsb_exists in Hex as (x & Hx & Heq).
      apply String.eqb_eq in Heq. now apply Hothers in Hx as [_ Hne]. }
    assert (H2 : existsb (fun x => String.eqb (email x) (email u)) others = false).
    { apply not_true_iff_false. intros Hex. apply existsb_exists in Hex as (x & Hx & Heq).
      apply String.eqb_eq in Heq. apply Hothers in Hx as [Hx Hne].
      apply Hne. f_equal. now apply (distinct_inj email (users w) Hemails). }
    assert (H3 : existsb (fun x => is_some_eq (google_id x) g) others = false).
    { apply not_true_iff_false. intros Hex. apply existsb_exists in Hex as (x & Hx & Heq).
      apply Hothers in Hx as [Hx _]. unfold google_id_taken in Hg.
      rewrite <- not_true_iff_false, existsb_exists in Hg. apply Hg. eauto. }
    now rewrite H1, H2, H3. }
  now rewrite Hnone.
Qed.

End Writes.

(** ** Every successful authentication issues a session *)

(** Case analysis on the lookup that hypothesis [H] is waiting for. *)
Ltac case_find H u Hf :=
  match type of H with
  | context [List.find ?f ?l] => destruct (List.find f l) as [u|] eqn:Hf
  end.

Section Success.

Variable E : Externals.

Lemma issue_inv (u : User) (w0 w : World) (r : AuthResponse) (w' : World) :
  sessions w = sessions w0 -> uuid_seq w = uuid_seq w0 -> clock w = clock w0 ->
  issue E u w = (Ok r, w') ->
  issued E w0 w' u r /\ users w' = users w.
Proof.
  intros Hs Hu Hc Hi.
  destruct (issue_issued E u w0 w Hs Hu Hc) as (r1 & w1 & Heq & Hiss & Hus & _).
  rewrite Heq in Hi. injection Hi as <- <-. auto.
Qed.

Lemma register_success (em pw fn ln : option string) (w : World)
    (r : AuthResponse) (w' : World) :
  AuthService_register E em pw fn ln w = (Ok r, w') ->
  exists u, In u (users w') /\ issued E w w' u r.
Proof.
  intros Hrun.
  destruct (malformed_email em || too_short pw) eqn:Hv.
  { destruct (register_invalid E em pw fn ln w Hv) as (m & Hm & _). congruence. }
  destruct em as [em|]; [|discriminate].
  destruct pw as [pw|]; [|cbn in Hv; now rewrite orb_true_r in Hv].
  rewrite (register_cases E em pw fn ln w Hv) in Hrun.
  destruct (List.find _ (users w)); [discriminate|].
  destruct (UserModel_create E _ w) as [[u|e] w1] eqn:Hc; [|discriminate].
  apply create_inv in Hc as (-> & _).
  apply (issue_inv u w) in Hrun as [Hiss Hus]; [|reflexivity..].
  exists u. split; [|exact Hiss]. rewrite Hus. cbn. apply in_or_app. right. now left.
Qed.

Lemma login_success (em pw : option string) (w : World) (r : AuthResponse) (w' : World) :
  AuthService_login E em pw w = (Ok r, w') ->
  exists u, In u (users w') /\ issued E w w' u r.
Proof.
  intros Hrun.
  destruct em as [em|]; [|discriminate].
  destruct pw as [pw|]; [|discriminate].
  destruct (Js.truthy em) eqn:Hem; [|unfold AuthService_login in Hrun; now rewrite Hem in Hrun].
  destruct (Js.truthy pw) eqn:Hpw; [|unfold AuthService_login in Hrun;
                                      now rewrite Hem, Hpw in Hrun].
  apply truthy_true in Hem, Hpw. rewrite (login_cases E em pw w Hem Hpw) in Hrun.
  unfold UserModel_findByEmail in Hrun. cbn [fst] in Hrun.
  destruct (List.find _ (users w)) as [u|] eqn:Hf; [|discriminate].
  destruct (negb (Js.truthy_opt (password_hash u))); [discriminate|].
  destruct (negb (comparePassword E pw _)); [discriminate|].
  apply (issue_inv u w) in Hrun as [Hiss Hus]; [|reflexivity..].
  exists u. split; [|exact Hiss]. rewrite Hus. now apply List.find_some in Hf.
Qed.

Lemma googleAuth_success (p : GoogleProfile) (w : World) (r : AuthResponse) (w' : World) :
  AuthService_googleAuth E p w = (Ok r, w') ->
  exists u, In u (users w') /\ issued E w w' u r.
Proof.
  intros Hrun.
  destruct (profile_email p) as [em|] eqn:Hem;
    [|now rewrite (googleAuth_no_email E p w Hem) in Hrun].
  rewrite (googleAuth_cases E p em w Hem) in Hrun.
  case_find Hrun u Hg.
  { apply (issue_inv u w) in Hrun as [Hiss Hus]; [|reflexivity..].
    exists u. split; [|exact Hiss]. rewrite Hus. now apply List.find_some in Hg. }
  case_find Hrun u Hf.
  - destruct (UserModel_update _ _ w) as [[[u'|]|e] w1] eqn:Hu; [|discriminate..].
    apply update_inv in Hu as (old & Hold & -> & _ & ->); [|reflexivity].
    apply (issue_inv _ w) in Hrun as [Hiss Hus]; [|reflexivity..].
    eexists. split; [|exact Hiss]. rewrite Hus. cbn [users with_users].
    apply List.find_some in Hold as [Hin Hid]. apply in_map_iff.
    exists old. split; [|exact Hin]. now rewrite Hid.
  - destruct (UserModel_create E _ w) as [[u|e] w1] eqn:Hc; [|discriminate].
    apply create_inv in Hc as (-> & _).
    apply (issue_inv u w) in Hrun as [Hiss Hus]; [|reflexivity..].
    exists u. split; [|exact Hiss]. rewrite Hus. cbn. apply in_or_app. right. now left.
Qed.

End Success.

(** C8. Whenever register, login or the external-identity login succeeds,
    the session identifier is the next draw of the uuid source, the returned
    credential is the signature over the user's id and e-mail together with
    that identifier, the cache holds under that identifier the user's id
    with the configured session expiry as its time-to-live, and the returned
    user view has no password hash. With a uuid source that never repeats,
    the identifier differs from all identifiers drawn before. *)
Theorem authentication_issues_session (E : Externals) (w : World) :
  (Inj (=) (=) (uuidv4 E) ->
   forall k, (k < uuid_seq w)%nat -> uuidv4 E k <> uuidv4 E (uuid_seq w))
  /\ (forall em pw fn ln r w',
        AuthService_register E em pw fn ln w = (Ok r, w') ->
        exists u, In u (users w') /\ issued E w w' u r)
  /\ (forall em pw r w',
        AuthService_login E em pw w = (Ok r, w') ->
        exists u, In u (users w') /\ issued E w w' u r)
  /\ (forall p r w',
        AuthService_googleAuth E p w = (Ok r, w') ->
        exists u, In u (users w') /\ issued E w w' u r).
Proof.
  split; [|split; [|split]].
  - intros Hinj k Hk Heq. apply Hinj in Heq. lia.
  - intros em pw fn ln r w'. apply register_success.
  - intros em pw r w'. apply login_success.
  - intros p r w'. apply googleAuth_success.
Qed.

Lemma authentication_issues_session_witness :
  uuidv4 sample_externals 1 <> uuidv4 sample_externals (uuid_seq sample_world)
  /\ exists u,
       In u (users (snd (AuthService_login sample_externals (Some "a@b.com")
                           (Some "secret123") sample_world)))
       /\ issued sample_externals sample_world
            (snd (AuthService_login sample_externals (Some "a@b.com")
                    (Some "secret123") sample_world)) u
            {| accessToken := "jwt.2"; user := user_view alice |}.
Proof.
  split.
  - apply (proj1 (authentication_issues_session sample_externals sample_world)
             pretty_nat_inj 1%nat).
    cbn. lia.
  - refine (proj1 (proj2 (proj2 (authentication_issues_session sample_externals
                                   sample_world)))
              (Some "a@b.com") (Some "secret123") _ _ _).
    reflexivity.
Defined.

(** ** Resolution of an external identity *)

Section Resolution.

Variable E : Externals.

(** After a successful external-identity login the provider id finds an
    active row, and it is the row of the user that was returned. *)
Lemma googleAuth_then_found (p : GoogleProfile) (w : World) (r : AuthResponse) (w1 : World) :
  AuthService_googleAuth E p w = (Ok r, w1) ->
  profile_id p <> "" ->
  exists u,
    List.find (fun x => is_some_eq (google_id x) (profile_id p) && is_active x) (users w1)
    = Some u
    /\ Js.get (user r) "id" = Js.VString (id u).
Proof.
  intros Hrun Hg.
  destruct (profile_email p) as [em|] eqn:Hem;
    [|now rewrite (googleAuth_no_email E p w Hem) in Hrun].
  rewrite (googleAuth_cases E p em w Hem) in Hrun.
  case_find Hrun u Hfg.
  { apply (issue_inv E u w) in Hrun as [Hiss Hus]; [|reflexivity..].
    exists u. rewrite Hus. split; [exact Hfg|].
    destruct Hiss as (_ & _ & _ & _ & -> & _). reflexivity. }
  case_find Hrun u Hfe.
  - destruct (UserModel_update _ _ w) as [[[u'|]|e] w2] eqn:Hu; [|discriminate..].
    apply update_inv in Hu as (old & Hold & -> & _ & ->); [|reflexivity].
    apply (issue_inv E _ w) in Hrun as [Hiss Hus]; [|reflexivity..].
    rewrite Hus. cbn [users with_users].
    apply List.find_some in Hfe as [Hin Hact]. apply andb_true_iff in Hact as [_ Hact].
    set (F := fun x : User => if String.eqb (id x) (id u)
                              then apply_updates (clock w)
                                     (link_updates (profile_id p) p u) x
                              else x).
    destruct (find_exists
                (fun x => is_some_eq (google_id x) (profile_id p) && is_active x)
                (List.map F (users w)) (F u)) as [x Hx].
    { now apply in_map. }
    { unfold F. rewrite String.eqb_refl. cbn. now rewrite String.eqb_refl, Hact. }
    exists x. split; [exact Hx|].
    destruct Hiss as (_ & _ & _ & _ & -> & _).
    apply List.find_some in Hx as [Hxin Hxp]. apply in_map_iff in Hxin as (y & <- & Hy).
    apply List.find_some in Hold as [_ Hold]. apply String.eqb_eq in Hold.
    unfold F in *. destruct (String.eqb_spec (id y) (id u)) as [Heq|Hne].
    + cbn. now rewrite Hold, Heq.
    + pose proof (List.find_none _ _ Hfg y Hy) as Hno. cbn in Hno. congruence.
  - destruct (UserModel_create E _ w) as [[u|e] w2] eqn:Hc; [|discriminate].
    apply create_inv in Hc as (-> & Hgid & _ & Hact).
    apply (issue_inv E u w) in Hrun as [Hiss Hus]; [|reflexivity..].
    exists u. rewrite Hus. cbn [users with_users].
    rewrite (find_app_none _ _ _ Hfg). cbn [List.find].
    cbn [google_account nu_google_id] in Hgid. unfold Js.or_null in Hgid. cbn in Hgid.
    apply truthy_true in Hg. rewrite Hg in Hgid. rewrite Hgid, Hact. cbn.
    rewrite String.eqb_refl. split; [reflexivity|].
    destruct Hiss as (_ & _ & _ & _ & -> & _). reflexivity.
Qed.

Lemma find_google_not_taken (w : World) (g : string) :
  google_id_taken w g = false ->
  List.find (fun u => is_some_eq (google_id u) g && is_active u) (users w) = None.
Proof.
  intros H. apply find_all_false. intros x Hx.
  destruct (is_some_eq (google_id x) g) eqn:Hf; [|reflexivity].
  exfalso. unfold google_id_taken in H. rewrite <- not_true_iff_false, existsb_exists in H.
  apply H. eauto.
Qed.

End Resolution.

(** C7. An external-identity login without an e-mail address fails with
    "Email not provided by Google". With one, the lookup by provider id comes
    first and its row is used unchanged; when no row carries the provider id
    the lookup falls back to the e-mail address and the provider id is linked
    to that row, no row being added; when no row carries the provider id or
    the e-mail address a new row is inserted. After any successful login with
    a provider id, a later login with that provider id is resolved by the
    provider id alone, to the same user and without touching the table. *)
Theorem googleAuth_resolution (E : Externals) (p : GoogleProfile) (w : World) :
  let g := profile_id p in
  let run := AuthService_googleAuth E p w in
  (profile_email p = None ->
   run = (Throw (Error "Email not provided by Google"), w)
   /\ kind_of (Error "Email not provided by Google") = AuthError)
  /\ (forall em u,
        profile_email p = Some em ->
        fst (UserModel_findByGoogleId g w) = Ok (Some u) ->
        exists r w',
          run = (Ok r, w') /\ users w' = users w /\ issued E w w' u r)
  /\ (forall em u,
        profile_email p = Some em ->
        unique_keys (users w) = true ->
        google_id_taken w g = false ->
        fst (UserModel_findByEmail em w) = Ok (Some u) ->
        let u' := apply_updates (clock w) (link_updates g p u) u in
        exists r w',
          run = (Ok r, w')
          /\ users w' = List.map (fun x => if String.eqb (id x) (id u) then u' else x) (users w)
          /\ length (users w') = length (users w)
          /\ id u' = id u /\ email u' = email u /\ password_hash u' = password_hash u
          /\ google_id u' = Some g
          /\ issued E w w' u' r)
  /\ (forall em,
        profile_email p = Some em ->
        id_available E w = true ->
        google_id_taken w g = false ->
        email_taken w em = false ->
        exists u r w',
          run = (Ok r, w')
          /\ users w' = (users w ++ [u])%list
          /\ email u = Js.toLowerCase em
          /\ google_id u = Js.or_null (Some g)
          /\ password_hash u = None
          /\ issued E w w' u r)
  /\ (forall r w1 p2 em2 w2,
        run = (Ok r, w1) ->
        g <> "" ->
        users w2 = users w1 ->
        profile_id p2 = g ->
        profile_email p2 = Some em2 ->
        exists u r2 w3,
          fst (UserModel_findByGoogleId g w2) = Ok (Some u)
          /\ Js.get (user r) "id" = Js.VString (id u)
          /\ AuthService_googleAuth E p2 w2 = (Ok r2, w3)
          /\ users w3 = users w2
          /\ issued E w2 w3 u r2).
Proof.
  intros g run. split; [|split; [|split; [|split]]].
  - intros Hem. split; [now apply googleAuth_no_email | reflexivity].
  - intros em u Hem Hfg. unfold run. rewrite (googleAuth_cases E p em w Hem).
    unfold UserModel_findByGoogleId in Hfg. cbn [fst] in Hfg. injection Hfg as Hfg.
    fold g. rewrite Hfg.
    destruct (issue_issued E u w w) as (r & w' & Hi & Hiss & Hus & _); [reflexivity..|].
    exists r, w'. auto.
  - intros em u Hem Hk Hfree Hfe u'. unfold run. rewrite (googleAuth_cases E p em w Hem).
    fold g. rewrite (find_google_not_taken w g Hfree).
    unfold UserModel_findByEmail in Hfe. cbn [fst] in Hfe. injection Hfe as Hfe.
    rewrite Hfe. apply List.find_some in Hfe as [Hin _].
    rewrite (update_link_ok g p u w Hk Hin Hfree). fold u'.
    destruct (issue_issued E u' w
                (with_users
                   (List.map (fun x => if String.eqb (id x) (id u)
                                       then apply_updates (clock w) (link_updates g p u) x
                                       else x) (users w))
                   (users_seq w) w))
      as (r & w' & Hi & Hiss & Hus & _); [reflexivity..|].
    exists r, w'. split; [exact Hi|].
    assert (Hmap : users w'
                   = List.map (fun x => if String.eqb (id x) (id u) then u' else x) (users w)).
    { rewrite Hus. cbn [users with_users]. apply map_ext_in. intros x Hx.
      destruct (String.eqb_spec (id x) (id u)) as [Heq|]; [|reflexivity].
      unfold unique_keys in Hk. apply andb_true_iff in Hk as [Hk _].
      apply andb_true_iff in Hk as [Hids _].
      now rewrite (distinct_inj id (users w) Hids x u Hx Hin Heq). }
    split; [exact Hmap|]. split; [rewrite Hmap; apply length_map|].
    repeat (split; [reflexivity|]). exact Hiss.
  - intros em Hem Hid Hfree Hmail. unfold run. rewrite (googleAuth_cases E p em w Hem).
    fold g. rewrite (find_google_not_taken w g Hfree), (find_email_not_taken w em Hmail).
    destruct (create_ok E (google_account p em) w Hid)
      as (u & Hc & _ & Hemail & Hhash & Hgid & _ & _).
    { exact Hmail. }
    { cbn [google_account nu_google_id]. intros g0 Hg0. unfold Js.or_null in Hg0.
      destruct (Js.truthy_opt (Some (profile_id p))); [|discriminate].
      now injection Hg0 as <-. }
    rewrite Hc.
    destruct (issue_issued E u w (with_users (users w ++ [u]) (S (users_seq w)) w))
      as (r & w' & Hi & Hiss & Hus & _); [reflexivity..|].
    exists u, r, w'. repeat (split; [assumption|]). exact Hiss.
  - intros r w1 p2 em2 w2 Hrun Hg Hus Hp2 Hem2.
    destruct (googleAuth_then_found E p w r w1 Hrun Hg) as (u & Hf & Hid).
    fold g in Hf. rewrite <- Hus in Hf.
    destruct (issue_issued E u w2 w2) as (r2 & w3 & Hi & Hiss & Hus3 & _); [reflexivity..|].
    exists u, r2, w3. split; [unfold UserModel_findByGoogleId; cbn [fst]; now rewrite Hf|].
    split; [exact Hid|]. split; [|auto].
    rewrite (googleAuth_cases E p2 em2 w2 Hem2), Hp2, Hf. exact Hi.
Qed.

Lemma googleAuth_resolution_witness :
  let p := {| profile_id := "g-9"; displayName := Some "A B";
              emails := Some ["a@b.com"]; photos := None |} in
  exists r w',
    AuthService_googleAuth sample_externals p sample_world = (Ok r, w')
    /\ length (users w') = length (users sample_world)
    /\ Js.get (user r) "id" = Js.VString "user-0".
Proof.
  intros p.
  destruct (proj1 (proj2 (proj2 (googleAuth_resolution sample_externals p sample_world)))
              "a@b.com" alice eq_refl eq_refl eq_refl eq_refl)
    as (r & w' & Hrun & _ & Hlen & _ & _ & _ & _ & Hiss).
  exists r, w'. split; [exact Hrun|]. split; [exact Hlen|].
  destruct Hiss as (_ & _ & _ & _ & -> & _). reflexivity.
Defined.

(** ** The e-mail pattern *)

Section Pattern.

Lemma app_is_empty (s1 s2 : string) : s1 +:+ s2 = "" -> s1 = "" /\ s2 = "".
Proof. destruct s1; [auto | discriminate]. Qed.

Lemma app_is_cons (s1 s2 : string) (c : ascii) (s : string) :
  s1 +:+ s2 = String c s ->
  (s1 = "" /\ s2 = String c s) \/ (exists t, s1 = String c t /\ s = t +:+ s2).
Proof.
  destruct s1 as [|a t]; cbn; intros H; [now left|].
  injection H as -> <-. right. eauto.
Qed.

Lemma nullable_matches (r : Regex.t) : Regex.nullable r = true <-> matches r "".
Proof.
  split.
  - induction r as [| |p|r1 IH1 r2 IH2|r IH]; cbn; intros H; try discriminate.
    + constructor.
    + apply andb_true_iff in H as [H1 H2].
      change "" with ("" +:+ ""). constructor; auto.
    + constructor.
  - intros H. remember "" as s eqn:Hs.
    induction H as [|p c Hp|r1 r2 s1 s2 _ IH1 _ IH2| |r s1 s2 _ _ _ _];
      try reflexivity; [discriminate|].
    apply app_is_empty in Hs as [-> ->]. cbn. now rewrite IH1, IH2.
Qed.

Lemma deriv_complete (r : Regex.t) (s0 : string) :
  matches r s0 ->
  forall c s, s0 = String c s -> exists d, In d (Regex.deriv c r) /\ matches d s.
Proof.
  induction 1 as [|p a Hp|r1 r2 s1 s2 H1 IH1 H2 IH2| |r s1 s2 H1 IH1 H2 IH2];
    intros c s Hs; try discriminate.
  - injection Hs as -> <-. exists Regex.Eps. cbn. rewrite Hp.
    split; [now left | constructor].
  - apply app_is_cons in Hs as [[-> ->]|(t & -> & ->)].
    + destruct (IH2 c s eq_refl) as (d & Hd & Hm). exists d. cbn.
      apply nullable_matches in H1. rewrite H1. split; [|exact Hm].
      apply in_or_app. now right.
    + destruct (IH1 c t eq_refl) as (d & Hd & Hm). exists (Regex.Seq d r2). cbn.
      split; [|now constructor].
      apply in_or_app. left. now apply (in_map (fun d => Regex.Seq d r2)).
  - apply app_is_cons in Hs as [[-> ->]|(t & -> & ->)].
    + now apply IH2.
    + destruct (IH1 c t eq_refl) as (d & Hd & Hm). exists (Regex.Seq d (Regex.Star r)).
      cbn. split; [|now constructor].
      now apply (in_map (fun d => Regex.Seq d (Regex.Star r))).
Qed.

Lemma deriv_sound (r : Regex.t) (c : ascii) :
  forall d s, In d (Regex.deriv c r) -> matches d s -> matches r (String c s).
Proof.
  induction r as [| |p|r1 IH1 r2 IH2|r IH]; cbn; intros d s Hd Hm; try contradiction.
  - destruct (p c) eqn:Hp; [|contradiction]. destruct Hd as [<-|[]].
    inversion Hm; subst. now constructor.
  - apply in_app_or in Hd as [Hd|Hd].
    + apply in_map_iff in Hd as (d1 & <- & Hd1). inversion Hm; subst.
      change (String c (s1 +:+ s2)) with (String c s1 +:+ s2).
      constructor; [|assumption]. now apply (IH1 d1).
    + destruct (Regex.nullable r1) eqn:Hn; [|contradiction].
      change (String c s) with ("" +:+ String c s).
      constructor; [now apply nullable_matches | now apply (IH2 d)].
  - apply in_map_iff in Hd as (d1 & <- & Hd1). inversion Hm; subst.
    change (String c (s1 +:+ s2)) with (String c s1 +:+ s2).
    constructor; [|assumption]. now apply (IH d1).
Qed.

Lemma run_matches (s : string) :
  forall rs, Regex.run rs s = true <-> exists r, In r rs /\ matches r s.
Proof.
  induction s as [|c s IH]; intros rs; cbn.
  - rewrite existsb_exists. split; intros (r & Hr & H); exists r;
      (split; [exact Hr | now apply nullable_matches]).
  - rewrite IH. split.
    + intros (d & Hd & Hm). apply in_concat in Hd as (ds & Hds & Hd).
      apply in_map_iff in Hds as (r & <- & Hr). exists r. split; [exact Hr|].
      now apply (deriv_sound r c d).
    + intros (r & Hr & Hm). destruct (deriv_complete r _ Hm c s eq_refl) as (d & Hd & Hd').
      exists d. split; [|exact Hd']. apply in_concat. exists (Regex.deriv c r).
      split; [now apply in_map | exact Hd].
Qed.

(** The matcher decides the language of the expression. *)
Lemma test_matches (r : Regex.t) (s : string) : Regex.test r s = true <-> matches r s.
Proof.
  unfold Regex.test. rewrite run_matches. split.
  - intros (r' & [<-|[]] & H). exact H.
  - intros H. exists r. split; [now left | exact H].
Qed.

Lemma star_class_matches (p : ascii -> bool) (s : string) :
  matches (Regex.Star (Regex.Class p)) s <-> all_units p s = true.
Proof.
  split.
  - intros H. remember (Regex.Star (Regex.Class p)) as r eqn:Hr.
    induction H as [| | | |r s1 s2 H1 _ H2 IH2]; try discriminate; [reflexivity|].
    injection Hr as ->. inversion H1; subst. cbn.
    apply andb_true_iff. split; [assumption | now apply IH2].
  - induction s as [|c s IH]; cbn; intros H; [constructor|].
    apply andb_true_iff in H as [Hc Hs].
    change (String c s) with (String c "" +:+ s).
    constructor; [now constructor | now apply IH].
Qed.

Lemma plus_class_matches (p : ascii -> bool) (s : string) :
  matches (Regex.Plus (Regex.Class p)) s <-> s <> "" /\ all_units p s = true.
Proof.
  unfold Regex.Plus. split.
  - intros H. inversion H as [| |r1 r2 s1 s2 H1 H2| |]; subst.
    inversion H1; subst. apply star_class_matches in H2. cbn.
    split; [discriminate|]. apply andb_true_iff. auto.
  - intros [Hne H]. destruct s as [|c s]; [contradiction|]. cbn in H.
    apply andb_true_iff in H as [Hc Hs].
    change (String c s) with (String c "" +:+ s).
    constructor; [now constructor | now apply star_class_matches].
Qed.

(** An e-mail address passes the pattern of [register] exactly when it reads
    [local@domain.tld] with three parts that are not empty and hold neither
    white space nor [@]. *)
Lemma email_pattern_spec (s : string) :
  Regex.test email_pattern s = true <->
  exists a b c,
    s = a +:+ "@" +:+ b +:+ "." +:+ c /\ email_part a /\ email_part b /\ email_part c.
Proof.
  rewrite test_matches. unfold email_pattern, email_part. split.
  - intros H.
    inversion H as [| |? ? a s1 Ha H1| |]; subst.
    inversion H1 as [| |? ? at_ s2 Hat H2| |]; subst.
    inversion H2 as [| |? ? b s3 Hb H3| |]; subst.
    inversion H3 as [| |? ? dot c Hdot Hc| |]; subst.
    inversion Hat as [|? x Hx| | |]; subst. apply Ascii.eqb_eq in Hx as <-.
    inversion Hdot as [|? y Hy| | |]; subst. apply Ascii.eqb_eq in Hy as <-.
    apply plus_class_matches in Ha, Hb, Hc. exists a, b, c. auto.
  - intros (a & b & c & -> & Ha & Hb & Hc).
    apply plus_class_matches in Ha, Hb, Hc.
    constructor; [exact Ha|].
    change ("@" +:+ b +:+ "." +:+ c) with (String "@" "" +:+ (b +:+ "." +:+ c)).
    constructor; [now constructor|].
    constructor; [exact Hb|].
    change ("." +:+ c) with (String "." "" +:+ c).
    constructor; [now constructor | exact Hc].
Qed.

End Pattern.

(** ** The key constraints are an invariant *)

Section Keys.

Variable E : Externals.

Lemma existsb_eqb_elem (x : string) (l : list string) :
  existsb (String.eqb x) l = true <-> x ∈ l.
Proof.
  rewrite existsb_exists. split.
  - intros (y & Hy & Heq). apply String.eqb_eq in Heq as <-. now apply list_elem_of_In.
  - intros Hx. exists x. split; [now apply list_elem_of_In | apply String.eqb_refl].
Qed.

Lemma distinct_NoDup (l : list string) : distinct l = true <-> NoDup l.
Proof.
  induction l as [|x l IH]; cbn.
  - split; [intros _; constructor | reflexivity].
  - rewrite andb_true_iff, negb_true_iff, NoDup_cons, IH.
    rewrite <- not_true_iff_false, existsb_eqb_elem. tauto.
Qed.

Lemma NoDup_omap_column {K} (f : User -> option K) (us : list User) :
  NoDup (omap f us) <-> column_unique f us.
Proof.
  unfold column_unique. induction us as [|a us IH]; cbn.
  - split; [intros _ i j u v k Hi; discriminate | intros _; constructor].
  - destruct (f a) as [ka|] eqn:Ha.
    + rewrite NoDup_cons, IH, list_elem_of_omap. split.
      * intros [Hfresh Hrest] [|i] [|j] u v k Hi Hj Hu Hv; cbn in Hi, Hj.
        -- reflexivity.
        -- exfalso. apply Hfresh. injection Hi as <-. exists v.
           split; [now apply list_elem_of_lookup_2 in Hj | congruence].
        -- exfalso. apply Hfresh. injection Hj as <-. exists u.
           split; [now apply list_elem_of_lookup_2 in Hi | congruence].
        -- f_equal. now apply (Hrest i j u v k).
      * intros H. split.
        -- intros (y & Hy & Hk). apply list_elem_of_lookup_1 in Hy as [j Hj].
           discriminate (H 0%nat (S j) a y ka eq_refl Hj Ha Hk).
        -- intros i j u v k Hi Hj Hu Hv.
           now injection (H (S i) (S j) u v k Hi Hj Hu Hv).
    + rewrite IH. split.
      * intros Hrest [|i] [|j] u v k Hi Hj Hu Hv; cbn in Hi, Hj.
        -- reflexivity.
        -- injection Hi as <-. congruence.
        -- injection Hj as <-. congruence.
        -- f_equal. now apply (Hrest i j u v k).
      * intros H i j u v k Hi Hj Hu Hv.
        now injection (H (S i) (S j) u v k Hi Hj Hu Hv).
Qed.

Lemma omap_Some {A B} (f : A -> B) (l : list A) : omap (fun x => Some (f x)) l = List.map f l.
Proof. induction l as [|a l IH]; [reflexivity|]. cbn. now rewrite IH. Qed.

(** [unique_keys], column by column. *)
Lemma unique_keys_columns (us : list User) :
  unique_keys us = true <->
  column_unique (fun u => Some (id u)) us
  /\ column_unique (fun u => Some (email u)) us
  /\ column_unique google_id us.
Proof.
  unfold unique_keys. rewrite !andb_true_iff, !distinct_NoDup.
  rewrite <- !NoDup_omap_column, !omap_Some. tauto.
Qed.

Lemma existsb_false_In {A} (f : A -> bool) (l : list A) :
  existsb f l = false <-> forall x, In x l -> f x = false.
Proof.
  rewrite <- not_true_iff_false, existsb_exists. split.
  - intros H x Hx. destruct (f x) eqn:Hf; [|reflexivity]. exfalso. eauto.
  - intros H (x & Hx & Hf). rewrite (H x Hx) in Hf. discriminate.
Qed.

(** A row whose key is carried by no row can be appended. *)
Lemma column_unique_app {K} (f : User -> option K) (us : list User) (row : User) :
  column_unique f us ->
  (forall x k, In x us -> f x = Some k -> f row <> Some k) ->
  column_unique f (us ++ [row]).
Proof.
  intros Hu Hfresh i j u v k Hi Hj Hfu Hfv.
  apply lookup_app_Some in Hi as [Hi|[Hli Hi]], Hj as [Hj|[Hlj Hj]].
  - now apply (Hu i j u v k).
  - exfalso. apply list_lookup_singleton_Some in Hj as [_ <-].
    apply list_elem_of_lookup_2, list_elem_of_In in Hi. now apply (Hfresh u k).
  - exfalso. apply list_lookup_singleton_Some in Hi as [_ <-].
    apply list_elem_of_lookup_2, list_elem_of_In in Hj. now apply (Hfresh v k).
  - apply list_lookup_singleton_Some in Hi as [Hi _], Hj as [Hj _]. lia.
Qed.

Lemma map_lookup_Some {A B} (f : A -> B) (l : list A) (i : nat) (y : B) :
  List.map f l !! i = Some y <-> exists x, y = f x /\ l !! i = Some x.
Proof. exact (list_lookup_fmap_Some f l i y). Qed.

(** Rewriting the rows of one id keeps a column unique when the new key is
    carried by no row of another id. *)
Lemma column_unique_map {K} (f : User -> option K) (us : list User)
    (i : string) (A : User -> User) (old : User) :
  column_unique (fun u => Some (id u)) us ->
  column_unique f us ->
  (forall x, id (A x) = id x) ->
  In old us -> id old = i ->
  (forall x k, In x us -> id x <> i -> f (A old) = Some k -> f x <> Some k) ->
  column_unique f (List.map (fun x => if String.eqb (id x) i then A x else x) us).
Proof.
  intros Hpk Hu HA Hold Hid Hfresh p q u' v' k Hp Hq Hfu Hfv.
  apply map_lookup_Some in Hp as (u & -> & Hp), Hq as (v & -> & Hq).
  assert (Hsame : forall n x, us !! n = Some x -> id x = i -> x = old).
  { intros n x Hn Hx. apply list_elem_of_In, list_elem_of_lookup_1 in Hold as [m Hm].
    assert (n = m) by (apply (Hpk n m x old i Hn Hm); congruence). congruence. }
  destruct (String.eqb_spec (id u) i) as [Hui|Hui], (String.eqb_spec (id v) i) as [Hvi|Hvi].
  - apply (Hpk p q u v i Hp Hq); congruence.
  - exfalso. rewrite (Hsame p u Hp Hui) in Hfu.
    apply (Hfresh v k); auto. now apply list_elem_of_In, (list_elem_of_lookup_2 _ q).
  - exfalso. rewrite (Hsame q v Hq Hvi) in Hfv.
    apply (Hfresh u k); auto. now apply list_elem_of_In, (list_elem_of_lookup_2 _ p).
  - now apply (Hu p q u v k).
Qed.

(** INSERT keeps the key constraints. *)
Lemma create_keeps_keys (d : NewUser) (w : World) :
  unique_keys (users w) = true ->
  unique_keys (users (snd (UserModel_create E d w))) = true.
Proof.
  intros Hk. unfold UserModel_create. rewrite unique_violation_insert.
  cbn [id email google_id].
  destruct (existsb (fun u => String.eqb (id u) (gen_random_uuid E (users_seq w)))
              (users w)) eqn:Hid; [exact Hk|].
  destruct (existsb (fun u => String.eqb (email u) (nu_email d)) (users w)) eqn:Hemail;
    [exact Hk|].
  rewrite existsb_false_In in Hid, Hemail.
  assert (Hgoal : forall g,
             Js.or_null (nu_google_id d) = g ->
             (forall x k, In x (users w) -> google_id x = Some k -> g <> Some k) ->
             forall row, id row = gen_random_uuid E (users_seq w) ->
                         email row = nu_email d -> google_id row = g ->
                         unique_keys (users w ++ [row]) = true).
  { intros g _ Hfresh row Hrid Hremail Hrg.
    apply unique_keys_columns in Hk as (Hk1 & Hk2 & Hk3).
    apply unique_keys_columns. repeat split.
    - apply column_unique_app; [exact Hk1|]. intros x k Hx Hxk Hrow.
      specialize (Hid x Hx). apply String.eqb_neq in Hid. congruence.
    - apply column_unique_app; [exact Hk2|]. intros x k Hx Hxk Hrow.
      specialize (Hemail x Hx). apply String.eqb_neq in Hemail. congruence.
    - apply column_unique_app; [exact Hk3|]. intros x k Hx Hxk. rewrite Hrg.
      exact (Hfresh x k Hx Hxk). }
  destruct (Js.or_null (nu_google_id d)) as [g|] eqn:Hg.
  - destruct (existsb (fun u => is_some_eq (google_id u) g) (users w)) eqn:Hgid;
      [exact Hk|].
    rewrite existsb_false_In in Hgid. cbn [snd users with_users].
    apply (Hgoal (Some g) eq_refl); try reflexivity.
    intros x k Hx Hxk Heq. injection Heq as <-. specialize (Hgid x Hx).
    rewrite Hxk in Hgid. cbn in Hgid. now rewrite String.eqb_refl in Hgid.
  - cbn [snd users with_users]. apply (Hgoal None eq_refl); try reflexivity.
    discriminate.
Qed.

(** UPDATE keeps the key constraints. *)
Lemma update_keeps_keys (i : string) (upd : UserUpdates) (w : World) :
  unique_keys (users w) = true ->
  unique_keys (users (snd (UserModel_update i upd w))) = true.
Proof.
  intros Hk. unfold UserModel_update.
  destruct (no_keys upd); [exact Hk|].
  destruct (List.find _ (users w)) as [old|] eqn:Hold; [|exact Hk].
  destruct (unique_violation _ _ _ _ _) eqn:Hv; [exact Hk|].
  cbn [snd users with_users].
  apply List.find_some in Hold as [Hin Hid]. apply String.eqb_eq in Hid.
  unfold unique_violation in Hv.
  set (others := List.filter _ (users w)) in Hv.
  assert (Hothers : forall x, In x (users w) -> id x <> i -> In x others).
  { intros x Hx Hne. apply filter_In. split; [exact Hx|]. cbn.
    apply negb_true_iff, String.eqb_neq. congruence. }
  match type of Hv with
  | (if existsb ?f others then _ else _) = None =>
      destruct (existsb f others) eqn:H1; [discriminate|]
  end.
  match type of Hv with
  | (if existsb ?f others then _ else _) = None =>
      destruct (existsb f others) eqn:H2; [discriminate|]
  end.
  rewrite existsb_false_In in H1, H2.
  apply unique_keys_columns in Hk as (Hk1 & Hk2 & Hk3).
  apply unique_keys_columns. repeat split.
  - apply (column_unique_map _ _ _ _ old); auto.
    intros x k Hx Hne Hnew Hxk. cbn in Hnew. congruence.
  - apply (column_unique_map _ _ _ _ old); auto.
    intros x k Hx Hne Hnew Hxk. specialize (H2 x (Hothers x Hx Hne)).
    apply String.eqb_neq in H2. congruence.
  - apply (column_unique_map _ _ _ _ old); auto.
    intros x k Hx Hne Hnew Hxk. rewrite Hnew in Hv.
    match type of Hv with
    | (if existsb ?f others then _ else _) = None =>
        destruct (existsb f others) eqn:H3; [discriminate|]
    end.
    rewrite existsb_false_In in H3. specialize (H3 x (Hothers x Hx Hne)).
    rewrite Hxk in H3. cbn in H3. now rewrite String.eqb_refl in H3.
Qed.

Lemma empty_table_keys : unique_keys [] = true.
Proof. reflexivity. Qed.

Lemma issue_users (u : User) (w : World) : users (snd (issue E u w)) = users w.
Proof. reflexivity. Qed.

(** The key constraints of the schema hold after every operation of the
    service, whether it succeeds or throws. *)
Lemma service_keeps_keys (w : World) :
  unique_keys (users w) = true ->
  (forall em pw fn ln,
      unique_keys (users (snd (AuthService_register E em pw fn ln w))) = true)
  /\ (forall em pw, unique_keys (users (snd (AuthService_login E em pw w))) = true)
  /\ (forall p, unique_keys (users (snd (AuthService_googleAuth E p w))) = true)
  /\ (forall tid, unique_keys (users (snd (AuthService_logout tid w))) = true)
  /\ (forall tid uid,
        unique_keys (users (snd (AuthService_validateSession E tid uid w))) = true).
Proof.
  intros Hk. repeat apply conj.
  - intros em pw fn ln.
    destruct (malformed_email em || too_short pw) eqn:Hv.
    { destruct (register_invalid E em pw fn ln w Hv) as (m & -> & _). exact Hk. }
    destruct em as [em|]; [|discriminate].
    destruct pw as [pw|]; [|cbn in Hv; now rewrite orb_true_r in Hv].
    rewrite (register_cases E em pw fn ln w Hv).
    destruct (List.find _ (users w)); [exact Hk|].
    pose proof (create_keeps_keys
                  {| nu_email := Js.toLowerCase em;
                     nu_password_hash := Some (hashPassword E pw);
                     nu_first_name := fn; nu_last_name := ln; nu_google_id := None;
                     nu_auth_method := "email"; nu_profile_picture_url := None |} w Hk) as Hc.
    destruct (UserModel_create E _ w) as [[u|e] w1]; [|exact Hc].
    now rewrite issue_users.
  - intros em pw. destruct em as [em|]; [|exact Hk]. destruct pw as [pw|]; [|exact Hk].
    destruct (Js.truthy em) eqn:Hem;
      [|unfold AuthService_login; rewrite Hem; exact Hk].
    destruct (Js.truthy pw) eqn:Hpw;
      [|unfold AuthService_login; rewrite Hem, Hpw; exact Hk].
    apply truthy_true in Hem, Hpw. rewrite (login_cases E em pw w Hem Hpw).
    unfold UserModel_findByEmail. cbn [fst].
    destruct (List.find _ (users w)) as [u|]; [|exact Hk].
    destruct (negb (Js.truthy_opt (password_hash u))); [exact Hk|].
    destruct (negb (comparePassword E pw _)); [exact Hk|].
    now rewrite issue_users.
  - intros p. destruct (profile_email p) as [em|] eqn:Hem;
      [|now rewrite (googleAuth_no_email E p w Hem)].
    rewrite (googleAuth_cases E p em w Hem).
    destruct (List.find _ (users w)) as [u|]; [now rewrite issue_users|].
    destruct (List.find _ (users w)) as [u|].
    + pose proof (update_keeps_keys (id u) (link_updates (profile_id p) p u) w Hk) as Hu.
      destruct (UserModel_update _ _ w) as [[[u'|]|e] w1]; exact Hu.
    + pose proof (create_keeps_keys (google_account p em) w Hk) as Hc.
      destruct (UserModel_create E _ w) as [[u|e] w1]; [|exact Hc].
      now rewrite issue_users.
  - intros tid. exact Hk.
  - intros tid uid. exact Hk.
Qed.

End Keys.

(** ** A session from registration to logout *)

(** Register [a@b.com] on an empty system, fetch the profile with the
    credential, log out, fetch the profile again: 201, 200, 200, 401. *)
Example session_lifecycle :
  let register_request :=
    {| authorization := None; body_email := Some "a@b.com";
       body_password := Some "secret123"; body_firstName := Some "A";
       body_lastName := None; req_user := None |} in
  let bearer_request :=
    {| authorization := Some "Bearer jwt.0"; body_email := None;
       body_password := None; body_firstName := None;
       body_lastName := None; req_user := None |} in
  let '(r1, w1) := AuthController_register sample_externals register_request empty_world in
  let '(r2, w2) := route_me sample_externals bearer_request w1 in
  let '(r3, w3) := route_logout sample_externals bearer_request w2 in
  let '(r4, w4) := route_me sample_externals bearer_request w3 in
  List.map status [r1; r2; r3; r4] = [201; 200; 200; 401]
  /\ (exists data, json r1 = AuthData "Registration successful" data
                   /\ accessToken data = "jwt.0"
                   /\ Js.get (user data) "email" = Js.VString "a@b.com")
  /\ (exists profile, json r2 = ProfileData profile
                      /\ Js.get profile "id" = Js.VString "user-0"
                      /\ Js.has_key profile "password_hash" = false)
  /\ sessions w4 = ∅.
Proof.
  vm_compute. split; [reflexivity|]. split; [|split].
  - eexists. repeat split.
  - eexists. repeat split.
  - reflexivity.
Qed.

(** * Further properties *)

(** ** Helpers on objects, keys and registrations *)

Lemma has_key_omit (k : string) (o : Js.object) : Js.has_key (Js.omit k o) k = false.
Proof.
  unfold Js.has_key, Js.omit. induction o as [|[k0 v] o IH]; [reflexivity|].
  cbn [List.filter fst]. destruct (String.eqb k0 k) eqn:Hk; cbn [negb]; [exact IH|].
  cbn [existsb fst]. now rewrite Hk.
Qed.

Lemma get_omit_ne (k k' : string) (o : Js.object) :
  k' <> k -> Js.get (Js.omit k o) k' = Js.get o k'.
Proof.
  intros Hne. unfold Js.get, Js.omit. induction o as [|[k0 v] o IH]; [reflexivity|].
  cbn [List.filter fst]. destruct (String.eqb_spec k0 k) as [->|Hk0]; cbn [negb].
  - cbn [List.find fst]. destruct (String.eqb_spec k k'); [congruence|exact IH].
  - cbn [List.find fst]. destruct (String.eqb k0 k'); [reflexivity|exact IH].
Qed.

Lemma session_key_inj (a b : string) : session_key a = session_key b -> a = b.
Proof. unfold session_key. cbn. intros H. now injection H. Qed.

(** What the constraint check reports is a unique violation. *)
Lemma unique_violation_kind (us : list User) (self : option string) (i e : string)
    (g : option string) (x : exn) :
  unique_violation us self i e g = Some x -> exists c, x = UniqueViolation c.
Proof.
  unfold unique_violation.
  destruct (existsb _ _); [intros [= <-]; eauto|].
  destruct (existsb _ _); [intros [= <-]; eauto|].
  destruct g as [gid|]; [|discriminate].
  destruct (existsb _ _); [intros [= <-]; eauto|discriminate].
Qed.

(** What an insert throws is a unique violation, and nothing is written. *)
Lemma create_throws (E : Externals) (d : NewUser) (w w1 : World) (e : exn) :
  UserModel_create E d w = (Throw e, w1) ->
  w1 = w /\ exists c, e = UniqueViolation c.
Proof.
  unfold UserModel_create.
  destruct (unique_violation _ _ _ _ _) as [x|] eqn:Hu; [|discriminate].
  intros [= <- <-]. split; [reflexivity|]. now apply unique_violation_kind in Hu.
Qed.

(** A registration that passes validation succeeds, or fails on the e-mail
    being registered, or on a key constraint of the store; a failure leaves
    the state as it was. *)
Lemma register_valid_result (E : Externals) (em pw : string) (fn ln : option string)
    (w : World) :
  malformed_email (Some em) || too_short (Some pw) = false ->
  (exists r w', AuthService_register E (Some em) (Some pw) fn ln w = (Ok r, w'))
  \/ AuthService_register E (Some em) (Some pw) fn ln w
     = (Throw (Error "Email already registered"), w)
  \/ (exists c, AuthService_register E (Some em) (Some pw) fn ln w
                = (Throw (UniqueViolation c), w)).
Proof.
  intros Hv. rewrite (register_cases E em pw fn ln w Hv).
  destruct (List.find _ (users w)); [right; left; reflexivity|].
  destruct (UserModel_create E _ w) as [[u|e] w1] eqn:Hc.
  - left. rewrite issue_eq. eauto.
  - right. right. apply create_throws in Hc as (-> & c & ->). eauto.
Qed.

(** ** The e-mail format of a registration *)

(** X1. With both fields present, a registration is refused with "Invalid
    email format" exactly when the e-mail address is not of the form
    [local@domain.tld] with three parts that are not empty and hold neither
    white space nor [@]. *)
Theorem register_email_format (E : Externals) (em pw : string) (fn ln : option string)
    (w : World) :
  em <> "" -> pw <> "" ->
  (fst (AuthService_register E (Some em) (Some pw) fn ln w)
   = Throw (Error "Invalid email format")
   <-> ~ email_shaped em).
Proof.
  intros Hem Hpw. unfold email_shaped. rewrite <- email_pattern_spec.
  apply truthy_true in Hem, Hpw.
  destruct (Regex.test email_pattern em) eqn:Ht.
  - split; [|intros H; now contradiction H]. intros Hrun. exfalso.
    destruct (Z.of_nat (String.length pw) <? 6) eqn:Hs.
    + unfold AuthService_register in Hrun. rewrite Hem, Hpw, Ht, Hs in Hrun.
      discriminate Hrun.
    + assert (Hv : malformed_email (Some em) || too_short (Some pw) = false).
      { cbn. now rewrite Ht, Hs. }
      destruct (register_valid_result E em pw fn ln w Hv)
        as [(r & w' & Hr)|[Hr|(c & Hr)]]; rewrite Hr in Hrun; discriminate Hrun.
  - split; [intros _; discriminate|]. intros _.
    unfold AuthService_register. now rewrite Hem, Hpw, Ht.
Qed.

Lemma register_email_format_witness :
  fst (AuthService_register sample_externals (Some "a@b") (Some "secret123")
         None None sample_world)
  = Throw (Error "Invalid email format")
  <-> ~ email_shaped "a@b".
Proof.
  apply (register_email_format sample_externals "a@b" "secret123" None None sample_world);
    discriminate.
Defined.

(** ** Session entries over time and side by side *)

(** X2. A session entry written for a user with a positive time-to-live (the
    configured expiry when none is given) is read back as that user for as
    long as the time-to-live has not elapsed, and as no session from then
    on. *)
Theorem stored_session_lifetime (E : Externals) (uid tid : string) (ttl : option Z)
    (w : World) (d : Z) :
  0 < default (session_expiry (config E)) ttl ->
  0 <= d ->
  fst (validateSession tid (advance d (snd (storeSession E uid tid ttl w))))
  = Ok (if d <? default (session_expiry (config E)) ttl then Some uid else None).
Proof.
  intros _ _.
  unfold validateSession, storeSession, Redis.get, Redis.setEx, bind, ret.
  cbn [snd advance sessions clock with_sessions]. rewrite lookup_insert_eq.
  set (t := default (session_expiry (config E)) ttl).
  destruct (Z.ltb_spec (clock w + d) (clock w + t)), (Z.ltb_spec d t);
    try reflexivity; lia.
Qed.

Lemma stored_session_lifetime_witness :
  fst (validateSession "t1"
         (advance 60 (snd (storeSession sample_externals "user-0" "t1" (Some 60)
                             sample_world))))
  = Ok None.
Proof.
  apply (stored_session_lifetime sample_externals "user-0" "t1" (Some 60) sample_world 60);
    [reflexivity | discriminate].
Defined.

(** X3. Writing or deleting the entry of one session identifier changes what
    is read for no other identifier: a request whose verified token carries
    another identifier gets the same answer from the middleware after a
    logout of the first as before. *)
Theorem sessions_are_independent (E : Externals) (tid tid' uid : string)
    (ttl : option Z) (w : World) :
  tid <> tid' ->
  fst (validateSession tid' (snd (storeSession E uid tid ttl w)))
  = fst (validateSession tid' w)
  /\ fst (validateSession tid' (snd (invalidateSession tid w)))
     = fst (validateSession tid' w)
  /\ (forall req token payload,
        authorization req = Some ("Bearer " +:+ token) ->
        jwt_verify E token (jwt_secret (config E)) (clock w) = Some payload ->
        tokenId payload = tid' ->
        authMiddleware E req (snd (AuthService_logout tid w)) = authMiddleware E req w).
Proof.
  intros Hne.
  assert (Hk : session_key tid <> session_key tid')
    by (intros H; now apply session_key_inj in H).
  assert (Hdel : fst (validateSession tid' (snd (invalidateSession tid w)))
                 = fst (validateSession tid' w)).
  { unfold validateSession, invalidateSession, Redis.get, Redis.del.
    cbn [snd sessions clock with_sessions].
    change ("session:" +:+ tid) with (session_key tid).
    change ("session:" +:+ tid') with (session_key tid').
    rewrite lookup_delete_ne by exact Hk.
    destruct (sessions w !! session_key tid') as [[v ex]|];
      [destruct (clock w <? ex)|]; reflexivity. }
  split; [|split; [exact Hdel|]].
  - unfold validateSession, storeSession, Redis.get, Redis.setEx, bind, ret.
    cbn [snd sessions clock with_sessions].
    change ("session:" +:+ tid) with (session_key tid).
    change ("session:" +:+ tid') with (session_key tid').
    rewrite lookup_insert_ne by exact Hk.
    destruct (sessions w !! session_key tid') as [[v ex]|];
      [destruct (clock w <? ex)|]; reflexivity.
  - intros req token payload Hh Hv <-.
    rewrite (authMiddleware_verified E req w token payload Hh Hv).
    rewrite (authMiddleware_verified E req _ token payload Hh) by exact Hv.
    unfold AuthService_logout. now rewrite Hdel.
Qed.

Lemma sessions_are_independent_witness :
  fst (validateSession "t1" (snd (invalidateSession "t9" sample_world)))
  = fst (validateSession "t1" sample_world).
Proof.
  apply (sessions_are_independent sample_externals "t9" "t1" "user-0" None sample_world).
  discriminate.
Defined.

(** ** The optional middleware *)

(** X4. [optionalAuth] never looks at the session cache: its result is the
    same whatever the cache holds, so a token that verifies still identifies
    the user after its session was logged out. Whenever [authMiddleware] lets
    a request through, [optionalAuth] hands on the same request; and it only
    ever hands on the request as it came or with [req.user] set. *)
Theorem optionalAuth_ignores_sessions (E : Externals) (req : Request) (w : World) :
  (forall s, optionalAuth E req (with_sessions s w) = optionalAuth E req w)
  /\ (forall req', authMiddleware E req w = inr req' -> optionalAuth E req w = req')
  /\ (forall token payload,
        authorization req = Some ("Bearer " +:+ token) ->
        jwt_verify E token (jwt_secret (config E)) (clock w) = Some payload ->
        optionalAuth E req (snd (AuthService_logout (tokenId payload) w))
        = set_user payload req
        /\ authMiddleware E req (snd (AuthService_logout (tokenId payload) w))
           = inl {| status := 401; json := Refusal "Session expired or invalid" |})
  /\ (optionalAuth E req w = req
      \/ exists payload, optionalAuth E req w = set_user payload req).
Proof.
  split; [|split; [|split]].
  - intros s. reflexivity.
  - intros req'. unfold authMiddleware, optionalAuth.
    destruct (authorization req) as [h|]; [|discriminate].
    destruct (Js.truthy h); cbn [negb orb]; [|discriminate].
    destruct (Js.startsWith h "Bearer "); cbn [negb]; [|discriminate].
    unfold verifyToken.
    destruct (jwt_verify E _ _ _) as [payload|]; [|discriminate].
    destruct (validateSession _ w) as [[v|e] w1]; [|discriminate].
    destruct (negb (Js.truthy_opt v)); [discriminate|]. now intros [= <-].
  - intros token payload Hh Hv. split.
    + unfold optionalAuth. rewrite Hh.
      destruct (bearer_header token) as (_ & -> & ->).
      unfold verifyToken. cbn [clock AuthService_logout invalidateSession Redis.del
                                 snd with_sessions]. now rewrite Hv.
    + rewrite (authMiddleware_verified E req _ token payload Hh) by exact Hv.
      unfold validateSession, AuthService_logout, invalidateSession, Redis.get, Redis.del.
      cbn [snd sessions with_sessions]. now rewrite lookup_delete_eq.
  - unfold optionalAuth. destruct (authorization req) as [h|]; [|now left].
    destruct (Js.startsWith h "Bearer "); [|now left].
    unfold verifyToken. destruct (jwt_verify E _ _ _) as [payload|]; [right; eauto|now left].
Qed.

(** ** The profile *)

(** X5. The profile returned for a user id is the row of the active user with
    that id without its password hash and with every other column as stored;
    the profile handler never sends a password hash. *)
Theorem profile_hides_only_password_hash (i : string) (w : World) :
  match fst (UserModel_getUserProfile i w) with
  | Ok (Some profile) =>
      exists u,
        fst (UserModel_findById i w) = Ok (Some u)
        /\ Js.has_key profile "password_hash" = false
        /\ Js.get profile "password_hash" = Js.VUndefined
        /\ forall k, k <> "password_hash" -> Js.get profile k = Js.get (user_object u) k
  | Ok None => fst (UserModel_findById i w) = Ok None
  | Throw _ => False
  end
  /\ forall req,
       match json (fst (AuthController_me req w)) with
       | ProfileData d => Js.has_key d "password_hash" = false
       | _ => True
       end.
Proof.
  split.
  - unfold UserModel_getUserProfile, bind, UserModel_findById. cbn [fst].
    destruct (List.find _ (users w)) as [u|]; [|reflexivity].
    cbn [ret fst]. exists u. split; [reflexivity|].
    split; [apply has_key_omit|]. split; [reflexivity|].
    intros k Hk. now apply get_omit_ne.
  - intros req. unfold AuthController_me.
    destruct (req_user req) as [p|]; [|exact I].
    unfold UserModel_getUserProfile, bind, UserModel_findById.
    destruct (List.find _ (users w)) as [u|]; [|exact I].
    cbn [ret fst json]. apply has_key_omit.
Qed.

(** ** Helpers on lookups and writes *)

Lemma filter_nonempty_existsb {A} (f : A -> bool) (l : list A) :
  (0 <? length (List.filter f l))%nat = existsb f l.
Proof.
  induction l as [|a l IH]; [reflexivity|]. cbn. destruct (f a); [reflexivity|exact IH].
Qed.

Lemma find_map_stable {A} (P : A -> bool) (F : A -> A) (l : list A) :
  (forall x, P (F x) = P x) ->
  List.find P (List.map F l) = option_map F (List.find P l).
Proof.
  intros H. induction l as [|a l IH]; [reflexivity|]. cbn. rewrite H.
  destruct (P a); [reflexivity|exact IH].
Qed.

(** All that a successful insert tells. *)
Lemma create_inv_row (E : Externals) (d : NewUser) (w w1 : World) (u : User) :
  UserModel_create E d w = (Ok u, w1) ->
  w1 = with_users (users w ++ [u]) (S (users_seq w)) w
  /\ id u = gen_random_uuid E (users_seq w)
  /\ email u = nu_email d
  /\ password_hash u = Js.or_null (nu_password_hash d)
  /\ is_active u = true
  /\ existsb (fun x => String.eqb (id x) (id u)) (users w) = false
  /\ existsb (fun x => String.eqb (email x) (email u)) (users w) = false.
Proof.
  unfold UserModel_create. rewrite unique_violation_insert. cbn [id email google_id].
  destruct (existsb (fun u0 => String.eqb (id u0) (gen_random_uuid E (users_seq w)))
              (users w)) eqn:H1; [discriminate|].
  destruct (existsb (fun u0 => String.eqb (email u0) (nu_email d)) (users w)) eqn:H2;
    [discriminate|].
  destruct (match Js.or_null (nu_google_id d) with Some _ => _ | None => _ end);
    [discriminate|].
  intros [= <- <-]. cbn [id email password_hash is_active]. repeat split; assumption.
Qed.

(** An update that throws, or finds no row, writes nothing. *)
Lemma update_no_write (i : string) (upd : UserUpdates) (w w1 : World) :
  (forall e, UserModel_update i upd w = (Throw e, w1) -> w1 = w)
  /\ (UserModel_update i upd w = (Ok None, w1) -> w1 = w).
Proof.
  unfold UserModel_update. destruct (no_keys upd).
  - unfold UserModel_findById. split; [intros e0 H; discriminate H|]. now intros [= _ <-].
  - destruct (List.find _ (users w));
      [|split; [intros e0 H; discriminate H | now intros [= <-]]].
    destruct (unique_violation _ _ _ _ _); split;
      try (intros e0 H; discriminate H); try discriminate.
    intros e0. now intros [= _ <-].
Qed.

(** An update touches neither the cache nor the clock. *)
Lemma update_frame (i : string) (upd : UserUpdates) (w : World) :
  sessions (snd (UserModel_update i upd w)) = sessions w
  /\ clock (snd (UserModel_update i upd w)) = clock w.
Proof.
  unfold UserModel_update. destruct (no_keys upd); [split; reflexivity|].
  destruct (List.find _ (users w)); [|split; reflexivity].
  destruct (unique_violation _ _ _ _ _); split; reflexivity.
Qed.

(** The middleware reads the cache and the clock, nothing else. *)
Lemma authMiddleware_frame (E : Externals) (req : Request) (w w1 : World) :
  sessions w1 = sessions w -> clock w1 = clock w ->
  authMiddleware E req w1 = authMiddleware E req w.
Proof.
  intros Hs Hc. unfold authMiddleware.
  destruct (authorization req) as [h|]; [|reflexivity].
  destruct (negb (Js.truthy h) || negb (Js.startsWith h "Bearer ")); [reflexivity|].
  unfold verifyToken. rewrite Hc.
  destruct (jwt_verify E _ _ _) as [payload|]; [|reflexivity].
  unfold validateSession, Redis.get. rewrite Hs, Hc.
  destruct (sessions w !! _) as [[v ex]|]; [destruct (clock w <? ex)|]; reflexivity.
Qed.

(** ** What the table is asked *)

(** X6. [existsByEmail] counts every row, active or not: it is true whenever
    [findByEmail] finds a row, it is true exactly when some row carries the
    lowercased address, and it tells whether an insert of that address would
    be refused by the store for the e-mail being in use. *)
Theorem existsByEmail_sees_every_row (E : Externals) (e : string) (w : World) :
  (forall u,
      fst (UserModel_findByEmail e w) = Ok (Some u) ->
      fst (UserModel_existsByEmail e w) = Ok true)
  /\ (fst (UserModel_existsByEmail e w) = Ok true
      <-> exists u, In u (users w) /\ email u = Js.toLowerCase e)
  /\ (id_available E w = true ->
      forall d,
        nu_email d = Js.toLowerCase e ->
        (fst (UserModel_create E d w) = Throw (UniqueViolation "users_email_key")
         <-> fst (UserModel_existsByEmail e w) = Ok true)).
Proof.
  assert (Hex : fst (UserModel_existsByEmail e w)
                = Ok (existsb (fun u => String.eqb (email u) (Js.toLowerCase e)) (users w))).
  { unfold UserModel_existsByEmail. cbn [fst]. now rewrite filter_nonempty_existsb. }
  assert (Hiff : fst (UserModel_existsByEmail e w) = Ok true
                 <-> exists u, In u (users w) /\ email u = Js.toLowerCase e).
  { rewrite Hex. split.
    - intros [= H]. apply existsb_exists in H as (u & Hu & Heq).
      apply String.eqb_eq in Heq. eauto.
    - intros (u & Hu & Heq). f_equal. apply existsb_exists. exists u.
      split; [exact Hu | now apply String.eqb_eq]. }
  split; [|split; [exact Hiff|]].
  - intros u [= Hf]. apply Hiff. apply List.find_some in Hf as [Hin Hp].
    apply andb_true_iff in Hp as [Hp _]. apply String.eqb_eq in Hp. eauto.
  - intros Hid d Hd. rewrite Hex. unfold UserModel_create.
    rewrite unique_violation_insert. cbn [id email google_id].
    rewrite (id_available_no_pkey E w Hid), Hd.
    destruct (existsb _ (users w)); [split; reflexivity|].
    split; [|discriminate].
    destruct (Js.or_null (nu_google_id d)) as [g|]; [|discriminate].
    destruct (existsb _ (users w)); discriminate.
Qed.

(** ** Registration, then the other operations *)

(** X7. Once a registration has succeeded, a login with the same secret and
    with the e-mail address in any casing succeeds and returns the same user
    view, provided the hash of the secret is not empty and verifies against
    the secret. *)
Theorem register_then_login (E : Externals) (em pw : string) (fn ln : option string)
    (w : World) (r : AuthResponse) (w1 : World) (em' : string) (d : Z) :
  AuthService_register E (Some em) (Some pw) fn ln w = (Ok r, w1) ->
  hashPassword E pw <> "" ->
  comparePassword E pw (hashPassword E pw) = true ->
  em' <> "" -> Js.toLowerCase em' = Js.toLowerCase em ->
  exists r2 w2,
    AuthService_login E (Some em') (Some pw) (advance d w1) = (Ok r2, w2)
    /\ user r2 = user r.
Proof.
  intros Hrun Hh Hcmp Hem' Hlow.
  destruct (malformed_email (Some em) || too_short (Some pw)) eqn:Hv.
  { destruct (register_invalid E (Some em) (Some pw) fn ln w Hv) as (m & Hm & _).
    congruence. }
  assert (Hpw : pw <> "").
  { apply orb_false_iff in Hv as [_ Hs]. intros ->. discriminate Hs. }
  rewrite (register_cases E em pw fn ln w Hv) in Hrun.
  case_find Hrun u0 Hf; [discriminate|].
  destruct (UserModel_create E _ w) as [[u|e] w0] eqn:Hc; [|discriminate].
  apply create_inv_row in Hc as (-> & _ & Hemail & Hhash & Hact & _).
  cbn [nu_email nu_password_hash] in Hemail, Hhash.
  rewrite issue_eq in Hrun. injection Hrun as <- <-.
  rewrite (login_cases E em' pw _ Hem' Hpw).
  unfold UserModel_findByEmail.
  cbn [fst users advance with_sessions with_uuid_seq with_users].
  rewrite Hlow, (find_app_none _ _ _ Hf). cbn [List.find].
  rewrite Hemail, String.eqb_refl, Hact. cbn [andb].
  unfold Js.or_null in Hhash. cbn [Js.truthy_opt] in Hhash.
  apply truthy_true in Hh. rewrite Hh in Hhash. rewrite Hhash.
  cbn [Js.truthy_opt]. rewrite Hh. cbn [negb].
  unfold default, from_option, Datatypes.id. rewrite Hcmp. cbn [negb].
  rewrite issue_eq. eexists _, _. split; reflexivity.
Qed.

Lemma register_then_login_witness :
  exists r2 w2,
    AuthService_login sample_externals (Some "A@B.COM") (Some "secret123")
      (advance 60 (snd (AuthService_register sample_externals (Some "a@b.com")
                          (Some "secret123") (Some "A") None empty_world)))
    = (Ok r2, w2)
    /\ user r2 = user_view alice.
Proof.
  refine (register_then_login sample_externals "a@b.com" "secret123" (Some "A") None
            empty_world {| accessToken := "jwt.0"; user := user_view alice |}
            _ "A@B.COM" 60 _ _ _ _ _);
    solve [reflexivity | discriminate].
Defined.

(** X8. Once a registration has succeeded, the profile route answers 200 to a
    request that carries the returned token as its bearer credential, with
    the registered user's id and lowercased e-mail and without a password
    hash, for as long as the session has not expired; this needs the row id
    not to be empty and the token to verify to the payload it was signed
    over. *)
Theorem register_then_profile (E : Externals) (em pw : string) (fn ln : option string)
    (w : World) (r : AuthResponse) (w1 : World) (d : Z) (req : Request) :
  AuthService_register E (Some em) (Some pw) fn ln w = (Ok r, w1) ->
  gen_random_uuid E (users_seq w) <> "" ->
  d < session_expiry (config E) ->
  jwt_verify E (accessToken r) (jwt_secret (config E)) (clock w1 + d)
  = Some {| userId := gen_random_uuid E (users_seq w);
            tp_email := Js.toLowerCase em;
            tokenId := uuidv4 E (uuid_seq w) |} ->
  exists profile,
    route_me E (with_authorization (Some ("Bearer " +:+ accessToken r)) req)
      (advance d w1)
    = ({| status := 200; json := ProfileData profile |}, advance d w1)
    /\ Js.get profile "id" = Js.get (user r) "id"
    /\ Js.get profile "email" = Js.VString (Js.toLowerCase em)
    /\ Js.has_key profile "password_hash" = false.
Proof.
  intros Hrun Hid Hd Hjwt.
  destruct (malformed_email (Some em) || too_short (Some pw)) eqn:Hv.
  { destruct (register_invalid E (Some em) (Some pw) fn ln w Hv) as (m & Hm & _).
    congruence. }
  rewrite (register_cases E em pw fn ln w Hv) in Hrun.
  case_find Hrun u0 Hf; [discriminate|].
  destruct (UserModel_create E _ w) as [[u|e] w0] eqn:Hc; [|discriminate].
  apply create_inv_row in Hc as (-> & Hrow & Hemail & _ & Hact & Hfresh & _).
  cbn [nu_email] in Hemail.
  rewrite issue_eq in Hrun. injection Hrun as <- <-.
  cbn [accessToken user clock with_sessions with_uuid_seq with_users uuid_seq] in *.
  set (token := jwt_sign E _ _ _ _) in *.
  set (w1 := with_sessions _ _) in *.
  set (req1 := with_authorization (Some ("Bearer " +:+ token)) req).
  set (payload := {| userId := gen_random_uuid E (users_seq w);
                     tp_email := Js.toLowerCase em;
                     tokenId := uuidv4 E (uuid_seq w) |}) in *.
  assert (Hmw : authMiddleware E req1 (advance d w1) = inr (set_user payload req1)).
  { rewrite (authMiddleware_verified E req1 (advance d w1) token payload eq_refl Hjwt).
    unfold validateSession, Redis.get.
    cbn [tokenId payload sessions advance w1 with_sessions clock with_uuid_seq with_users].
    change ("session:" +:+ uuidv4 E (uuid_seq w)) with (session_key (uuidv4 E (uuid_seq w))).
    rewrite lookup_insert_eq.
    destruct (Z.ltb_spec (clock w + d) (clock w + session_expiry (config E))); [|lia].
    cbn [fst Js.truthy_opt]. rewrite Hrow.
    apply truthy_true in Hid. now rewrite Hid. }
  exists (Js.omit "password_hash" (user_object u)).
  split; [|split; [|split]].
  - unfold route_me, protected. rewrite Hmw.
    unfold AuthController_me. cbn [req_user set_user userId payload].
    unfold UserModel_getUserProfile, bind, UserModel_findById.
    cbn [users advance w1 with_sessions with_uuid_seq with_users].
    assert (Hnone : List.find (fun x => String.eqb (id x) (gen_random_uuid E (users_seq w))
                                        && is_active x) (users w) = None).
    { apply find_all_false. intros x Hx. rewrite Hrow in Hfresh.
      rewrite existsb_false_In in Hfresh. now rewrite (Hfresh x Hx). }
    rewrite (find_app_none _ _ _ Hnone). cbn [List.find].
    rewrite Hrow, String.eqb_refl, Hact. reflexivity.
  - reflexivity.
  - rewrite get_omit_ne by discriminate. cbn. now rewrite Hemail.
  - apply has_key_omit.
Qed.

Lemma register_then_profile_witness :
  exists profile,
    route_me sample_externals
      (with_authorization (Some "Bearer jwt.0") sample_request)
      (advance 3600 (snd (AuthService_register sample_externals (Some "a@b.com")
                            (Some "secret123") (Some "A") None empty_world)))
    = ({| status := 200; json := ProfileData profile |},
       advance 3600 (snd (AuthService_register sample_externals (Some "a@b.com")
                            (Some "secret123") (Some "A") None empty_world)))
    /\ Js.get profile "id" = Js.VString "user-0"
    /\ Js.get profile "email" = Js.VString "a@b.com"
    /\ Js.has_key profile "password_hash" = false.
Proof.
  refine (register_then_profile sample_externals "a@b.com" "secret123" (Some "A") None
            empty_world {| accessToken := "jwt.0"; user := user_view alice |}
            _ 3600 sample_request _ _ _ _);
    solve [reflexivity | discriminate].
Defined.

(** ** Linked accounts *)

(** X9. Linking a provider id to an account that has a password leaves the
    password in place: right after the external-identity login that links
    it, a login with the e-mail address and the secret still succeeds, for
    the same user, whose authentication method now reads "google". *)
Theorem linked_account_keeps_password (E : Externals) (p : GoogleProfile)
    (em h pw : string) (u : User) (w : World) :
  profile_email p = Some em ->
  unique_keys (users w) = true ->
  google_id_taken w (profile_id p) = false ->
  fst (UserModel_findByEmail em w) = Ok (Some u) ->
  password_hash u = Some h -> h <> "" -> pw <> "" ->
  comparePassword E pw h = true ->
  exists r w1 r2 w2,
    AuthService_googleAuth E p w = (Ok r, w1)
    /\ AuthService_login E (Some em) (Some pw) w1 = (Ok r2, w2)
    /\ user r2 = user r
    /\ Js.get (user r2) "id" = Js.VString (id u)
    /\ Js.get (user r2) "auth_method" = Js.VString "google".
Proof.
  intros Hem Hk Hfree Hfe Hh Hne Hpw Hcmp.
  assert (Hem' : em <> "").
  { unfold profile_email, Js.or_null in Hem.
    destruct (Js.truthy_opt _) eqn:Ht; [|discriminate]. rewrite Hem in Ht.
    now apply truthy_true. }
  unfold UserModel_findByEmail in Hfe. cbn [fst] in Hfe. injection Hfe as Hfe.
  pose proof (List.find_some _ _ Hfe) as [Hin _].
  rewrite (googleAuth_cases E p em w Hem), (find_google_not_taken w _ Hfree), Hfe.
  rewrite (update_link_ok (profile_id p) p u w Hk Hin Hfree). rewrite issue_eq.
  set (u' := apply_updates (clock w) (link_updates (profile_id p) p u) u).
  eexists _, _, _, _. split; [reflexivity|].
  split.
  - rewrite (login_cases E em pw _ Hem' Hpw).
    unfold UserModel_findByEmail.
    cbn [fst users with_sessions with_uuid_seq with_users].
    rewrite find_map_stable.
    2:{ intros x. destruct (String.eqb (id x) (id u)); reflexivity. }
    rewrite Hfe. cbn [option_map]. rewrite String.eqb_refl. fold u'.
    assert (Hh' : password_hash u' = Some h) by exact Hh.
    rewrite Hh'. cbn [Js.truthy_opt]. apply truthy_true in Hne. rewrite Hne. cbn [negb].
    unfold default, from_option, Datatypes.id. rewrite Hcmp. cbn [negb].
    rewrite issue_eq. reflexivity.
  - repeat split.
Qed.

Lemma linked_account_keeps_password_witness :
  exists r w1 r2 w2,
    AuthService_googleAuth sample_externals
      {| profile_id := "g-9"; displayName := Some "A B";
         emails := Some ["a@b.com"]; photos := None |} sample_world = (Ok r, w1)
    /\ AuthService_login sample_externals (Some "a@b.com") (Some "secret123") w1 = (Ok r2, w2)
    /\ user r2 = user r
    /\ Js.get (user r2) "id" = Js.VString (id alice)
    /\ Js.get (user r2) "auth_method" = Js.VString "google".
Proof.
  refine (linked_account_keeps_password sample_externals
            {| profile_id := "g-9"; displayName := Some "A B";
               emails := Some ["a@b.com"]; photos := None |}
            "a@b.com" "hash:secret123" "secret123" alice sample_world _ _ _ _ _ _ _ _);
    solve [reflexivity | discriminate].
Defined.

(** ** Updates *)

(** X10. An update never adds, removes or reorders rows and never changes a
    row id, a creation time or the session cache; it leaves every row of
    another id as it was; when no row has the id it resolves with null and
    changes nothing; the row it returns has the id asked for and, when at
    least one key was given, carries the current time as its update time. *)
Theorem update_edges (i : string) (upd : UserUpdates) (w : World) :
  List.map id (users (snd (UserModel_update i upd w))) = List.map id (users w)
  /\ List.map created_at (users (snd (UserModel_update i upd w)))
     = List.map created_at (users w)
  /\ sessions (snd (UserModel_update i upd w)) = sessions w
  /\ (forall x, In x (users w) -> id x <> i -> In x (users (snd (UserModel_update i upd w))))
  /\ ((forall x, In x (users w) -> id x <> i) -> UserModel_update i upd w = (Ok None, w))
  /\ (forall u w1,
        UserModel_update i upd w = (Ok (Some u), w1) ->
        id u = i /\ (no_keys upd = false -> updated_at u = clock w /\ In u (users w1))).
Proof.
  unfold UserModel_update. destruct (no_keys upd) eqn:Hk.
  - unfold UserModel_findById. cbn [snd].
    split; [reflexivity|]. split; [reflexivity|]. split; [reflexivity|].
    split; [auto|]. split.
    + intros H. f_equal. f_equal. apply find_all_false. intros x Hx.
      destruct (String.eqb_spec (id x) i) as [Heq|]; [|reflexivity].
      now contradiction (H x Hx).
    + intros u w1 [= H _]. apply List.find_some in H as [_ H].
      apply andb_true_iff in H as [H _]. split; [now apply String.eqb_eq | discriminate].
  - destruct (List.find _ (users w)) as [old|] eqn:Hold.
    2:{ cbn [snd].
        split; [reflexivity|]. split; [reflexivity|]. split; [reflexivity|].
        split; [auto|]. split; [reflexivity | discriminate]. }
    apply List.find_some in Hold as [Hin Hid]. apply String.eqb_eq in Hid.
    assert (Hnot : ~ (forall x, In x (users w) -> id x <> i))
      by (intros H; now apply (H old Hin)).
    destruct (unique_violation _ _ _ _ _).
    { cbn [snd].
      split; [reflexivity|]. split; [reflexivity|]. split; [reflexivity|].
      split; [auto|]. split; [intros H; now contradiction Hnot | discriminate]. }
    cbn [snd users sessions with_users].
    split; [|split; [|split; [reflexivity|split; [|split]]]].
    + rewrite List.map_map. apply map_ext. intros x.
      now destruct (String.eqb (id x) i).
    + rewrite List.map_map. apply map_ext. intros x.
      now destruct (String.eqb (id x) i).
    + intros x Hx Hne. apply in_map_iff. exists x. split; [|exact Hx].
      apply String.eqb_neq in Hne. now rewrite Hne.
    + intros H. now contradiction Hnot.
    + intros u w1 [= <- <-]. split; [exact Hid|]. intros _. split; [reflexivity|].
      cbn [users with_users]. apply in_map_iff.
      exists old. split; [|exact Hin]. apply String.eqb_eq in Hid. now rewrite Hid.
Qed.

(** X11. Deactivating a user does not end the user's sessions: after the
    update that clears the active flag the lookup by id finds nobody, the
    middleware answers every request as before, and a request it lets
    through for that user is answered 404 by the profile route. *)
Theorem deactivation_keeps_sessions (E : Externals) (i : string) (w : World)
    (r : option User) (w1 : World) :
  UserModel_update i deactivation w = (Ok r, w1) ->
  UserModel_findById i w1 = (Ok None, w1)
  /\ (forall req, authMiddleware E req w1 = authMiddleware E req w)
  /\ (forall req payload,
        authMiddleware E req w = inr (set_user payload req) ->
        userId payload = i ->
        route_me E req w1 = ({| status := 404; json := Refusal "User not found" |}, w1)).
Proof.
  intros Hup.
  assert (Hfind : UserModel_findById i w1 = (Ok None, w1)).
  { unfold UserModel_findById. f_equal. f_equal. apply find_all_false. intros x Hx.
    unfold UserModel_update in Hup. cbn [no_keys deactivation upd_email upd_password_hash
      upd_first_name upd_last_name upd_google_id upd_auth_method upd_profile_picture_url
      upd_is_active] in Hup.
    destruct (List.find _ (users w)) as [old|] eqn:Hold.
    - destruct (unique_violation _ _ _ _ _); [discriminate|].
      injection Hup as _ <-. cbn [users with_users] in Hx.
      apply in_map_iff in Hx as (y & <- & Hy).
      destruct (String.eqb (id y) i) eqn:Hyi.
      + cbn. apply andb_false_r.
      + now rewrite Hyi.
    - injection Hup as _ <-.
      now rewrite (List.find_none _ _ Hold x Hx). }
  assert (Hframe : forall req, authMiddleware E req w1 = authMiddleware E req w).
  { intros req. destruct (update_frame i deactivation w) as [Hs Hc].
    rewrite Hup in Hs, Hc. now apply authMiddleware_frame. }
  split; [exact Hfind|]. split; [exact Hframe|].
  intros req payload Hadmit Hi. unfold route_me, protected.
  rewrite Hframe, Hadmit. unfold AuthController_me. cbn [req_user set_user].
  unfold UserModel_getUserProfile, bind. now rewrite Hi, Hfind.
Qed.

Lemma deactivation_keeps_sessions_witness :
  route_me sample_externals sample_request
    (snd (UserModel_update "user-0" deactivation sample_world))
  = ({| status := 404; json := Refusal "User not found" |},
     snd (UserModel_update "user-0" deactivation sample_world)).
Proof.
  refine (proj2 (proj2 (deactivation_keeps_sessions sample_externals "user-0" sample_world
                          _ _ _))
            sample_request {| userId := "user-0"; tp_email := "a@b.com"; tokenId := "t1" |}
            _ _);
    reflexivity.
Defined.

(** ** What the service never does *)

(** When register, login or the external-identity login throws, nothing has
    been written. *)
Lemma throws_write_nothing (E : Externals) (w : World) :
  (forall em pw fn ln e w',
      AuthService_register E em pw fn ln w = (Throw e, w') -> w' = w)
  /\ (forall em pw e w', AuthService_login E em pw w = (Throw e, w') -> w' = w)
  /\ (forall p e w', AuthService_googleAuth E p w = (Throw e, w') -> w' = w).
Proof.
  split; [|split].
  - intros em pw fn ln e w' Hrun.
    destruct (malformed_email em || too_short pw) eqn:Hv.
    { destruct (register_invalid E em pw fn ln w Hv) as (m & Hm & _). congruence. }
    destruct em as [em|]; [|discriminate].
    destruct pw as [pw|]; [|cbn in Hv; now rewrite orb_true_r in Hv].
    destruct (register_valid_result E em pw fn ln w Hv)
      as [(r & w0 & Hr)|[Hr|(c & Hr)]]; congruence.
  - intros em pw e w' Hrun.
    destruct em as [em|]; [|now injection Hrun].
    destruct pw as [pw|]; [|now injection Hrun].
    destruct (Js.truthy em) eqn:Hem;
      [|unfold AuthService_login in Hrun; rewrite Hem in Hrun; now injection Hrun].
    destruct (Js.truthy pw) eqn:Hpw;
      [|unfold AuthService_login in Hrun; rewrite Hem, Hpw in Hrun; now injection Hrun].
    apply truthy_true in Hem, Hpw. rewrite (login_cases E em pw w Hem Hpw) in Hrun.
    unfold UserModel_findByEmail in Hrun. cbn [fst] in Hrun.
    case_find Hrun u Hf; [|now injection Hrun].
    destruct (negb (Js.truthy_opt (password_hash u))); [now injection Hrun|].
    destruct (negb (comparePassword E pw _)); [now injection Hrun|].
    rewrite issue_eq in Hrun. discriminate Hrun.
  - intros p e w' Hrun.
    destruct (profile_email p) as [em|] eqn:Hem;
      [|rewrite (googleAuth_no_email E p w Hem) in Hrun; now injection Hrun].
    rewrite (googleAuth_cases E p em w Hem) in Hrun.
    case_find Hrun u Hg; [rewrite issue_eq in Hrun; discriminate Hrun|].
    case_find Hrun u Hf.
    + destruct (UserModel_update _ _ w) as [[[u'|]|e0] w1] eqn:Hu.
      * rewrite issue_eq in Hrun. discriminate Hrun.
      * injection Hrun as _ <-. now apply (update_no_write _ _ w w1) in Hu.
      * injection Hrun as _ <-. now apply (update_no_write _ _ w w1) in Hu.
    + destruct (UserModel_create E _ w) as [[u|e0] w1] eqn:Hc.
      * rewrite issue_eq in Hrun. discriminate Hrun.
      * injection Hrun as _ <-. now apply create_throws in Hc as [-> _].
Qed.

(** One operation keeps the rows that are there, in order and with their core
    columns, and adds at most one. *)
Lemma step_keeps_core (E : Externals) (w : World) :
  (forall em pw fn ln,
      exists new,
        List.map core (users (snd (AuthService_register E em pw fn ln w)))
        = (List.map core (users w) ++ new)%list
        /\ (length new <= 1)%nat)
  /\ (forall em pw, users (snd (AuthService_login E em pw w)) = users w)
  /\ (forall p,
        exists new,
          List.map core (users (snd (AuthService_googleAuth E p w)))
          = (List.map core (users w) ++ new)%list
          /\ (length new <= 1)%nat)
  /\ (forall tid, users (snd (AuthService_logout tid w)) = users w)
  /\ (forall tid uid, users (snd (AuthService_validateSession E tid uid w)) = users w).
Proof.
  assert (Hsame : forall us : list User,
             exists new, List.map core us = (List.map core us ++ new)%list
                         /\ (length new <= 1)%nat).
  { intros us. exists []. split; [now rewrite app_nil_r | cbn; lia]. }
  assert (Hcreate : forall d,
             exists new,
               List.map core (users (snd (UserModel_create E d w)))
               = (List.map core (users w) ++ new)%list
               /\ (length new <= 1)%nat).
  { intros d. destruct (UserModel_create E d w) as [[u|e] w1] eqn:Hc.
    - apply create_inv in Hc as (-> & _). cbn [snd users with_users].
      exists [core u]. split; [apply List.map_app | cbn; lia].
    - apply create_throws in Hc as (-> & _). apply Hsame. }
  split; [|split; [|split; [|split]]].
  - intros em pw fn ln.
    destruct (malformed_email em || too_short pw) eqn:Hv.
    { destruct (register_invalid E em pw fn ln w Hv) as (m & -> & _). apply Hsame. }
    destruct em as [em|]; [|discriminate].
    destruct pw as [pw|]; [|cbn in Hv; now rewrite orb_true_r in Hv].
    rewrite (register_cases E em pw fn ln w Hv).
    destruct (List.find _ (users w)); [apply Hsame|].
    match goal with
    | |- context [UserModel_create E ?d w] => specialize (Hcreate d)
    end.
    destruct (UserModel_create E _ w) as [[u|e] w1]; exact Hcreate.
  - intros em pw.
    destruct em as [em|]; [|reflexivity]. destruct pw as [pw|]; [|reflexivity].
    destruct (Js.truthy em) eqn:Hem;
      [|unfold AuthService_login; now rewrite Hem].
    destruct (Js.truthy pw) eqn:Hpw;
      [|unfold AuthService_login; now rewrite Hem, Hpw].
    apply truthy_true in Hem, Hpw. rewrite (login_cases E em pw w Hem Hpw).
    unfold UserModel_findByEmail. cbn [fst].
    destruct (List.find _ (users w)) as [u|]; [|reflexivity].
    destruct (negb (Js.truthy_opt (password_hash u))); [reflexivity|].
    destruct (negb (comparePassword E pw _)); reflexivity.
  - intros p. destruct (profile_email p) as [em|] eqn:Hem;
      [|rewrite (googleAuth_no_email E p w Hem); apply Hsame].
    rewrite (googleAuth_cases E p em w Hem).
    destruct (List.find _ (users w)) as [u|]; [rewrite issue_eq; apply Hsame|].
    destruct (List.find _ (users w)) as [u|].
    + destruct (UserModel_update _ _ w) as [[[u'|]|e] w1] eqn:Hu.
      * apply update_inv in Hu as (old & _ & _ & _ & ->); [|reflexivity].
        rewrite issue_eq. cbn [snd users with_sessions with_uuid_seq with_users].
        exists []. split; [|cbn; lia]. rewrite app_nil_r, List.map_map.
        apply map_ext. intros x. now destruct (String.eqb (id x) (id u)).
      * apply (update_no_write _ _ w w1) in Hu as ->. apply Hsame.
      * apply (update_no_write _ _ w w1) in Hu as ->. apply Hsame.
    + specialize (Hcreate (google_account p em)).
      destruct (UserModel_create E _ w) as [[u|e] w1]; exact Hcreate.
  - reflexivity.
  - reflexivity.
Qed.

(** ** Sessions side by side *)

(** X15. A second login does not end the first session: the two session
    identifiers differ when the uuid source never repeats, the entry of the
    first is still in the cache as it was, and a request that carries the
    first credential is answered by the middleware after the second login as
    it would have been before it. *)
Theorem sessions_accumulate (E : Externals) (w : World) (em1 pw1 : option string)
    (r1 : AuthResponse) (w1 : World) (d : Z) (em2 pw2 : option string)
    (r2 : AuthResponse) (w2 : World) :
  Inj (=) (=) (uuidv4 E) ->
  AuthService_login E em1 pw1 w = (Ok r1, w1) ->
  AuthService_login E em2 pw2 (advance d w1) = (Ok r2, w2) ->
  let t1 := uuidv4 E (uuid_seq w) in
  let t2 := uuidv4 E (uuid_seq w1) in
  t1 <> t2
  /\ is_Some (sessions w1 !! session_key t1)
  /\ sessions w2 !! session_key t1 = sessions w1 !! session_key t1
  /\ is_Some (sessions w2 !! session_key t2)
  /\ (forall req token payload,
        authorization req = Some ("Bearer " +:+ token) ->
        jwt_verify E token (jwt_secret (config E)) (clock w1 + d) = Some payload ->
        tokenId payload = t1 ->
        authMiddleware E req w2 = authMiddleware E req (advance d w1)).
Proof.
  intros Hinj H1 H2 t1 t2.
  apply login_success in H1 as (u1 & _ & Hseq1 & _ & Hs1 & _).
  apply login_success in H2 as (u2 & _ & _ & _ & Hs2 & Hc2 & _).
  cbn [uuid_seq sessions clock advance] in Hs2, Hc2. fold t1 in Hs1. fold t2 in Hs2.
  assert (Hne : t1 <> t2).
  { unfold t1, t2. intros Heq. apply Hinj in Heq. lia. }
  assert (Hk : session_key t2 <> session_key t1)
    by (intros H; apply session_key_inj in H; congruence).
  assert (Hkeep : sessions w2 !! session_key t1 = sessions w1 !! session_key t1)
    by (rewrite Hs2; now apply lookup_insert_ne).
  split; [exact Hne|]. split; [rewrite Hs1, lookup_insert_eq; eauto|].
  split; [exact Hkeep|]. split; [rewrite Hs2, lookup_insert_eq; eauto|].
  intros req token payload Hh Hv Ht.
  rewrite (authMiddleware_verified E req w2 token payload Hh) by (now rewrite Hc2).
  rewrite (authMiddleware_verified E req (advance d w1) token payload Hh) by exact Hv.
  unfold validateSession, Redis.get. rewrite Ht, Hc2.
  change ("session:" +:+ t1) with (session_key t1). rewrite Hkeep.
  cbn [sessions clock advance].
  destruct (sessions w1 !! session_key t1) as [[v ex]|];
    [destruct (clock w1 + d <? ex)|]; reflexivity.
Qed.

Lemma sessions_accumulate_witness :
  uuidv4 sample_externals (uuid_seq sample_world)
  <> uuidv4 sample_externals
       (uuid_seq (snd (AuthService_login sample_externals (Some "a@b.com")
                         (Some "secret123") sample_world))).
Proof.
  refine (proj1 (sessions_accumulate sample_externals sample_world
                   (Some "a@b.com") (Some "secret123") _ _ 5
                   (Some "a@b.com") (Some "secret123") _ _ pretty_nat_inj _ _));
    reflexivity.
Defined.

(** ** The connection to the cache *)

Lemma call_keeps_client (k : connection_call) (c : Connection) (client : nat) :
  k <> CallClose -> redisClient c = Some client -> call k c = c.
Proof.
  intros Hk Hc. destruct k; [| |contradiction];
    unfold call, initRedis, getRedis; now rewrite Hc.
Qed.

(** X16. The connection is a singleton until it is closed: while a client is
    in use, [initRedis] and [getRedis] hand out that client and create none;
    from no client, any non-empty run of the two creates exactly one and
    keeps it; and over any run of the three functions the clients created
    number at most the calls of [closeRedis], plus one when the run starts
    without a client. *)
Theorem connection_is_singleton (c : Connection) (calls : list connection_call) :
  let c' := fold_left (fun c k => call k c) calls c in
  (Forall (fun k => k <> CallClose) calls ->
   forall client, redisClient c = Some client ->
                  c' = c /\ fst (getRedis c') = client /\ fst (initRedis c') = client)
  /\ (Forall (fun k => k <> CallClose) calls -> calls <> [] ->
      redisClient c = None ->
      redisClient c' = Some (created c) /\ created c' = S (created c))
  /\ (created c' <= created c
                    + length (List.filter (fun k => match k with
                                                    | CallClose => true
                                                    | _ => false
                                                    end) calls)
                    + match redisClient c with Some _ => 0 | None => 1 end)%nat.
Proof.
  assert (Hstay : forall calls c client,
             Forall (fun k => k <> CallClose) calls ->
             redisClient c = Some client ->
             fold_left (fun c k => call k c) calls c = c).
  { induction calls0 as [|k ks IH]; intros c0 client Hall Hc; [reflexivity|].
    inversion Hall; subst. cbn [fold_left].
    rewrite (call_keeps_client k c0 client) by assumption. now apply (IH c0 client). }
  split; [|split].
  - intros Hall client Hc. cbn zeta. rewrite (Hstay calls c client Hall Hc).
    unfold getRedis, initRedis. now rewrite Hc.
  - intros Hall Hne Hc. destruct calls as [|k ks]; [contradiction|].
    inversion Hall; subst. cbn [fold_left].
    assert (Hfirst : call k c = {| redisClient := Some (created c);
                                   created := S (created c) |}).
    { destruct k; [| |contradiction]; unfold call, getRedis, initRedis; now rewrite Hc. }
    rewrite Hfirst. rewrite (Hstay ks _ (created c)); auto.
  - cbn zeta. revert c. induction calls as [|k ks IH]; intros c; [cbn; lia|].
    cbn [fold_left List.filter]. specialize (IH (call k c)).
    destruct k, (redisClient c) as [client|] eqn:Hc;
      unfold call, getRedis, initRedis, closeRedis in IH |- *;
      rewrite Hc in IH |- *; cbn [snd redisClient created length] in IH |- *;
      try rewrite Hc in IH; lia.
Qed.

(** ** The forms of the browser side *)

Lemma email_atom_lower (c : ascii) : email_atom (Js.lower_unit c) = email_atom c.
Proof. destruct c as [[] [] [] [] [] [] [] []]; reflexivity. Qed.

Lemma toLowerCase_app (a b : string) :
  Js.toLowerCase (a +:+ b) = Js.toLowerCase a +:+ Js.toLowerCase b.
Proof.
  induction a as [|c a IH]; [reflexivity|].
  change (String (Js.lower_unit c) (Js.toLowerCase (a +:+ b))
          = String (Js.lower_unit c) (Js.toLowerCase a +:+ Js.toLowerCase b)).
  now rewrite IH.
Qed.

Lemma email_part_lower (a : string) : email_part a -> email_part (Js.toLowerCase a).
Proof.
  intros [Hne Hall]. split.
  - destruct a; [contradiction|discriminate].
  - clear Hne. induction a as [|c a IH]; [reflexivity|]. cbn in Hall |- *.
    apply andb_true_iff in Hall as [Hc Ha]. now rewrite email_atom_lower, Hc, IH.
Qed.

(** Lowercasing keeps an address within the pattern. *)
Lemma email_pattern_lower (s : string) :
  Regex.test email_pattern s = true ->
  Regex.test email_pattern (Js.toLowerCase s) = true.
Proof.
  rewrite !email_pattern_spec. intros (a & b & c & -> & Ha & Hb & Hc).
  exists (Js.toLowerCase a), (Js.toLowerCase b), (Js.toLowerCase c).
  split; [|auto using email_part_lower].
  now rewrite !toLowerCase_app.
Qed.

Lemma trim_start_spaces (s : string) : all_units Js.is_space s = true -> trim_start s = "".
Proof.
  induction s as [|c s IH]; [reflexivity|]. cbn. intros H.
  apply andb_true_iff in H as [Hc Hs]. rewrite Hc. now apply IH.
Qed.

Lemma trim_nonempty (s : string) : trim s <> "" -> s <> "".
Proof. intros H ->. now apply H. Qed.

(** The checks behind an empty error object of the sign-up form. *)
Lemma Signup_validateForm_true (f : SignupForm) :
  snd (Signup_validateForm f) = true ->
  trim (sf_firstName f) <> ""
  /\ trim (sf_email f) <> ""
  /\ Regex.test email_pattern (sf_email f) = true
  /\ sf_password f <> ""
  /\ (Z.of_nat (String.length (sf_password f)) <? 6) = false
  /\ sf_confirmPassword f = sf_password f.
Proof.
  unfold Signup_validateForm. cbn [snd].
  destruct (Js.truthy (trim (sf_firstName f))) eqn:H1; cbn [negb]; [|discriminate].
  destruct (Js.truthy (trim (sf_email f))) eqn:H2; cbn [negb]; [|discriminate].
  destruct (Regex.test email_pattern (sf_email f)) eqn:H3; cbn [negb]; [|discriminate].
  destruct (Js.truthy (sf_password f)) eqn:H4; cbn [negb]; [|discriminate].
  destruct (Z.of_nat (String.length (sf_password f)) <? 6) eqn:H5; [discriminate|].
  destruct (Js.truthy (sf_confirmPassword f)) eqn:H6; cbn [negb]; [|discriminate].
  destruct (String.eqb_spec (sf_password f) (sf_confirmPassword f)) as [H7|];
    cbn [negb]; [|discriminate].
  intros _. apply truthy_true in H1, H2, H4. repeat split; auto.
Qed.

(** X17. What the sign-up form lets through passes the server's validation:
    when [validateForm] finds no error, the registration request the form
    posts is never refused with a validation error; it succeeds or fails on
    the e-mail address being registered or on a key constraint of the
    store. *)
Theorem signup_form_passes_validation (E : Externals) (f : SignupForm) (w : World) :
  snd (Signup_validateForm f) = true ->
  let req := Signup_submission f in
  malformed_email (body_email req) || too_short (body_password req) = false
  /\ (forall e w',
        AuthService_register E (body_email req) (body_password req)
          (body_firstName req) (body_lastName req) w = (Throw e, w') ->
        kind_of e <> ValidationError
        /\ status (fst (AuthController_register E req w)) = 400)
  /\ (forall r w',
        AuthService_register E (body_email req) (body_password req)
          (body_firstName req) (body_lastName req) w = (Ok r, w') ->
        AuthController_register E req w
        = ({| status := 201; json := AuthData "Registration successful" r |}, w')).
Proof.
  intros Hok req.
  apply Signup_validateForm_true in Hok as (_ & _ & Hre & _ & Hlen & _).
  assert (Hv : malformed_email (body_email req) || too_short (body_password req) = false).
  { cbn. now rewrite (email_pattern_lower _ Hre), Hlen. }
  split; [exact Hv|]. split.
  - intros e w' Hrun. split.
    + cbn [req Signup_submission body_email body_password body_firstName body_lastName]
        in Hrun, Hv.
      destruct (register_valid_result E _ _ (Some (sf_firstName f)) (Some (sf_lastName f))
                  w Hv) as [(r & w0 & Hr)|[Hr|(c & Hr)]];
        rewrite Hr in Hrun; [discriminate| |]; injection Hrun as <- _.
      * discriminate.
      * cbn. destruct (String.eqb c "users_email_key"); discriminate.
    + unfold AuthController_register. now rewrite Hrun.
  - intros r w' Hrun. unfold AuthController_register. now rewrite Hrun.
Qed.

Lemma signup_form_passes_validation_witness :
  malformed_email (Some "a@b.com") || too_short (Some "secret123") = false.
Proof.
  refine (proj1 (signup_form_passes_validation sample_externals
                   {| sf_firstName := "A"; sf_lastName := ""; sf_email := "A@b.com";
                      sf_password := "secret123"; sf_confirmPassword := "secret123" |}
                   empty_world _)).
  reflexivity.
Defined.

(** X18. What the login form lets through has both fields: when its
    [validateForm] finds no error, the login request the form posts is never
    refused with "Email and password are required". A password made only of
    white space, which the sign-up form accepts when it is six characters
    long, is refused by the login form. *)
Theorem login_form_and_server (E : Externals) (em pw : string) (w : World) :
  (snd (Login_validateForm em pw) = true ->
   fst (AuthService_login E (body_email (Login_submission em pw))
          (body_password (Login_submission em pw)) w)
   <> Throw (Error "Email and password are required"))
  /\ (all_units Js.is_space pw = true -> snd (Login_validateForm em pw) = false)
  /\ (forall f, snd (Signup_validateForm f) = true ->
                all_units Js.is_space (sf_password f) = true ->
                snd (Login_validateForm (sf_email f) (sf_password f)) = false).
Proof.
  assert (Hspace : forall e p, all_units Js.is_space p = true ->
                               snd (Login_validateForm e p) = false).
  { intros e p Hp. unfold Login_validateForm, trim. rewrite (trim_start_spaces p Hp).
    cbn [trim_end Js.truthy String.eqb negb snd].
    rewrite length_app. cbn [length]. apply Nat.eqb_neq. lia. }
  split; [|split; [apply Hspace|intros f _; apply Hspace]].
  unfold Login_validateForm. cbn [snd Login_submission credentials body_email body_password].
  destruct (Js.truthy (trim em)) eqn:H1; cbn [negb]; [|discriminate].
  destruct (Regex.test email_pattern em); cbn [negb]; [|discriminate].
  destruct (Js.truthy (trim pw)) eqn:H2; cbn [negb]; [|discriminate].
  intros _. apply truthy_true, trim_nonempty in H1, H2.
  assert (Hlow : Js.toLowerCase em <> "") by (destruct em; [contradiction|discriminate]).
  rewrite (login_cases E _ pw w Hlow H2).
  unfold UserModel_findByEmail. cbn [fst].
  destruct (List.find _ (users w)) as [u|]; [|discriminate].
  destruct (negb (Js.truthy_opt (password_hash u))); [discriminate|].
  destruct (negb (comparePassword E pw _)); [discriminate|].
  rewrite issue_eq. discriminate.
Qed.

(** ** The stored credential of the browser side *)

(** X19. After the client's [logout] no credential is stored: it is not
    authenticated and sends no [Authorization] header, and no other key of
    the storage is touched. The client counts as authenticated exactly when
    it sends a header, an empty token does not count, and the header it
    sends is the one the server's middleware splits back into the stored
    token; without a stored token the middleware answers 401 "Missing
    authorization token". *)
Theorem client_credential (E : Externals) (localStorage : gmap string string) :
  Client.isAuthenticated (Client.logout localStorage) = false
  /\ Client.getAuthHeaders (Client.logout localStorage) = None
  /\ (forall k, k <> "accessToken" -> k <> "user" ->
                Client.logout localStorage !! k = localStorage !! k)
  /\ (forall token,
        Client.getToken (Client.setToken token localStorage) = Some token
        /\ Client.isAuthenticated (Client.setToken token localStorage) = Js.truthy token)
  /\ (Client.isAuthenticated localStorage = true
      <-> exists h, Client.getAuthHeaders localStorage = Some h)
  /\ (forall h,
        Client.getAuthHeaders localStorage = Some h ->
        exists token,
          Client.getToken localStorage = Some token /\ token <> ""
          /\ Js.startsWith h "Bearer " = true /\ Js.slice 7 h = token)
  /\ (Client.isAuthenticated localStorage = false ->
      forall req w,
        authMiddleware E (with_authorization (Client.getAuthHeaders localStorage) req) w
        = inl {| status := 401; json := Refusal "Missing authorization token" |}).
Proof.
  unfold Client.isAuthenticated, Client.getAuthHeaders, Client.getToken, Client.logout,
    Client.setToken.
  split; [|split; [|split; [|split; [|split; [|split]]]]].
  - rewrite lookup_delete_ne by discriminate. now rewrite lookup_delete_eq.
  - rewrite lookup_delete_ne by discriminate. now rewrite lookup_delete_eq.
  - intros k H1 H2. now rewrite !lookup_delete_ne by congruence.
  - intros token. now rewrite lookup_insert_eq.
  - destruct (localStorage !! "accessToken") as [t|]; cbn [Js.truthy_opt].
    + destruct (Js.truthy t); split; eauto; try discriminate. intros [h H]. discriminate.
    + split; [discriminate|]. intros [h H]. discriminate.
  - intros h. destruct (localStorage !! "accessToken") as [t|]; [|discriminate].
    destruct (Js.truthy t) eqn:Ht; [|discriminate]. intros [= <-].
    exists t. apply truthy_true in Ht. destruct (bearer_header t) as (_ & H1 & H2). auto.
  - intros Hno req w.
    destruct (localStorage !! "accessToken") as [t|]; cbn [Js.truthy_opt] in Hno.
    + now rewrite Hno.
    + reflexivity.
Qed.

(** ** Runs of the service *)

(** X12. The service refuses before it writes: when register, login or the
    external-identity login fails with one of the errors the service throws
    itself (missing field, e-mail format, password length, address already
    registered, bad credentials, other authentication method, no e-mail from
    the provider) or with a key-constraint refusal of the store, no row and
    no session entry has changed and no session identifier has been drawn;
    the handlers answer such a registration with 400 and such a login with
    401, with the error's message. *)
Theorem refusals_change_nothing (E : Externals) (w : World) :
  (forall em pw fn ln e w',
      AuthService_register E em pw fn ln w = (Throw e, w') -> refusal e = true -> w' = w)
  /\ (forall em pw e w',
        AuthService_login E em pw w = (Throw e, w') -> refusal e = true -> w' = w)
  /\ (forall p e w',
        AuthService_googleAuth E p w = (Throw e, w') -> refusal e = true -> w' = w)
  /\ (forall req e w',
        AuthService_register E (body_email req) (body_password req)
          (body_firstName req) (body_lastName req) w = (Throw e, w') ->
        refusal e = true ->
        AuthController_register E req w
        = ({| status := 400; json := Failure (message_or e "Registration failed") |}, w))
  /\ (forall req e w',
        AuthService_login E (body_email req) (body_password req) w = (Throw e, w') ->
        refusal e = true ->
        AuthController_login E req w
        = ({| status := 401; json := Failure (message_or e "Login failed") |}, w)).
Proof.
  destruct (throws_write_nothing E w) as (Hreg & Hlogin & Hgoogle).
  split; [|split; [|split; [|split]]].
  - intros em pw fn ln e w' Hrun _. exact (Hreg _ _ _ _ _ _ Hrun).
  - intros em pw e w' Hrun _. exact (Hlogin _ _ _ _ Hrun).
  - intros p e w' Hrun _. exact (Hgoogle _ _ _ Hrun).
  - intros req e w' Hrun _. unfold AuthController_register. rewrite Hrun.
    now rewrite (Hreg _ _ _ _ _ _ Hrun).
  - intros req e w' Hrun _. unfold AuthController_login. rewrite Hrun.
    now rewrite (Hlogin _ _ _ _ Hrun).
Qed.

Lemma perform_keeps_core (E : Externals) (w : World) (k : service_call) :
  exists new,
    List.map core (users (perform E w k)) = (List.map core (users w) ++ new)%list
    /\ (length new <= 1)%nat.
Proof.
  destruct (step_keeps_core E w) as (Hreg & Hlogin & Hgoogle & Hlogout & Hval).
  assert (Hsame : forall w', users w' = users w ->
                             exists new, List.map core (users w')
                                         = (List.map core (users w) ++ new)%list
                                         /\ (length new <= 1)%nat).
  { intros w' ->. exists []. split; [now rewrite app_nil_r | cbn; lia]. }
  destruct k; cbn [perform]; auto.
Qed.

(** X13. Over any run of service calls no row is deleted and no row has its
    id, e-mail address, password hash, active flag or creation time
    rewritten: the rows there at the start are still there, in order and
    with these columns as they were, followed by at most one new row per
    call. *)
Theorem rows_are_never_lost (E : Externals) (calls : list service_call) (w : World) :
  exists new,
    List.map core (users (fold_left (perform E) calls w))
    = (List.map core (users w) ++ new)%list
    /\ (length new <= length calls)%nat.
Proof.
  revert w. induction calls as [|k ks IH]; intros w.
  - exists []. split; [now rewrite app_nil_r | cbn; lia].
  - cbn [fold_left]. destruct (IH (perform E w k)) as (new2 & Heq2 & Hlen2).
    destruct (perform_keeps_core E w k) as (new1 & Heq1 & Hlen1).
    exists (new1 ++ new2)%list. split.
    + now rewrite Heq2, Heq1, <- app_assoc.
    + rewrite length_app. cbn [length]. lia.
Qed.

(** X14. The key constraints of the schema are an invariant of the service:
    over any run of service calls from a table that satisfies them, no two
    rows share an id, an e-mail address or a provider id. *)
Theorem key_constraints_invariant (E : Externals) (calls : list service_call) (w : World) :
  unique_keys (users w) = true ->
  unique_keys (users (fold_left (perform E) calls w)) = true.
Proof.
  revert w. induction calls as [|k ks IH]; intros w Hk; [exact Hk|].
  cbn [fold_left]. apply IH.
  destruct (service_keeps_keys E w Hk) as (Hreg & Hlogin & Hgoogle & Hlogout & Hval).
  destruct k; cbn [perform]; auto.
Qed.

Lemma key_constraints_invariant_witness :
  unique_keys
    (users (fold_left (perform sample_externals)
              [ Register (Some "a@b.com") (Some "secret123") (Some "A") None;
                GoogleAuth {| profile_id := "g-9"; displayName := Some "A B";
                              emails := Some ["a@b.com"]; photos := None |};
                Register (Some "A@B.com") (Some "secret123") None None;
                Wait 10;
                Login (Some "a@b.com") (Some "secret123") ]
              empty_world))
  = true.
Proof.
  apply (key_constraints_invariant sample_externals). reflexivity.
Defined.

Lemma core_id_kept (us us' : list User) (new : list (string * string * option string * bool * Z)) :
  List.map core us' = (List.map core us ++ new)%list ->
  forall u, In u us -> exists u', In u' us' /\ id u' = id u.
Proof.
  intros Heq u Hu.
  assert (Hin : In (core u) (List.map core us')).
  { rewrite Heq. apply in_or_app. left. now apply in_map. }
  apply in_map_iff in Hin as (u' & Hcore & Hu'). exists u'. split; [exact Hu'|].
  unfold core in Hcore. congruence.
Qed.

Lemma perform_keeps_owned (E : Externals) (w : World) (k : service_call) :
  is_validate k = false -> sessions_owned w -> sessions_owned (perform E w k).
Proof.
  intros Hk Hown.
  destruct (perform_keeps_core E w k) as (new & Hcore & _).
  pose proof (core_id_kept _ _ _ Hcore) as Hids.
  assert (Hkept : sessions (perform E w k) = sessions w -> sessions_owned (perform E w k)).
  { intros Hs key v ex Hl. rewrite Hs in Hl.
    destruct (Hown key v ex Hl) as (u & Hu & <-). now apply Hids. }
  assert (Hissued : forall r w' u,
             perform E w k = w' -> In u (users w') -> issued E w w' u r ->
             sessions_owned (perform E w k)).
  { intros r w' u Hp Hu (_ & _ & Hs & _) key v ex Hl. rewrite Hp in Hl |- *.
    rewrite Hs in Hl.
    destruct (decide (session_key (uuidv4 E (uuid_seq w)) = key)) as [<-|Hne].
    - rewrite lookup_insert_eq in Hl. injection Hl as <- _. eauto.
    - rewrite lookup_insert_ne in Hl by exact Hne.
      destruct (Hown key v ex Hl) as (u0 & Hu0 & <-). rewrite <- Hp. now apply Hids. }
  destruct (throws_write_nothing E w) as (Hreg & Hlogin & Hgoogle).
  destruct k; cbn [is_validate] in Hk; try discriminate.
  - destruct (AuthService_register E em pw fn ln w) as [[r|e] w'] eqn:Hrun.
    + pose proof (register_success E _ _ _ _ _ _ _ Hrun) as (u & Hu & Hiss).
      apply (Hissued r w' u); [cbn [perform]; now rewrite Hrun | exact Hu | exact Hiss].
    + apply Hkept. cbn [perform]. rewrite Hrun. now rewrite (Hreg _ _ _ _ _ _ Hrun).
  - destruct (AuthService_login E em pw w) as [[r|e] w'] eqn:Hrun.
    + pose proof (login_success E _ _ _ _ _ Hrun) as (u & Hu & Hiss).
      apply (Hissued r w' u); [cbn [perform]; now rewrite Hrun | exact Hu | exact Hiss].
    + apply Hkept. cbn [perform]. rewrite Hrun. now rewrite (Hlogin _ _ _ _ Hrun).
  - destruct (AuthService_googleAuth E p w) as [[r|e] w'] eqn:Hrun.
    + pose proof (googleAuth_success E _ _ _ _ Hrun) as (u & Hu & Hiss).
      apply (Hissued r w' u); [cbn [perform]; now rewrite Hrun | exact Hu | exact Hiss].
    + apply Hkept. cbn [perform]. rewrite Hrun. now rewrite (Hgoogle _ _ _ Hrun).
  - intros key v ex Hl. cbn [perform AuthService_logout invalidateSession Redis.del snd
                               sessions users with_sessions] in Hl |- *.
    apply lookup_delete_Some in Hl as [_ Hl]. exact (Hown key v ex Hl).
  - apply Hkept. reflexivity.
Qed.

(** X20. Every session belongs to a user of the table: over any run of
    register, login, external-identity login, logout and waiting from a
    state where it holds (an empty cache, say), each entry of the cache
    stores the id of a row of the table. *)
Theorem sessions_belong_to_users (E : Externals) (calls : list service_call) (w : World) :
  forallb (fun k => negb (is_validate k)) calls = true ->
  sessions_owned w ->
  sessions_owned (fold_left (perform E) calls w).
Proof.
  revert w. induction calls as [|k ks IH]; intros w Hcalls Hown; [exact Hown|].
  cbn [forallb] in Hcalls. apply andb_true_iff in Hcalls as [Hk Hks].
  apply negb_true_iff in Hk. cbn [fold_left]. apply IH; [exact Hks|].
  now apply perform_keeps_owned.
Qed.

Lemma sessions_belong_to_users_witness :
  sessions_owned
    (fold_left (perform sample_externals)
       [ Register (Some "a@b.com") (Some "secret123") (Some "A") None;
         Login (Some "a@b.com") (Some "secret123");
         Logout "0" ]
       empty_world).
Proof.
  apply (sessions_belong_to_users sample_externals); [reflexivity|].
  intros key v ex Hl. discriminate Hl.
Defined.

(** ** The names of a new external-identity account *)

Lemma split_free (sep : ascii) (a : string) :
  free_of sep a = true -> Js.split sep a = [a].
Proof.
  unfold free_of. induction a as [|c a IH]; [reflexivity|]. cbn. intros H.
  apply andb_true_iff in H as [Hc Ha]. apply negb_true_iff in Hc.
  now rewrite Hc, (IH Ha).
Qed.

Lemma split_app (sep : ascii) (a r : string) :
  free_of sep a = true -> Js.split sep (a +:+ String sep r) = a :: Js.split sep r.
Proof.
  unfold free_of. induction a as [|c a IH]; intros H.
  - change ("" +:+ String sep r) with (String sep r). cbn [Js.split].
    now rewrite Ascii.eqb_refl.
  - cbn [all_units] in H. apply andb_true_iff in H as [Hc Ha]. apply negb_true_iff in Hc.
    change (String c a +:+ String sep r) with (String c (a +:+ String sep r)).
    cbn [Js.split]. now rewrite Hc, (IH Ha).
Qed.

Lemma create_inv_names (E : Externals) (d : NewUser) (w w1 : World) (u : User) :
  UserModel_create E d w = (Ok u, w1) ->
  first_name u = Js.or_null (nu_first_name d)
  /\ last_name u = Js.or_null (nu_last_name d).
Proof.
  unfold UserModel_create.
  destruct (unique_violation _ _ _ _ _); [discriminate|].
  intros [= <- _]. split; reflexivity.
Qed.

(** X21. The account an external-identity login creates takes its first name
    and its last name from the first two space-separated words of the
    display name: a display name without a space gives the first name alone
    and no last name, and whatever follows the second word is dropped. *)
Theorem google_account_names (E : Externals) (p : GoogleProfile) (em : string)
    (w : World) (r : AuthResponse) (w1 : World) :
  profile_email p = Some em ->
  google_id_taken w (profile_id p) = false ->
  email_taken w em = false ->
  AuthService_googleAuth E p w = (Ok r, w1) ->
  let shown := default "" (Js.or_null (displayName p)) in
  (free_of " " shown = true ->
   Js.get (user r) "first_name" = Js.of_option (Js.or_null (Some shown))
   /\ Js.get (user r) "last_name" = Js.VNull)
  /\ (forall a b,
        free_of " " a = true -> free_of " " b = true ->
        (shown = a +:+ " " +:+ b \/ exists rest, shown = a +:+ " " +:+ b +:+ " " +:+ rest) ->
        Js.get (user r) "first_name" = Js.of_option (Js.or_null (Some a))
        /\ Js.get (user r) "last_name" = Js.of_option (Js.or_null (Some b))).
Proof.
  intros Hem Hg Hmail Hrun shown.
  rewrite (googleAuth_cases E p em w Hem) in Hrun.
  rewrite (find_google_not_taken w _ Hg), (find_email_not_taken w em Hmail) in Hrun.
  destruct (UserModel_create E _ w) as [[u|e] w0] eqn:Hc; [|discriminate].
  apply create_inv_names in Hc as [Hfirst Hlast].
  rewrite issue_eq in Hrun. injection Hrun as <- _.
  cbn [google_account nu_first_name nu_last_name] in Hfirst, Hlast. fold shown in Hfirst, Hlast.
  assert (Hget : Js.get (user_view u) "first_name" = Js.of_option (first_name u)
                 /\ Js.get (user_view u) "last_name" = Js.of_option (last_name u))
    by (split; reflexivity).
  cbn [user]. destruct Hget as [-> ->]. rewrite Hfirst, Hlast. split.
  - intros Hfree. rewrite (split_free " " shown Hfree). split; reflexivity.
  - intros a b Ha Hb [->|(rest & ->)].
    + change (a +:+ " " +:+ b) with (a +:+ String " " b).
      rewrite (split_app " " a b Ha), (split_free " " b Hb). split; reflexivity.
    + change (a +:+ " " +:+ b +:+ " " +:+ rest)
        with (a +:+ String " " (b +:+ String " " rest)).
      rewrite (split_app " " a _ Ha), (split_app " " b rest Hb). split; reflexivity.
Qed.

Lemma google_account_names_witness :
  exists r w1,
    AuthService_googleAuth sample_externals
      {| profile_id := "g-9"; displayName := Some "Ada Mary Lovelace";
         emails := Some ["ada@x.com"]; photos := None |} sample_world = (Ok r, w1)
    /\ Js.get (user r) "first_name" = Js.VString "Ada"
    /\ Js.get (user r) "last_name" = Js.VString "Mary".
Proof.
  eexists _, _. split; [reflexivity|].
  refine (proj2 (google_account_names sample_externals
                   {| profile_id := "g-9"; displayName := Some "Ada Mary Lovelace";
                      emails := Some ["ada@x.com"]; photos := None |}
                   "ada@x.com" sample_world _ _ _ _ _ _)
            "Ada" "Mary" _ _ (or_intror (ex_intro _ "Lovelace" _)));
    reflexivity.
Defined.

(** ** Bearer credentials on the states the service produces *)

(** A row of the table after a call has the id of a row that was there, or
    the id the store drew for the row the call inserted. *)
Lemma perform_row_ids (E : Externals) (w : World) (k : service_call) (u' : User) :
  In u' (users (perform E w k)) ->
  (exists u, In u (users w) /\ id u = id u') \/ id u' = gen_random_uuid E (users_seq w).
Proof.
  revert u'.
  assert (Hsame : forall u', In u' (users w) ->
                             (exists u, In u (users w) /\ id u = id u')
                             \/ id u' = gen_random_uuid E (users_seq w)).
  { intros u' Hu. left. now exists u'. }
  assert (Hcreate : forall d u',
             In u' (users (snd (UserModel_create E d w))) ->
             (exists u, In u (users w) /\ id u = id u')
             \/ id u' = gen_random_uuid E (users_seq w)).
  { intros d u'. destruct (UserModel_create E d w) as [[u|e] w1] eqn:Hc.
    - apply create_inv_row in Hc as (-> & Hid & _).
      cbn [snd users with_users]. intros Hin.
      apply in_app_or in Hin as [Hin|[<-|[]]]; [now apply Hsame | now right].
    - apply create_throws in Hc as (-> & _). apply Hsame. }
  destruct (step_keeps_core E w) as (_ & Hlogin & _ & Hlogout & Hval).
  destruct k; cbn [perform].
  - destruct (malformed_email em || too_short pw) eqn:Hv.
    { destruct (register_invalid E em pw fn ln w Hv) as (m & -> & _). exact Hsame. }
    destruct em as [em|]; [|discriminate].
    destruct pw as [pw|]; [|cbn in Hv; now rewrite orb_true_r in Hv].
    rewrite (register_cases E em pw fn ln w Hv).
    destruct (List.find _ (users w)); [exact Hsame|].
    match goal with
    | |- context [UserModel_create E ?d w] => specialize (Hcreate d)
    end.
    destruct (UserModel_create E _ w) as [[u|e] w1]; exact Hcreate.
  - rewrite Hlogin. exact Hsame.
  - destruct (profile_email p) as [em|] eqn:Hem;
      [|rewrite (googleAuth_no_email E p w Hem); exact Hsame].
    rewrite (googleAuth_cases E p em w Hem).
    destruct (List.find _ (users w)) as [u|]; [rewrite issue_eq; exact Hsame|].
    destruct (List.find _ (users w)) as [u|].
    + destruct (UserModel_update _ _ w) as [[[u0|]|e] w1] eqn:Hu.
      * apply update_inv in Hu as (old & _ & _ & _ & ->); [|reflexivity].
        rewrite issue_eq. cbn [snd users with_sessions with_uuid_seq with_users].
        intros u' Hin. apply in_map_iff in Hin as (x & <- & Hx).
        left. exists x. split; [exact Hx|].
        now destruct (String.eqb (id x) (id u)).
      * apply (update_no_write _ _ w w1) in Hu as ->. exact Hsame.
      * apply (update_no_write _ _ w w1) in Hu as ->. exact Hsame.
    + specialize (Hcreate (google_account p em)).
      destruct (UserModel_create E _ w) as [[u|e] w1]; exact Hcreate.
  - rewrite Hlogout. exact Hsame.
  - rewrite Hval. exact Hsame.
  - exact Hsame.
Qed.

(** Over a run of register, login, external-identity login, logout and
    waiting, rows keep having ids and sessions keep belonging to rows. *)
Lemma run_keeps_ids (E : Externals) (calls : list service_call) (w : World) :
  (forall n, gen_random_uuid E n <> "") ->
  forallb (fun k => negb (is_validate k)) calls = true ->
  rows_have_ids w -> sessions_owned w ->
  rows_have_ids (fold_left (perform E) calls w)
  /\ sessions_owned (fold_left (perform E) calls w).
Proof.
  intros Hgen. revert w.
  induction calls as [|k ks IH]; intros w Hcalls Hrows Hown; [now split|].
  cbn [forallb] in Hcalls. apply andb_true_iff in Hcalls as [Hk Hks].
  apply negb_true_iff in Hk. cbn [fold_left]. apply IH; [exact Hks| |].
  - intros u' Hu'. destruct (perform_row_ids E w k u' Hu') as [(u & Hu & <-) | ->].
    + now apply Hrows.
    + apply Hgen.
  - now apply perform_keeps_owned.
Qed.

(** Where every entry stores the id of a row and no row id is empty, a live
    entry is one the middleware accepts. *)
Lemma live_session_usable (w : World) (tid : string) :
  rows_have_ids w -> sessions_owned w ->
  (usable_session w tid <-> live_session w tid).
Proof.
  intros Hrows Hown. split.
  - intros (v & ex & Hl & Hlt & _). now exists v, ex.
  - intros (v & ex & Hl & Hlt). exists v, ex. split; [exact Hl|]. split; [exact Hlt|].
    destruct (Hown _ _ _ Hl) as (u & Hu & <-). now apply Hrows.
Qed.

(** C1. On every state the service produces (any run of register, login,
    external-identity login, logout and time passing, from a table whose
    rows have ids and a cache whose entries store ids of rows, the store
    never drawing an empty id), a request whose bearer token verifies is let
    through by the middleware if and only if the cache holds a live entry
    keyed by the token's session identifier; otherwise it is answered 401.
    In particular the credential is refused once its entry is deleted by
    logout or has expired, and the profile route answers 401 after the
    logout route was called with the same credential. *)
Theorem authMiddleware_admits_iff (E : Externals) (calls : list service_call)
    (w0 : World) (req : Request) (token : string) (payload : TokenPayload) :
  (forall n, gen_random_uuid E n <> "") ->
  rows_have_ids w0 -> sessions_owned w0 ->
  forallb (fun k => negb (is_validate k)) calls = true ->
  let w := fold_left (perform E) calls w0 in
  authorization req = Some ("Bearer " +:+ token) ->
  jwt_verify E token (jwt_secret (config E)) (clock w) = Some payload ->
  let refused := {| status := 401; json := Refusal "Session expired or invalid" |} in
  (authMiddleware E req w = inr (set_user payload req)
   <-> live_session w (tokenId payload))
  /\ ((exists req', authMiddleware E req w = inr req')
      <-> live_session w (tokenId payload))
  /\ (~ live_session w (tokenId payload) -> authMiddleware E req w = inl refused)
  /\ authMiddleware E req (snd (AuthService_logout (tokenId payload) w)) = inl refused
  /\ (forall d,
        jwt_verify E token (jwt_secret (config E)) (clock w + d) = Some payload ->
        (forall v expiry,
            sessions w !! session_key (tokenId payload) = Some (v, expiry) ->
            expiry <= clock w + d) ->
        authMiddleware E req (advance d w) = inl refused)
  /\ fst (route_me E req (snd (route_logout E req w))) = refused.
Proof.
  intros Hgen Hrows Hown Hcalls w Hh Hv refused.
  destruct (run_keeps_ids E calls w0 Hgen Hcalls Hrows Hown) as [Hrows' Hown'].
  fold w in Hrows', Hown'.
  pose proof (live_session_usable w (tokenId payload) Hrows' Hown') as Hlive.
  destruct (authMiddleware_usable E req w token payload Hh Hv)
    as (Hiff & Hnot & Hout & Hexp & Hme).
  assert (Hno : ~ live_session w (tokenId payload) -> authMiddleware E req w = inl refused).
  { intros Hn. apply Hnot. intros Hu. apply Hn. now apply Hlive. }
  split; [|split; [|split; [|split; [|split]]]].
  - now rewrite Hiff.
  - split.
    + intros [req' Hreq].
      rewrite (authMiddleware_verified E req w token payload Hh Hv) in Hreq.
      destruct (Js.truthy_opt _) eqn:Ht; [|discriminate Hreq].
      apply Hlive. now apply validateSession_truthy.
    + intros Hl. exists (set_user payload req). apply Hiff. now apply Hlive.
  - exact Hno.
  - exact Hout.
  - exact Hexp.
  - exact Hme.
Qed.

Lemma authMiddleware_admits_iff_witness :
  authMiddleware sample_externals
    (with_authorization (Some "Bearer jwt.2") sample_request)
    (fold_left (perform sample_externals)
       [ Login (Some "a@b.com") (Some "secret123") ] sample_world)
  = inr (set_user {| userId := "user-0"; tp_email := "a@b.com"; tokenId := "2" |}
           (with_authorization (Some "Bearer jwt.2") sample_request)).
Proof.
  apply (authMiddleware_admits_iff sample_externals
           [ Login (Some "a@b.com") (Some "secret123") ] sample_world
           (with_authorization (Some "Bearer jwt.2") sample_request) "jwt.2"
           {| userId := "user-0"; tp_email := "a@b.com"; tokenId := "2" |}).
  - intros n. discriminate.
  - intros u [<-|[<-|[<-|[]]]]; discriminate.
  - intros key v ex Hl. unfold sample_world in Hl. cbn [sessions] in Hl.
    apply lookup_singleton_Some in Hl as [_ Hl].
    injection Hl as <- _. exists alice. split; [now left | reflexivity].
  - reflexivity.
  - reflexivity.
  - reflexivity.
  - exists "user-0", 87400. split; [reflexivity|]. vm_compute. reflexivity.
Defined.
